(** * PawSync: workspace invite/join, timeline aggregation and calendar
      day-status classifier.

    A shallow embedding of the storage layer ([DatabaseStorage]), of the
    route handlers of the HTTP API and of the client-side [CalendarView]
    helpers, followed by the properties stated for them.

    Conventions of the embedding:
    - a JavaScript [Date] is its [getTime()] value, a [Z] of milliseconds;
    - a string is the [string] of the bytes of its UTF-8 encoding; [trim]
      removes the white space of every script, and [toLowerCase], which
      follows the Unicode character database, is a function of the host;
    - a nullable column or an optional field is an [option];
    - a table is the list of its rows in insertion order, except [users],
      which the code only reads and writes through its primary key and which
      is a [gmap] from that key;
    - an insertion or update throws when a number does not fit its
      [integer] column; foreign keys are not checked by the storage
      functions, and a theorem that promises an insertion assumes the rows
      the new row refers to;
    - a route with [upload.single("file")] has no outcome ([None]) for an
      upload that multer refuses;
    - values the server draws from outside (the clock, [gen_random_uuid()],
      [crypto.randomBytes]) are inputs of the handler, gathered in [Env];
    - a handler maps a request and a database to a response and a database. *)

From Stdlib Require Import ZArith Ascii Sorted.
From stdpp Require Import base option list strings gmap sorting pretty.

Local Open Scope Z_scope.

(** ** JavaScript built-ins used by the code *)
Module JS.

(** [a || null] on an optional string: the empty string is falsy. *)
Definition orNull (o : option string) : option string :=
  match o with
  | Some EmptyString => None
  | _ => o
  end.

Definition isUpper (c : ascii) : bool :=
  let n := nat_of_ascii c in (65 <=? n)%nat && (n <=? 90)%nat.

Definition lowerChar (c : ascii) : ascii :=
  if isUpper c then ascii_of_nat (nat_of_ascii c + 32) else c.

(** What [toLowerCase] does to a string of ASCII characters: the letters A
    to Z are lowered, everything else is kept. *)
Fixpoint lowerAscii (s : string) : string :=
  match s with
  | EmptyString => EmptyString
  | String c s' => String (lowerChar c) (lowerAscii s')
  end.

(** A string of ASCII characters: every byte is below 128. *)
Fixpoint isAscii (s : string) : bool :=
  match s with
  | EmptyString => true
  | String c s' => (nat_of_ascii c <? 128)%nat && isAscii s'
  end.

(** [String.prototype.toLowerCase] lowers every cased letter of the Unicode
    character database, also outside ASCII (U+212A KELVIN SIGN becomes k).
    The database is not written out here: the function is the host's, and
    what is known of it is what it does to strings of ASCII characters. *)
Class CaseMapping := {
  toLowerCase : string → string;
  toLowerCase_ascii : ∀ s, isAscii s = true → toLowerCase s = lowerAscii s
}.

(** For the examples, whose strings are ASCII: a mapping that keeps every
    other character. *)
Definition basicLatin : CaseMapping :=
  {| toLowerCase := lowerAscii; toLowerCase_ascii := λ s _, eq_refl |}.

(** A string written by the bytes of its UTF-8 encoding. *)
Definition utf8 (l : list nat) : string :=
  foldr (λ n s, String (ascii_of_nat n) s) EmptyString l.

(** The characters [trim] removes, WhiteSpace and LineTerminator of
    ECMAScript, each by its encoding: TAB, LF, VT, FF, CR, SPACE, U+00A0,
    U+1680, U+2000 to U+200A, U+2028, U+2029, U+202F, U+205F, U+3000 and
    U+FEFF. *)
Definition whiteSpace : list string :=
  utf8 <$>
    [[9]; [10]; [11]; [12]; [13]; [32];
     [194; 160];
     [225; 154; 128];
     [226; 128; 128]; [226; 128; 129]; [226; 128; 130]; [226; 128; 131];
     [226; 128; 132]; [226; 128; 133]; [226; 128; 134]; [226; 128; 135];
     [226; 128; 136]; [226; 128; 137]; [226; 128; 138];
     [226; 128; 168]; [226; 128; 169];
     [226; 128; 175];
     [226; 129; 159];
     [227; 128; 128];
     [239; 187; 191]]%nat.

Definition isWhiteSpace (s : string) : bool := bool_decide (s ∈ whiteSpace).

(** A white-space character is one, two or three bytes long. *)
Fixpoint trimStart (s : string) : string :=
  match s with
  | EmptyString => EmptyString
  | String a s1 =>
      if isWhiteSpace (String a EmptyString) then trimStart s1
      else
        match s1 with
        | EmptyString => s
        | String b s2 =>
            if isWhiteSpace (String a (String b EmptyString)) then trimStart s2
            else
              match s2 with
              | EmptyString => s
              | String c s3 =>
                  if isWhiteSpace (String a (String b (String c EmptyString)))
                  then trimStart s3
                  else s
              end
        end
  end.

(** The end of the string is trimmed from the right: what is left of this
    byte and the trimmed rest is dropped when it is one white-space
    character. *)
Fixpoint trimEnd (s : string) : string :=
  match s with
  | EmptyString => EmptyString
  | String c s' =>
      let t := String c (trimEnd s') in
      if isWhiteSpace t then EmptyString else t
  end.

(** [String.prototype.trim]. *)
Definition trim (s : string) : string := trimEnd (trimStart s).

(** [s.split(sep)] for a separator of one character. *)
Fixpoint split (sep : ascii) (s : string) : list string :=
  match s with
  | EmptyString => [EmptyString]
  | String c s' =>
      if decide (c = sep) then EmptyString :: split sep s'
      else match split sep s' with
           | [] => [String c EmptyString]
           | w :: ws => String c w :: ws
           end
  end.

(** [parts.join(sep)]. *)
Fixpoint join (sep : string) (parts : list string) : string :=
  match parts with
  | [] => EmptyString
  | [w] => w
  | w :: ws => w +:+ sep +:+ join sep ws
  end.

(** [Array.prototype.sort(cmp)]: a stable sort; an element is placed before
    the first element of the sorted rest that it does not compare above. *)
Fixpoint insertBy {A} (cmp : A → A → Z) (x : A) (l : list A) : list A :=
  match l with
  | [] => [x]
  | y :: l' => if cmp x y <=? 0 then x :: y :: l' else y :: insertBy cmp x l'
  end.

Definition sort {A} (cmp : A → A → Z) (l : list A) : list A :=
  foldr (insertBy cmp) [] l.

(** [Array.prototype.push] of one element. *)
Definition push {A} (l : list A) (x : A) : list A := l ++ [x].

(** JSON values of a request body, where a handler inspects their shape. *)
#[warnings="-register-all"]
Inductive json :=
| JUndefined
| JNull
| JBool (b : bool)
| JNumber (z : Z)
| JString (s : string)
| JArray (l : list json).

End JS.

(** ** shared/schema.ts *)
Module Schema.

(** Modelled from the spec: the [users] table of shared/models/auth, which is
    imported by the schema; the columns are those the handlers read and write
    (identity, email, names, photo, role, onboarding flag, update time). *)
Record User := {
  user_id : string;
  user_email : option string;
  user_firstName : option string;
  user_lastName : option string;
  user_profileImageUrl : option string;
  user_role : option string;
  user_onboardingComplete : bool;
  user_updatedAt : Z
}.

Record Workspace := {
  ws_id : string;
  ws_trainerUserId : string;
  ws_inviteToken : string;
  ws_businessName : option string;
  ws_bio : option string;
  ws_createdAt : Z
}.

Record WorkspaceMember := {
  wm_id : string;
  wm_workspaceId : string;
  wm_userId : string;
  wm_role : string;
  wm_createdAt : Z
}.

Record Pet := {
  pet_id : string;
  pet_name : string;
  pet_species : option string;
  pet_breed : option string;
  pet_age : option string;
  pet_ownerPhone : option string;
  pet_imageUrl : option string;
  pet_ownerId : string;
  pet_trainerId : option string;
  pet_workspaceId : option string;
  pet_createdAt : Z
}.

Record HomeworkTask := {
  task_id : string;
  task_petId : string;
  task_createdByTrainerId : string;
  task_title : string;
  task_instructions : string;
  task_frequency : string;
  task_expectedDurationMins : option Z;
  task_isActive : bool;
  task_preferredDays : option (list string);
  task_createdAt : Z
}.

Record HomeworkSubmission := {
  sub_id : string;
  sub_taskId : string;
  sub_submittedByUserId : string;
  sub_note : option string;
  sub_status : string;
  sub_submittedAt : Z;
  sub_createdAt : Z
}.

Record SubmissionMedia := {
  sm_id : string;
  sm_submissionId : string;
  sm_mediaType : string;
  sm_filePath : string;
  sm_fileName : option string;
  sm_createdAt : Z
}.

Record TrainerComment := {
  tc_id : string;
  tc_submissionId : string;
  tc_trainerId : string;
  tc_comment : string;
  tc_createdAt : Z
}.

(** [WorkspaceWithRelations]: the row with its trainer and its members. *)
Record WorkspaceWithRelations := {
  wr_row : Workspace;
  wr_trainer : option User;
  wr_members : list WorkspaceMember
}.

(** [HomeworkSubmissionWithRelations]: the row with its media and comments.
    The rows joined for display only ([task], [submittedBy], the [pet],
    [trainer] and [media] of a task, the [trainer] and [media] of a comment)
    are left out: a task and a comment stand for their rows. *)
Record HomeworkSubmissionWithRelations := {
  sr_row : HomeworkSubmission;
  sr_media : list SubmissionMedia;
  sr_comments : option (list TrainerComment)
}.

(** The literal type ["task" | "submission" | "comment"]. *)
Inductive TimelineType := TypeTask | TypeSubmission | TypeComment.

Inductive TimelineData :=
| TaskData (t : HomeworkTask)
| SubmissionData (s : HomeworkSubmissionWithRelations)
| CommentData (c : TrainerComment).

Record TimelineItem := {
  type : TimelineType;
  date : Z;
  data : TimelineData
}.

End Schema.
Export Schema.

(** ** server/storage.ts *)
Module Storage.

(** The persisted state. *)
Record Db := {
  users : gmap string User;
  workspaces : list Workspace;
  workspaceMembers : list WorkspaceMember;
  pets : list Pet;
  homeworkTasks : list HomeworkTask;
  homeworkSubmissions : list HomeworkSubmission;
  submissionMedia : list SubmissionMedia;
  trainerComments : list TrainerComment
}.

(** What a request draws from outside the database: the clock, the
    identifiers [gen_random_uuid()] gives to the rows it inserts (numbered in
    insertion order) and the outcome of
    [crypto.randomBytes(24).toString("base64url")]. *)
Record Env := {
  env_now : Z;
  env_uuid : nat → string;
  env_inviteToken : string
}.

(** [findFirst({ where })]: the first row that satisfies the condition. *)
Definition findFirst {A} (P : A → Prop) `{!∀ x, Decision (P x)}
    (rows : list A) : option A :=
  snd <$> list_find P rows.

(** [orderBy: [desc(column)]]. *)
Definition orderByDesc {A} (column : A → Z) (rows : list A) : list A :=
  JS.sort (λ a b, column b - column a) rows.

(** [Partial<Pick<User, ...>>]: an absent field is left as it is. *)
Record UserUpdates := {
  upd_firstName : option (option string);
  upd_lastName : option (option string);
  upd_profileImageUrl : option (option string);
  upd_role : option (option string);
  upd_onboardingComplete : option bool
}.

Definition setUser (updates : UserUpdates) (now : Z) (u : User) : User :=
  {| user_id := user_id u;
     user_email := user_email u;
     user_firstName := default (user_firstName u) (upd_firstName updates);
     user_lastName := default (user_lastName u) (upd_lastName updates);
     user_profileImageUrl :=
       default (user_profileImageUrl u) (upd_profileImageUrl updates);
     user_role := default (user_role u) (upd_role updates);
     user_onboardingComplete :=
       default (user_onboardingComplete u) (upd_onboardingComplete updates);
     user_updatedAt := now |}.

Definition getUser (db : Db) (id : string) : option User := users db !! id.

Definition updateUser (now : Z) (id : string) (updates : UserUpdates)
    (db : Db) : Db :=
  {| users := alter (setUser updates now) id (users db);
     workspaces := workspaces db;
     workspaceMembers := workspaceMembers db;
     pets := pets db;
     homeworkTasks := homeworkTasks db;
     homeworkSubmissions := homeworkSubmissions db;
     submissionMedia := submissionMedia db;
     trainerComments := trainerComments db |}.

Definition getPet (db : Db) (id : string) : option Pet :=
  findFirst (λ p, pet_id p = id) (pets db).

Definition getTasksByPet (db : Db) (petId : string) : list HomeworkTask :=
  orderByDesc task_createdAt (filter (λ t, task_petId t = petId) (homeworkTasks db)).

Definition getTask (db : Db) (id : string) : option HomeworkTask :=
  findFirst (λ t, task_id t = id) (homeworkTasks db).

Definition setPreferredDays (days : option (list string)) (t : HomeworkTask)
    : HomeworkTask :=
  {| task_id := task_id t;
     task_petId := task_petId t;
     task_createdByTrainerId := task_createdByTrainerId t;
     task_title := task_title t;
     task_instructions := task_instructions t;
     task_frequency := task_frequency t;
     task_expectedDurationMins := task_expectedDurationMins t;
     task_isActive := task_isActive t;
     task_preferredDays := days;
     task_createdAt := task_createdAt t |}.

(** [updateTask(id, updates)]: every row with this id is rewritten; the
    first of them is returned. *)
Definition updateRows {A} (P : A → Prop) `{!∀ x, Decision (P x)}
    (f : A → A) (rows : list A) : list A :=
  (λ r, if decide (P r) then f r else r) <$> rows.

Definition updateTask (id : string) (f : HomeworkTask → HomeworkTask) (db : Db)
    : option HomeworkTask * Db :=
  let db' :=
    {| users := users db;
       workspaces := workspaces db;
       workspaceMembers := workspaceMembers db;
       pets := pets db;
       homeworkTasks := updateRows (λ t, task_id t = id) f (homeworkTasks db);
       homeworkSubmissions := homeworkSubmissions db;
       submissionMedia := submissionMedia db;
       trainerComments := trainerComments db |} in
  (f <$> getTask db id, db').

(** The relations loaded with a submission. *)
Definition withSubmissionRelations (db : Db) (s : HomeworkSubmission)
    (comments : list TrainerComment) : HomeworkSubmissionWithRelations :=
  {| sr_row := s;
     sr_media := filter (λ m, sm_submissionId m = sub_id s) (submissionMedia db);
     sr_comments := Some comments |}.

Definition commentsOf (db : Db) (s : HomeworkSubmission) : list TrainerComment :=
  filter (λ c, tc_submissionId c = sub_id s) (trainerComments db).

Definition getSubmission (db : Db) (id : string)
    : option HomeworkSubmissionWithRelations :=
  (λ s, withSubmissionRelations db s (orderByDesc tc_createdAt (commentsOf db s)))
    <$> findFirst (λ s, sub_id s = id) (homeworkSubmissions db).

Definition getSubmissionsByPet (db : Db) (petId : string)
    : list HomeworkSubmissionWithRelations :=
  let tasks := filter (λ t, task_petId t = petId) (homeworkTasks db) in
  let taskIds := task_id <$> tasks in
  if decide (length taskIds = 0%nat) then []
  else
    let result :=
      (λ s, withSubmissionRelations db s (commentsOf db s))
        <$> filter (λ s, sub_taskId s ∈ taskIds) (homeworkSubmissions db) in
    orderByDesc (λ s, sub_submittedAt (sr_row s)) result.

(** [InsertHomeworkSubmission]: the columns the caller supplies. *)
Record InsertHomeworkSubmission := {
  ins_taskId : string;
  ins_submittedByUserId : string;
  ins_note : option string;
  ins_status : string
}.

Definition createSubmission (now : Z) (id : string)
    (ins : InsertHomeworkSubmission) (db : Db) : HomeworkSubmission * Db :=
  let row :=
    {| sub_id := id;
       sub_taskId := ins_taskId ins;
       sub_submittedByUserId := ins_submittedByUserId ins;
       sub_note := ins_note ins;
       sub_status := ins_status ins;
       sub_submittedAt := now;
       sub_createdAt := now |} in
  (row,
   {| users := users db;
      workspaces := workspaces db;
      workspaceMembers := workspaceMembers db;
      pets := pets db;
      homeworkTasks := homeworkTasks db;
      homeworkSubmissions := homeworkSubmissions db ++ [row];
      submissionMedia := submissionMedia db;
      trainerComments := trainerComments db |}).

Definition createSubmissionMedia (row : SubmissionMedia) (db : Db) : Db :=
  {| users := users db;
     workspaces := workspaces db;
     workspaceMembers := workspaceMembers db;
     pets := pets db;
     homeworkTasks := homeworkTasks db;
     homeworkSubmissions := homeworkSubmissions db;
     submissionMedia := submissionMedia db ++ [row];
     trainerComments := trainerComments db |}.

(** The entries pushed for one submission: the submission, then its
    comments when the relation is loaded. *)
Definition pushSubmission (items : list TimelineItem)
    (s : HomeworkSubmissionWithRelations) : list TimelineItem :=
  let items :=
    JS.push items
      {| type := TypeSubmission; date := sub_submittedAt (sr_row s);
         data := SubmissionData s |} in
  match sr_comments s with
  | Some comments =>
      foldl (λ items c,
               JS.push items
                 {| type := TypeComment; date := tc_createdAt c; data := CommentData c |})
            items comments
  | None => items
  end.

Definition getTimeline (db : Db) (petId : string) : list TimelineItem :=
  let tasks := getTasksByPet db petId in
  let submissions := getSubmissionsByPet db petId in
  let timelineItems := [] in
  let timelineItems :=
    foldl (λ items t,
             JS.push items
               {| type := TypeTask; date := task_createdAt t; data := TaskData t |})
          timelineItems tasks in
  let timelineItems := foldl pushSubmission timelineItems submissions in
  JS.sort (λ a b, date b - date a) timelineItems.

End Storage.
Export Storage.

(** More of server/storage.ts: workspaces and their members. *)
Module WorkspaceStorage.

Definition withWorkspaceRelations (db : Db) (w : Workspace)
    : WorkspaceWithRelations :=
  {| wr_row := w;
     wr_trainer := users db !! ws_trainerUserId w;
     wr_members := filter (λ m, wm_workspaceId m = ws_id w) (workspaceMembers db) |}.

Definition getWorkspaceByToken (db : Db) (token : string)
    : option WorkspaceWithRelations :=
  withWorkspaceRelations db
    <$> findFirst (λ w, ws_inviteToken w = token) (workspaces db).

Definition getWorkspaceByTrainer (db : Db) (trainerId : string)
    : option WorkspaceWithRelations :=
  withWorkspaceRelations db
    <$> findFirst (λ w, ws_trainerUserId w = trainerId) (workspaces db).

Definition setWorkspaces (rows : list Workspace) (db : Db) : Db :=
  {| users := users db;
     workspaces := rows;
     workspaceMembers := workspaceMembers db;
     pets := pets db;
     homeworkTasks := homeworkTasks db;
     homeworkSubmissions := homeworkSubmissions db;
     submissionMedia := submissionMedia db;
     trainerComments := trainerComments db |}.

(** [createWorkspace]: the row gets its id and creation time on insertion. *)
Definition createWorkspace (now : Z) (id trainerUserId inviteToken : string)
    (businessName bio : option string) (db : Db) : Workspace * Db :=
  let row :=
    {| ws_id := id;
       ws_trainerUserId := trainerUserId;
       ws_inviteToken := inviteToken;
       ws_businessName := businessName;
       ws_bio := bio;
       ws_createdAt := now |} in
  (row, setWorkspaces (workspaces db ++ [row]) db).

Definition setProfile (businessName bio : option string) (w : Workspace)
    : Workspace :=
  {| ws_id := ws_id w;
     ws_trainerUserId := ws_trainerUserId w;
     ws_inviteToken := ws_inviteToken w;
     ws_businessName := businessName;
     ws_bio := bio;
     ws_createdAt := ws_createdAt w |}.

Definition updateWorkspace (id : string) (businessName bio : option string)
    (db : Db) : Db :=
  setWorkspaces
    (updateRows (λ w, ws_id w = id) (setProfile businessName bio) (workspaces db))
    db.

Definition addWorkspaceMember (now : Z) (id workspaceId userId role : string)
    (db : Db) : Db :=
  let row :=
    {| wm_id := id;
       wm_workspaceId := workspaceId;
       wm_userId := userId;
       wm_role := role;
       wm_createdAt := now |} in
  {| users := users db;
     workspaces := workspaces db;
     workspaceMembers := workspaceMembers db ++ [row];
     pets := pets db;
     homeworkTasks := homeworkTasks db;
     homeworkSubmissions := homeworkSubmissions db;
     submissionMedia := submissionMedia db;
     trainerComments := trainerComments db |}.

Definition getWorkspaceMembers (db : Db) (workspaceId : string)
    : list WorkspaceMember :=
  filter (λ m, wm_workspaceId m = workspaceId) (workspaceMembers db).

End WorkspaceStorage.
Export WorkspaceStorage.

(** ** server/routes.ts *)
Module Routes.

Inductive Body (A : Type) :=
| Message (message : string)
| Json (payload : A).
Arguments Message {A} message.
Arguments Json {A} payload.

Record Response (A : Type) := { status : Z; body : Body A }.
Arguments status {A} _.
Arguments body {A} _.

(** [res.status(code).json({ message })] and [res.status(code).json(payload)]. *)
Definition fail {A} (code : Z) (message : string) : Response A :=
  {| status := code; body := Message message |}.
Definition reply {A} (code : Z) (payload : A) : Response A :=
  {| status := code; body := Json payload |}.

(** A request that passed [isAuthenticated]: the subject claim of the
    session, the path parameter and the parsed body. *)
Record Request (B : Type) := {
  req_sub : option string;
  req_param : string;
  req_body : B
}.
Arguments req_sub {B} _.
Arguments req_param {B} _.
Arguments req_body {B} _.

Definition getUserId {B} (req : Request B) : option string :=
  JS.orNull (req_sub req).

Definition getUserWithRole {B} (db : Db) (req : Request B) : option User :=
  match getUserId req with
  | None => None
  | Some userId => getUser db userId
  end.

(** The [requireOwner] middleware: the user it attaches to the request, or
    the 403 it answers. *)
Definition requireOwner {A B} (db : Db) (req : Request B)
    : Response A + User :=
  match getUserWithRole db req with
  | Some user =>
      if decide (user_role user = Some "OWNER" ∨ user_role user = Some "ADMIN")
      then inr user
      else inl (fail 403 "Owner role required")
  | None => inl (fail 403 "Owner role required")
  end.

(** *** POST /api/workspaces/trainer-profile *)
Record TrainerProfileBody := {
  tp_displayName : option string;
  tp_businessName : option string;
  tp_bio : option string;
  tp_profilePhoto : option string
}.

Definition trainerProfile (env : Env) (req : Request TrainerProfileBody)
    (db : Db) : Response (option User) * Db :=
  match getUserId req with
  | None => (fail 401 "Not authenticated", db)
  | Some userId =>
      let b := req_body req in
      match JS.orNull (tp_displayName b) with
      | None => (fail 400 "Display name is required", db)
      | Some displayName =>
          if decide (String.length (JS.trim displayName) = 0%nat)
          then (fail 400 "Display name is required", db)
          else
            let nameParts := JS.split " " (JS.trim displayName) in
            let firstName := nameParts !! 0%nat in
            let lastName := JS.orNull (Some (JS.join " " (drop 1 nameParts))) in
            let db :=
              updateUser (env_now env) userId
                {| upd_firstName := Some <$> firstName;
                   upd_lastName := Some lastName;
                   upd_profileImageUrl := Some <$> JS.orNull (tp_profilePhoto b);
                   upd_role := Some (Some "TRAINER");
                   upd_onboardingComplete := Some true |} db in
            let db :=
              match getWorkspaceByTrainer db userId with
              | None =>
                  let inviteToken := env_inviteToken env in
                  let '(workspace, db) :=
                    createWorkspace (env_now env) (env_uuid env 0) userId
                      inviteToken (JS.orNull (tp_businessName b))
                      (JS.orNull (tp_bio b)) db in
                  addWorkspaceMember (env_now env) (env_uuid env 1)
                    (ws_id workspace) userId "TRAINER" db
              | Some workspace =>
                  updateWorkspace (ws_id (wr_row workspace))
                    (JS.orNull (tp_businessName b)) (JS.orNull (tp_bio b)) db
              end in
            (reply 200 (getUser db userId), db)
      end
  end.

(** *** GET /api/workspaces/validate/:token *)
Record ValidateResult := {
  vr_workspaceId : string;
  vr_trainerName : string;
  vr_businessName : option string
}.

Definition trainerName (trainer : option User) : string :=
  JS.trim
    (default "" (JS.orNull (trainer ≫= user_firstName)) +:+ " "
     +:+ default "" (JS.orNull (trainer ≫= user_lastName))).

Definition validateToken (req : Request unit) (db : Db)
    : Response ValidateResult * Db :=
  let token := req_param req in
  match getWorkspaceByToken db token with
  | None => (fail 404 "Invalid invite link", db)
  | Some workspace =>
      (reply 200
         {| vr_workspaceId := ws_id (wr_row workspace);
            vr_trainerName := trainerName (wr_trainer workspace);
            vr_businessName := ws_businessName (wr_row workspace) |},
       db)
  end.

(** *** POST /api/workspaces/join *)
Record JoinResult := {
  jr_workspaceId : string;
  jr_alreadyMember : option bool
}.

Definition ownerOnboarding : UserUpdates :=
  {| upd_firstName := None;
     upd_lastName := None;
     upd_profileImageUrl := None;
     upd_role := Some (Some "OWNER");
     upd_onboardingComplete := Some false |}.

Definition joinWorkspace (env : Env) (req : Request (option string)) (db : Db)
    : Response JoinResult * Db :=
  match getUserId req with
  | None => (fail 401 "Not authenticated", db)
  | Some userId =>
      match JS.orNull (req_body req) with
      | None => (fail 400 "Invite token required", db)
      | Some token =>
          match getWorkspaceByToken db token with
          | None => (fail 404 "Invalid invite link", db)
          | Some workspace =>
              if decide (ws_trainerUserId (wr_row workspace) = userId)
              then (fail 400 "You cannot join your own workspace as an owner", db)
              else
                let existingMembers :=
                  getWorkspaceMembers db (ws_id (wr_row workspace)) in
                let alreadyMember :=
                  bool_decide (Exists (λ m, wm_userId m = userId) existingMembers) in
                if alreadyMember
                then
                  let db := updateUser (env_now env) userId ownerOnboarding db in
                  (reply 200
                     {| jr_workspaceId := ws_id (wr_row workspace);
                        jr_alreadyMember := Some true |},
                   db)
                else
                  let db :=
                    addWorkspaceMember (env_now env) (env_uuid env 0)
                      (ws_id (wr_row workspace)) userId "OWNER" db in
                  let db := updateUser (env_now env) userId ownerOnboarding db in
                  (reply 201
                     {| jr_workspaceId := ws_id (wr_row workspace);
                        jr_alreadyMember := None |},
                   db)
          end
      end
  end.

End Routes.
Export Routes.

(** More of server/routes.ts: tasks and submissions. *)
Module TaskRoutes.

(** *** PATCH /api/tasks/:id/preferred-days *)
Definition validDays : list string :=
  ["Mon"; "Tue"; "Wed"; "Thu"; "Fri"; "Sat"; "Sun"].

(** [validDays.includes(d)]: only a string can equal one of the names. *)
Definition includesDay (d : JS.json) : bool :=
  match d with
  | JS.JString s => bool_decide (s ∈ validDays)
  | _ => false
  end.

(** The strings of an array that passed the check, as stored in the
    [text[]] column. *)
Definition dayNames (l : list JS.json) : list string :=
  omap (λ d, match d with JS.JString s => Some s | _ => None end) l.

(** [preferredDays && preferredDays.length > 0 ? preferredDays : null], for
    a value that is [null] or an array. *)
Definition storedDays (preferredDays : JS.json) : option (list string) :=
  match preferredDays with
  | JS.JArray (d :: l) => Some (dayNames (d :: l))
  | _ => None
  end.

Definition setTaskPreferredDays (req : Request JS.json) (db : Db)
    : Response (option HomeworkTask) * Db :=
  match getUserWithRole db req with
  | None => (fail 401 "Unauthorized", db)
  | Some user =>
      match getTask db (req_param req) with
      | None => (fail 404 "Task not found", db)
      | Some task =>
          match getPet db (task_petId task) with
          | None => (fail 404 "Pet not found", db)
          | Some pet =>
              if decide (pet_ownerId pet ≠ user_id user
                         ∧ user_role user ≠ Some "ADMIN")
              then (fail 403 "Only the pet owner can set preferred days", db)
              else
                let preferredDays := req_body req in
                let rejected :=
                  match preferredDays with
                  | JS.JNull => false
                  | JS.JArray l => negb (forallb includesDay l)
                  | _ => true
                  end in
                if rejected then (fail 400 "Invalid preferred days", db)
                else
                  let '(updatedTask, db) :=
                    updateTask (req_param req)
                      (setPreferredDays (storedDays preferredDays)) db in
                  (reply 200 updatedTask, db)
          end
      end
  end.

(** *** POST /api/submissions *)
Record MediaItem := {
  mi_mediaType : string;
  mi_filePath : string;
  mi_fileName : option string
}.

(** The body: [media] is [None] unless it is an array. *)
Record SubmissionBody := {
  sb_taskId : string;
  sb_note : option string;
  sb_media : option (list MediaItem)
}.

(** The loop over the media of a submission; the n-th row inserted by the
    request gets the n-th identifier. *)
Fixpoint createMedia (env : Env) (n : nat) (submissionId : string)
    (media : list MediaItem) (db : Db) : Db :=
  match media with
  | [] => db
  | mediaItem :: rest =>
      let db :=
        createSubmissionMedia
          {| sm_id := env_uuid env n;
             sm_submissionId := submissionId;
             sm_mediaType := mi_mediaType mediaItem;
             sm_filePath := mi_filePath mediaItem;
             sm_fileName := JS.orNull (mi_fileName mediaItem);
             sm_createdAt := env_now env |} db in
      createMedia env (S n) submissionId rest db
  end.

Definition createSubmissionHandler (env : Env) (req : Request SubmissionBody)
    (db : Db) : Response (option HomeworkSubmissionWithRelations) * Db :=
  match requireOwner db req with
  | inl forbidden => (forbidden, db)
  | inr user =>
      let b := req_body req in
      match getTask db (sb_taskId b) with
      | None => (fail 404 "Task not found", db)
      | Some task =>
          if negb (task_isActive task)
          then (fail 400
                  "This task has been closed and no longer accepts submissions",
                db)
          else
            match getPet db (task_petId task) with
            | Some pet =>
                if decide (pet_ownerId pet ≠ user_id user)
                then (fail 403 "Access denied", db)
                else
                  let '(submission, db) :=
                    createSubmission (env_now env) (env_uuid env 0)
                      {| ins_taskId := sb_taskId b;
                         ins_submittedByUserId := user_id user;
                         ins_note := JS.orNull (sb_note b);
                         ins_status := "COMPLETED" |} db in
                  let db :=
                    match sb_media b with
                    | Some media => createMedia env 1 (sub_id submission) media db
                    | None => db
                    end in
                  (reply 201 (getSubmission db (sub_id submission)), db)
            | None => (fail 403 "Access denied", db)
            end
      end
  end.

End TaskRoutes.
Export TaskRoutes.

(** ** client/src/pages/pet-detail.tsx: [CalendarView] *)
Module CalendarView.

(** The two date-fns functions the view calls, over a local time zone. *)
Class DateFns := {
  getDay : Z → Z;
  isSameDay : Z → Z → bool
}.

Definition msPerDay : Z := 86400000.

(** Local time at a fixed offset from UTC, in milliseconds; 1 January 1970
    was a Thursday. *)
Definition fixedOffset (offset : Z) : DateFns :=
  {| getDay := λ d, ((d + offset) `div` msPerDay + 4) `mod` 7;
     isSameDay := λ a b,
       bool_decide ((a + offset) `div` msPerDay = (b + offset) `div` msPerDay) |}.

Inductive DayStatus := none | future | complete | partial | missed.

Definition dayNameToNumber : gmap string Z :=
  list_to_map
    [("Sun", 0); ("Mon", 1); ("Tue", 2); ("Wed", 3); ("Thu", 4); ("Fri", 5);
     ("Sat", 6)].

Section View.
Context `{DateFns} `{JS.CaseMapping}.
(** The props of the component. *)
Variable tasks : list HomeworkTask.
Variable submissions : list HomeworkSubmission.

Definition getSubmissionsForDay (day : Z) : list HomeworkSubmission :=
  filter (λ sub, isSameDay (sub_submittedAt sub) day = true) submissions.

(** The predicate given to [tasks.filter]. *)
Definition scheduled (dayOfWeek : Z) (t : HomeworkTask) : bool :=
  match task_preferredDays t with
  | Some (d :: ds) =>
      bool_decide
        (Exists (λ d, dayNameToNumber !! d = Some dayOfWeek) (d :: ds))
  | _ =>
      let freq := JS.toLowerCase (task_frequency t) in
      if decide (freq = "daily") then true
      else if decide (freq = "3x/week" ∨ freq = "3x per week")
      then bool_decide (dayOfWeek = 1 ∨ dayOfWeek = 3 ∨ dayOfWeek = 5)
      else if decide (freq = "2x/week" ∨ freq = "2x per week")
      then bool_decide (dayOfWeek = 2 ∨ dayOfWeek = 5)
      else if decide (freq = "weekly")
      then bool_decide (dayOfWeek = 1)
      else true
  end.

Definition getTasksForDay (day : Z) : list HomeworkTask :=
  let dayOfWeek := getDay day in
  filter (λ t, scheduled dayOfWeek t = true) tasks.

(** [now] is the value of [new Date()] when the status is computed. *)
Definition getDayStatus (now : Z) (day : Z) : DayStatus :=
  let tasksForDay := getTasksForDay day in
  let subsForDay := getSubmissionsForDay day in
  if decide (length tasksForDay = 0%nat) then none
  else if decide (day > now) then future
  else
    let completedTaskCount :=
      length
        (filter (λ t, Exists (λ sub, sub_taskId sub = task_id t) subsForDay)
                tasksForDay) in
    if decide (length tasksForDay ≤ completedTaskCount)%nat then complete
    else if decide (0 < completedTaskCount)%nat then partial
    else missed.
End View.

End CalendarView.
Export CalendarView.

(** ** The records of a pet, as the statements count them *)
Module PetRecords.

(** The tasks of a pet. *)
Definition petTasks (db : Db) (petId : string) : list HomeworkTask :=
  filter (λ t, task_petId t = petId) (homeworkTasks db).

(** The submissions made against one of these tasks. *)
Definition petSubmissions (db : Db) (petId : string) : list HomeworkSubmission :=
  filter (λ s, sub_taskId s ∈ task_id <$> petTasks db petId)
         (homeworkSubmissions db).

(** The comments attached to one of these submissions. *)
Definition petComments (db : Db) (petId : string) : list TrainerComment :=
  filter (λ c, tc_submissionId c ∈ sub_id <$> petSubmissions db petId)
         (trainerComments db).

Definition taskEntry (t : HomeworkTask) : TimelineItem :=
  {| type := TypeTask; date := task_createdAt t; data := TaskData t |}.

Definition submissionEntry (db : Db) (s : HomeworkSubmission) : TimelineItem :=
  {| type := TypeSubmission;
     date := sub_submittedAt s;
     data := SubmissionData (withSubmissionRelations db s (commentsOf db s)) |}.

Definition commentEntry (c : TrainerComment) : TimelineItem :=
  {| type := TypeComment; date := tc_createdAt c; data := CommentData c |}.

(** The entries one submission contributes. *)
Definition entriesOf (s : HomeworkSubmissionWithRelations) : list TimelineItem :=
  {| type := TypeSubmission; date := sub_submittedAt (sr_row s);
     data := SubmissionData s |}
  :: (commentEntry <$> default [] (sr_comments s)).

(** Latest first. *)
Definition newestFirst (a b : TimelineItem) : Prop := date b ≤ date a.

End PetRecords.
Export PetRecords.

(** ** The calendar classifier, as it is described *)
Module CalendarSpec.

(** The abbreviation of a weekday number of [getDay] (0 is Sunday). *)
Definition weekdayAbbrev (dayOfWeek : Z) : option string :=
  if decide (dayOfWeek = 0) then Some "Sun"
  else if decide (dayOfWeek = 1) then Some "Mon"
  else if decide (dayOfWeek = 2) then Some "Tue"
  else if decide (dayOfWeek = 3) then Some "Wed"
  else if decide (dayOfWeek = 4) then Some "Thu"
  else if decide (dayOfWeek = 5) then Some "Fri"
  else if decide (dayOfWeek = 6) then Some "Sat"
  else None.

(** The weekdays a frequency stands for: every day for "daily", Monday,
    Wednesday and Friday for three times a week, Tuesday and Friday for
    twice a week, Monday for "weekly", every day for any other string. *)
Definition frequencyAllows (frequency : string) (dayOfWeek : Z) : Prop :=
  if decide (frequency = "daily") then True
  else if decide (frequency = "3x/week" ∨ frequency = "3x per week")
  then ∃ name, weekdayAbbrev dayOfWeek = Some name ∧ name ∈ ["Mon"; "Wed"; "Fri"]
  else if decide (frequency = "2x/week" ∨ frequency = "2x per week")
  then ∃ name, weekdayAbbrev dayOfWeek = Some name ∧ name ∈ ["Tue"; "Fri"]
  else if decide (frequency = "weekly")
  then weekdayAbbrev dayOfWeek = Some "Mon"
  else True.

Section Classifier.
Context `{DateFns}.
Variable tasks : list HomeworkTask.
Variable submissions : list HomeworkSubmission.
(** How the frequency of a task is read before it is matched. *)
Variable read : string → string.

(** A task is scheduled on a day through its preferred days when it has
    some, and through its frequency otherwise. *)
Definition scheduledOn (day : Z) (t : HomeworkTask) : Prop :=
  match task_preferredDays t with
  | Some (d :: ds) =>
      ∃ name, weekdayAbbrev (getDay day) = Some name ∧ name ∈ d :: ds
  | _ => frequencyAllows (read (task_frequency t)) (getDay day)
  end.

(** A task has a submission made on the day. *)
Definition submittedOn (day : Z) (t : HomeworkTask) : Prop :=
  ∃ sub, sub ∈ submissions
         ∧ isSameDay (sub_submittedAt sub) day = true
         ∧ sub_taskId sub = task_id t.

Definition someScheduled (day : Z) : Prop :=
  ∃ t, t ∈ tasks ∧ scheduledOn day t.

(** The status of a day at the time [now]. *)
Inductive statusOf (now day : Z) : DayStatus → Prop :=
| status_none :
    ¬ someScheduled day → statusOf now day none
| status_future :
    someScheduled day → day > now → statusOf now day future
| status_complete :
    someScheduled day → day ≤ now →
    (∀ t, t ∈ tasks → scheduledOn day t → submittedOn day t) →
    statusOf now day complete
| status_partial :
    someScheduled day → day ≤ now →
    (∃ t, t ∈ tasks ∧ scheduledOn day t ∧ submittedOn day t) →
    (∃ t, t ∈ tasks ∧ scheduledOn day t ∧ ¬ submittedOn day t) →
    statusOf now day partial
| status_missed :
    someScheduled day → day ≤ now →
    (∀ t, t ∈ tasks → scheduledOn day t → ¬ submittedOn day t) →
    statusOf now day missed.
End Classifier.

End CalendarSpec.
Export CalendarSpec.

(** ** Workspaces, names and preferred days, as they are described *)
Module WorkspaceSpec.

(** Invite tokens are unique among workspaces. *)
Definition uniqueTokens (db : Db) : Prop :=
  NoDup (ws_inviteToken <$> workspaces db).

(** The membership rows of a (workspace, user) pair. *)
Definition memberCount (db : Db) (workspaceId userId : string) : nat :=
  length (filter (λ m, wm_workspaceId m = workspaceId ∧ wm_userId m = userId)
                 (workspaceMembers db)).

(** The workspaces of a trainer. *)
Definition trainerWorkspaces (db : Db) (trainerId : string) : list Workspace :=
  filter (λ w, ws_trainerUserId w = trainerId) (workspaces db).

(** A join that succeeded. *)
Definition joined {A} (r : Response A) : Prop :=
  status r = 200 ∨ status r = 201.



(** The first token of a name when tokens are separated by white space of
    any kind: the name up to the first place where a white space begins. *)
Fixpoint firstToken (s : string) : string :=
  match s with
  | EmptyString => EmptyString
  | String c s' =>
      if existsb (λ w, String.prefix w s) JS.whiteSpace then EmptyString
      else String c (firstToken s')
  end.

(** A string of white space only. *)
Inductive blank : string → Prop :=
| blank_nil : blank ""
| blank_cons w s : w ∈ JS.whiteSpace → blank s → blank (w +:+ s).

(** A string that neither begins nor ends with white space. *)
Definition edgeFree (t : string) : Prop :=
  ∀ w, w ∈ JS.whiteSpace → (∀ x, t ≠ w +:+ x) ∧ (∀ x, t ≠ x +:+ w).

(** [t] is [s] without the white space at its two ends. *)
Definition trimmed (s t : string) : Prop :=
  ∃ l r, s = l +:+ t +:+ r ∧ blank l ∧ blank r ∧ edgeFree t.

(** The bytes that begin a white-space character. *)
Definition begins (a : ascii) : bool :=
  existsb (λ w, match w with
                | String b _ => bool_decide (a = b)
                | EmptyString => false
                end) JS.whiteSpace.

(** The names of a trainer as the invite page is given them: the first and
    the last name with a space between, a missing name being empty. *)
Definition namesOf (trainer : option User) : string :=
  default "" (trainer ≫= user_firstName) +:+ " "
  +:+ default "" (trainer ≫= user_lastName).

(** A value the preferred days can be set to: [null], or an array of
    weekday abbreviations. *)
Definition acceptableDays (v : JS.json) : Prop :=
  v = JS.JNull
  ∨ ∃ days, v = JS.JArray (JS.JString <$> days)
            ∧ Forall (λ d, d ∈ validDays) days.

(** What is stored for an accepted list. *)
Definition persistedDays (days : list string) : option (list string) :=
  match days with
  | [] => None
  | _ => Some days
  end.

End WorkspaceSpec.
Export WorkspaceSpec.

(** ** Sample data *)
Module Demo.

Definition sarah : User :=
  {| user_id := "t1"; user_email := Some "sarah.trainer@pawsync.demo";
     user_firstName := Some "Sarah"; user_lastName := Some "Johnson";
     user_profileImageUrl := None; user_role := Some "TRAINER";
     user_onboardingComplete := true; user_updatedAt := 0 |}.

Definition emily : User :=
  {| user_id := "o1"; user_email := Some "emily.owner@pawsync.demo";
     user_firstName := Some "Emily"; user_lastName := Some "Parker";
     user_profileImageUrl := None; user_role := Some "OWNER";
     user_onboardingComplete := true; user_updatedAt := 0 |}.

(** A user who has signed in and has no role yet. *)
Definition james : User :=
  {| user_id := "o2"; user_email := Some "james.owner@pawsync.demo";
     user_firstName := None; user_lastName := None;
     user_profileImageUrl := None; user_role := None;
     user_onboardingComplete := true; user_updatedAt := 0 |}.

Definition studio : Workspace :=
  {| ws_id := "w1"; ws_trainerUserId := "t1";
     ws_inviteToken := "Zm9vYmFyYmF6cXV4Zm9vYmFyYmF6cXV4";
     ws_businessName := Some "Happy Paws"; ws_bio := None; ws_createdAt := 0 |}.

Definition buddy : Pet :=
  {| pet_id := "p1"; pet_name := "Buddy"; pet_species := Some "Golden Retriever";
     pet_breed := None; pet_age := None; pet_ownerPhone := None;
     pet_imageUrl := None; pet_ownerId := "o1"; pet_trainerId := Some "t1";
     pet_workspaceId := Some "w1"; pet_createdAt := 0 |}.

(** An open task with preferred days. *)
Definition sitStay : HomeworkTask :=
  {| task_id := "k1"; task_petId := "p1"; task_createdByTrainerId := "t1";
     task_title := "Sit and stay"; task_instructions := "Five repetitions";
     task_frequency := "daily"; task_expectedDurationMins := Some 10;
     task_isActive := true; task_preferredDays := Some ["Mon"; "Wed"];
     task_createdAt := 1000 |}.

(** A closed task whose frequency is capitalised. *)
Definition looseLeash : HomeworkTask :=
  {| task_id := "k2"; task_petId := "p1"; task_createdByTrainerId := "t1";
     task_title := "Loose leash"; task_instructions := "Walk the block";
     task_frequency := "Weekly"; task_expectedDurationMins := None;
     task_isActive := false; task_preferredDays := None;
     task_createdAt := 500 |}.

Definition firstTry : HomeworkSubmission :=
  {| sub_id := "s1"; sub_taskId := "k1"; sub_submittedByUserId := "o1";
     sub_note := Some "Went well"; sub_status := "COMPLETED";
     sub_submittedAt := 2000; sub_createdAt := 2000 |}.

Definition wellDone : TrainerComment :=
  {| tc_id := "c1"; tc_submissionId := "s1"; tc_trainerId := "t1";
     tc_comment := "Great progress"; tc_createdAt := 3000 |}.

Definition db : Db :=
  {| users := <["t1" := sarah]> (<["o1" := emily]> (<["o2" := james]> ∅));
     workspaces := [studio];
     workspaceMembers :=
       [{| wm_id := "m1"; wm_workspaceId := "w1"; wm_userId := "t1";
           wm_role := "TRAINER"; wm_createdAt := 0 |}];
     pets := [buddy];
     homeworkTasks := [sitStay; looseLeash];
     homeworkSubmissions := [firstTry];
     submissionMedia := [];
     trainerComments := [wellDone] |}.

Definition env : Env :=
  {| env_now := 5000;
     env_uuid := λ n, "uuid-" +:+ pretty n;
     env_inviteToken := "c2Vjb25kLXdvcmtzcGFjZS10b2tlbi0wMDAx" |}.

(** James follows the invite link of the studio. *)
Definition joinRequest : Request (option string) :=
  {| req_sub := Some "o2"; req_param := "";
     req_body := Some (ws_inviteToken studio) |}.

Definition afterJoin : Db := snd (joinWorkspace env joinRequest db).

(** James sets up a trainer profile. *)
Definition profileRequest (displayName : string) : Request TrainerProfileBody :=
  {| req_sub := Some "o2"; req_param := "";
     req_body := {| tp_displayName := Some displayName;
                    tp_businessName := Some "Good Dog";
                    tp_bio := Some ""; tp_profilePhoto := None |} |}.

(** A display name whose parts are separated by a TAB. *)
Definition tabbedName : string := "Sarah" +:+ String "009" "Johnson".

(** A display name with white space around it: U+00A0 and a space before,
    a TAB and U+202F after. *)
Definition framedName : string :=
  JS.utf8 [194; 160; 32]%nat +:+ "Sarah Johnson"
  +:+ JS.utf8 [9; 226; 128; 175]%nat.


(** The database after James has set up a profile under one name. *)
Definition oneName : Db := snd (trainerProfile env (profileRequest "Cher") db).

(** Emily sets the preferred days of the first task. *)
Definition daysRequest (preferredDays : JS.json) : Request JS.json :=
  {| req_sub := Some "o1"; req_param := "k1"; req_body := preferredDays |}.

(** Monday 5 January 1970, 00:00 UTC, and the Tuesday after it. *)
Definition monday : Z := 4 * msPerDay.
Definition tuesday : Z := 5 * msPerDay.

End Demo.

(** ** The rest of server/storage.ts *)
Module MoreStorage.

Definition setUsers (rows : gmap string User) (db : Db) : Db :=
  {| users := rows;
     workspaces := workspaces db;
     workspaceMembers := workspaceMembers db;
     pets := pets db;
     homeworkTasks := homeworkTasks db;
     homeworkSubmissions := homeworkSubmissions db;
     submissionMedia := submissionMedia db;
     trainerComments := trainerComments db |}.

Definition setPets (rows : list Pet) (db : Db) : Db :=
  {| users := users db;
     workspaces := workspaces db;
     workspaceMembers := workspaceMembers db;
     pets := rows;
     homeworkTasks := homeworkTasks db;
     homeworkSubmissions := homeworkSubmissions db;
     submissionMedia := submissionMedia db;
     trainerComments := trainerComments db |}.

Definition setTasks (rows : list HomeworkTask) (db : Db) : Db :=
  {| users := users db;
     workspaces := workspaces db;
     workspaceMembers := workspaceMembers db;
     pets := pets db;
     homeworkTasks := rows;
     homeworkSubmissions := homeworkSubmissions db;
     submissionMedia := submissionMedia db;
     trainerComments := trainerComments db |}.

Definition setComments (rows : list TrainerComment) (db : Db) : Db :=
  {| users := users db;
     workspaces := workspaces db;
     workspaceMembers := workspaceMembers db;
     pets := pets db;
     homeworkTasks := homeworkTasks db;
     homeworkSubmissions := homeworkSubmissions db;
     submissionMedia := submissionMedia db;
     trainerComments := rows |}.

(** The rows of [users], in the order of their keys. *)
Definition userRows (db : Db) : list User := snd <$> map_to_list (users db).

Definition getUserByEmail (db : Db) (email : string) : option User :=
  findFirst (λ u, user_email u = Some email) (userRows db).

Definition setRole (role : string) (u : User) : User :=
  {| user_id := user_id u;
     user_email := user_email u;
     user_firstName := user_firstName u;
     user_lastName := user_lastName u;
     user_profileImageUrl := user_profileImageUrl u;
     user_role := Some role;
     user_onboardingComplete := user_onboardingComplete u;
     user_updatedAt := user_updatedAt u |}.

(** [updateUserRole]: sets the role column only. *)
Definition updateUserRole (id role : string) (db : Db) : option User * Db :=
  (setRole role <$> getUser db id,
   setUsers (alter (setRole role) id (users db)) db).

Definition getPetsByOwner (db : Db) (ownerId : string) : list Pet :=
  orderByDesc pet_createdAt (filter (λ p, pet_ownerId p = ownerId) (pets db)).

Definition getPetsByTrainer (db : Db) (trainerId : string) : list Pet :=
  orderByDesc pet_createdAt
    (filter (λ p, pet_trainerId p = Some trainerId) (pets db)).

Definition getAllPets (db : Db) : list Pet := orderByDesc pet_createdAt (pets db).

(** [InsertPet], as the route fills it: the columns it leaves out are null. *)
Record InsertPet := {
  ip_name : string;
  ip_species : option string;
  ip_ownerId : string;
  ip_trainerId : option string;
  ip_workspaceId : option string;
  ip_imageUrl : option string
}.

(** The foreign keys of [pets]: the owner and the trainer are users, the
    workspace is a workspace. *)
Definition petReferences (db : Db) (ins : InsertPet) : Prop :=
  is_Some (users db !! ip_ownerId ins)
  ∧ (∀ t, ip_trainerId ins = Some t → is_Some (users db !! t))
  ∧ (∀ w, ip_workspaceId ins = Some w → Exists (λ x, ws_id x = w) (workspaces db)).

#[global] Instance petReferences_dec db ins : Decision (petReferences db ins).
Proof.
  unfold petReferences. apply and_dec; [apply _|]. apply and_dec.
  - destruct (ip_trainerId ins) as [t|].
    + destruct (decide (is_Some (users db !! t))) as [Hs|Hn].
      * left. by intros ? [= <-].
      * right. intros H. by apply Hn, H.
    + left. by intros ? [=].
  - destruct (ip_workspaceId ins) as [w|].
    + destruct (decide (Exists (λ x, ws_id x = w) (workspaces db))) as [Hs|Hn].
      * left. by intros ? [= <-].
      * right. intros H. by apply Hn, H.
    + left. by intros ? [=].
Defined.

(** [createPet]: the insert is refused (it throws) when a foreign key has no
    target. *)
Definition createPet (now : Z) (id : string) (ins : InsertPet) (db : Db)
    : option (Pet * Db) :=
  if decide (petReferences db ins) then
    let row :=
      {| pet_id := id;
         pet_name := ip_name ins;
         pet_species := ip_species ins;
         pet_breed := None;
         pet_age := None;
         pet_ownerPhone := None;
         pet_imageUrl := ip_imageUrl ins;
         pet_ownerId := ip_ownerId ins;
         pet_trainerId := ip_trainerId ins;
         pet_workspaceId := ip_workspaceId ins;
         pet_createdAt := now |} in
    Some (row, setPets (pets db ++ [row]) db)
  else None.

Definition setTrainer (trainerId : string) (p : Pet) : Pet :=
  {| pet_id := pet_id p;
     pet_name := pet_name p;
     pet_species := pet_species p;
     pet_breed := pet_breed p;
     pet_age := pet_age p;
     pet_ownerPhone := pet_ownerPhone p;
     pet_imageUrl := pet_imageUrl p;
     pet_ownerId := pet_ownerId p;
     pet_trainerId := Some trainerId;
     pet_workspaceId := pet_workspaceId p;
     pet_createdAt := pet_createdAt p |}.

Definition assignTrainer (petId trainerId : string) (db : Db)
    : option Pet * Db :=
  (setTrainer trainerId <$> getPet db petId,
   setPets (updateRows (λ p, pet_id p = petId) (setTrainer trainerId) (pets db)) db).

(** [Partial<Pick<Pet, ...>>]. *)
Record PetUpdates := {
  pu_name : option string;
  pu_species : option (option string);
  pu_breed : option (option string);
  pu_age : option (option string);
  pu_ownerPhone : option (option string);
  pu_imageUrl : option (option string)
}.

Definition setPet (updates : PetUpdates) (p : Pet) : Pet :=
  {| pet_id := pet_id p;
     pet_name := default (pet_name p) (pu_name updates);
     pet_species := default (pet_species p) (pu_species updates);
     pet_breed := default (pet_breed p) (pu_breed updates);
     pet_age := default (pet_age p) (pu_age updates);
     pet_ownerPhone := default (pet_ownerPhone p) (pu_ownerPhone updates);
     pet_imageUrl := default (pet_imageUrl p) (pu_imageUrl updates);
     pet_ownerId := pet_ownerId p;
     pet_trainerId := pet_trainerId p;
     pet_workspaceId := pet_workspaceId p;
     pet_createdAt := pet_createdAt p |}.

Definition updatePet (id : string) (updates : PetUpdates) (db : Db)
    : option Pet * Db :=
  (setPet updates <$> getPet db id,
   setPets (updateRows (λ p, pet_id p = id) (setPet updates) (pets db)) db).

(** [InsertHomeworkTask], as the route fills it. *)
Record InsertHomeworkTask := {
  it_petId : string;
  it_createdByTrainerId : string;
  it_title : string;
  it_instructions : string;
  it_frequency : string;
  it_expectedDurationMins : option Z;
  it_isActive : bool
}.

(** An [integer] column holds 32 bits: the database refuses a value outside
    this range, and the statement that carries it throws. *)
Definition int32 (z : Z) : Prop := -2147483648 ≤ z ≤ 2147483647.

#[global] Instance int32_dec z : Decision (int32 z).
Proof. unfold int32. apply _. Defined.

(** What the column [expected_duration_mins] takes: null, or 32 bits. *)
Definition storable (mins : option Z) : Prop :=
  match mins with
  | Some z => int32 z
  | None => True
  end.

#[global] Instance storable_dec mins : Decision (storable mins).
Proof. destruct mins; apply _. Defined.

(** [createTask]: the row gets its id and creation time on insertion; the
    insertion throws, writing nothing, when the duration does not fit its
    column. *)
Definition createTask (now : Z) (id : string) (ins : InsertHomeworkTask)
    (db : Db) : option (HomeworkTask * Db) :=
  let row :=
    {| task_id := id;
       task_petId := it_petId ins;
       task_createdByTrainerId := it_createdByTrainerId ins;
       task_title := it_title ins;
       task_instructions := it_instructions ins;
       task_frequency := it_frequency ins;
       task_expectedDurationMins := it_expectedDurationMins ins;
       task_isActive := it_isActive ins;
       task_preferredDays := None;
       task_createdAt := now |} in
  if decide (storable (it_expectedDurationMins ins))
  then Some (row, setTasks (homeworkTasks db ++ [row]) db)
  else None.

(** The fields [PATCH /api/tasks/:id] may set. *)
Record TaskUpdates := {
  tu_title : option string;
  tu_instructions : option string;
  tu_frequency : option string;
  tu_expectedDurationMins : option (option Z);
  tu_isActive : option bool
}.

Definition setTask (updates : TaskUpdates) (t : HomeworkTask) : HomeworkTask :=
  {| task_id := task_id t;
     task_petId := task_petId t;
     task_createdByTrainerId := task_createdByTrainerId t;
     task_title := default (task_title t) (tu_title updates);
     task_instructions := default (task_instructions t) (tu_instructions updates);
     task_frequency := default (task_frequency t) (tu_frequency updates);
     task_expectedDurationMins :=
       default (task_expectedDurationMins t) (tu_expectedDurationMins updates);
     task_isActive := default (task_isActive t) (tu_isActive updates);
     task_preferredDays := task_preferredDays t;
     task_createdAt := task_createdAt t |}.

(** [updateTask(id, updates)] with the fields of [PATCH /api/tasks/:id]: the
    update throws, writing nothing, when the duration it carries does not
    fit its column. *)
Definition updateTaskColumns (id : string) (updates : TaskUpdates) (db : Db)
    : option (option HomeworkTask * Db) :=
  if decide (storable (default None (tu_expectedDurationMins updates)))
  then Some (updateTask id (setTask updates) db)
  else None.

Definition createComment (now : Z) (id submissionId trainerId comment : string)
    (db : Db) : TrainerComment * Db :=
  let row :=
    {| tc_id := id;
       tc_submissionId := submissionId;
       tc_trainerId := trainerId;
       tc_comment := comment;
       tc_createdAt := now |} in
  (row, setComments (trainerComments db ++ [row]) db).

Definition getWorkspace (db : Db) (id : string) : option WorkspaceWithRelations :=
  withWorkspaceRelations db <$> findFirst (λ w, ws_id w = id) (workspaces db).

Definition getUserWorkspaces (db : Db) (userId : string) : list WorkspaceMember :=
  filter (λ m, wm_userId m = userId) (workspaceMembers db).

End MoreStorage.
Export MoreStorage.


(** ** The rest of server/routes.ts *)
Module MoreRoutes.

(** The [requireTrainer] middleware. *)
Definition requireTrainer {A B} (db : Db) (req : Request B)
    : Response A + User :=
  match getUserWithRole db req with
  | Some user =>
      if decide (user_role user = Some "TRAINER" ∨ user_role user = Some "ADMIN")
      then inr user
      else inl (fail 403 "Trainer role required")
  | None => inl (fail 403 "Trainer role required")
  end.

(** *** POST /api/auth/role *)
Definition setRoleHandler (req : Request (option string)) (db : Db)
    : Response User * Db :=
  match getUserId req with
  | None => (fail 401 "Not authenticated", db)
  | Some userId =>
      match req_body req with
      | Some role =>
          if decide (role ≠ "TRAINER" ∧ role ≠ "OWNER")
          then (fail 400 "Invalid role", db)
          else
            match updateUserRole userId role db with
            | (Some updatedUser, db) => (reply 200 updatedUser, db)
            | (None, db) => (fail 404 "User not found", db)
            end
      | None => (fail 400 "Invalid role", db)
      end
  end.

(** *** POST /api/workspaces/create *)
Definition trainerRole : UserUpdates :=
  {| upd_firstName := None;
     upd_lastName := None;
     upd_profileImageUrl := None;
     upd_role := Some (Some "TRAINER");
     upd_onboardingComplete := None |}.

Definition createWorkspaceHandler (env : Env) (req : Request unit) (db : Db)
    : Response (option WorkspaceWithRelations) * Db :=
  match getUserId req with
  | None => (fail 401 "Not authenticated", db)
  | Some userId =>
      match getWorkspaceByTrainer db userId with
      | Some existing => (reply 200 (Some existing), db)
      | None =>
          let inviteToken := env_inviteToken env in
          let '(workspace, db) :=
            createWorkspace (env_now env) (env_uuid env 0) userId inviteToken
              None None db in
          let db :=
            addWorkspaceMember (env_now env) (env_uuid env 1) (ws_id workspace)
              userId "TRAINER" db in
          let db := updateUser (env_now env) userId trainerRole db in
          let full := getWorkspace db (ws_id workspace) in
          (reply 201 full, db)
      end
  end.

(** *** GET /api/workspaces/invite *)
Record InviteResult := {
  ir_inviteToken : string;
  ir_workspaceId : string;
  ir_businessName : option string
}.

Definition getInvite (req : Request unit) (db : Db) : Response InviteResult * Db :=
  match getUserId req with
  | None => (fail 401 "Not authenticated", db)
  | Some userId =>
      match getWorkspaceByTrainer db userId with
      | None => (fail 404 "No workspace found", db)
      | Some workspace =>
          (reply 200
             {| ir_inviteToken := ws_inviteToken (wr_row workspace);
                ir_workspaceId := ws_id (wr_row workspace);
                ir_businessName := ws_businessName (wr_row workspace) |},
           db)
      end
  end.

(** *** GET /api/workspaces/my *)
Definition myWorkspaces (req : Request unit) (db : Db)
    : Response (list WorkspaceWithRelations) * Db :=
  match getUserId req with
  | None => (fail 401 "Not authenticated", db)
  | Some userId =>
      match getUser db userId with
      | None => (fail 404 "User not found", db)
      | Some user =>
          if decide (user_role user = Some "TRAINER")
          then
            match getWorkspaceByTrainer db userId with
            | Some workspace => (reply 200 [workspace], db)
            | None => (reply 200 [], db)
            end
          else
            let memberships := getUserWorkspaces db userId in
            let results :=
              foldl (λ results m,
                       match getWorkspace db (wm_workspaceId m) with
                       | Some ws => JS.push results ws
                       | None => results
                       end)
                    [] memberships in
            (reply 200 results, db)
      end
  end.

(** *** GET /api/pets *)
Definition listPets (req : Request unit) (db : Db) : Response (list Pet) * Db :=
  match getUserWithRole db req with
  | None => (fail 401 "User not found", db)
  | Some user =>
      let pets :=
        if decide (user_role user = Some "ADMIN") then getAllPets db
        else if decide (user_role user = Some "TRAINER")
        then getPetsByTrainer db (user_id user)
        else getPetsByOwner db (user_id user) in
      (reply 200 pets, db)
  end.

(** *** GET /api/pets/:id *)
Definition getPetHandler (req : Request unit) (db : Db) : Response Pet * Db :=
  match getPet db (req_param req) with
  | None => (fail 404 "Pet not found", db)
  | Some pet =>
      let hasAccess :=
        match getUserWithRole db req with
        | Some user =>
            bool_decide (user_role user = Some "ADMIN"
                         ∨ pet_ownerId pet = user_id user
                         ∨ pet_trainerId pet = Some (user_id user))
        | None => false
        end in
      if negb hasAccess then (fail 403 "Access denied", db)
      else (reply 200 pet, db)
  end.

(** *** POST /api/pets *)
Record CreatePetBody := {
  cp_name : string;
  cp_species : option string;
  cp_trainerEmail : option string;
  cp_workspaceId : option string
}.

(** The trainer and the workspace of the new pet: through the workspace
    named in the body, else through the email of a trainer, else through the
    first membership of the owner; or the 400 the route answers. *)
Definition resolveTrainer {A} (db : Db) (user : User) (b : CreatePetBody)
    : Response A + (option string * option string) :=
  let trainerId : option string := None in
  let resolvedWorkspaceId := JS.orNull (cp_workspaceId b) in
  match JS.orNull (cp_workspaceId b) with
  | Some workspaceId =>
      match getWorkspace db workspaceId with
      | Some workspace =>
          inr (Some (ws_trainerUserId (wr_row workspace)), resolvedWorkspaceId)
      | None => inr (trainerId, resolvedWorkspaceId)
      end
  | None =>
      match JS.orNull (cp_trainerEmail b) with
      | Some trainerEmail =>
          match getUserByEmail db trainerEmail with
          | None => inl (fail 400 "No user found with that email address")
          | Some trainer =>
              if decide (user_role trainer ≠ Some "TRAINER")
              then inl (fail 400 "The specified user is not a trainer")
              else
                match getWorkspaceByTrainer db (user_id trainer) with
                | Some trainerWorkspace =>
                    inr (Some (user_id trainer),
                         Some (ws_id (wr_row trainerWorkspace)))
                | None => inr (Some (user_id trainer), resolvedWorkspaceId)
                end
          end
      | None =>
          let memberships := getUserWorkspaces db (user_id user) in
          match findFirst (λ m, wm_role m = "OWNER") memberships with
          | Some ownerMembership =>
              match getWorkspace db (wm_workspaceId ownerMembership) with
              | Some workspace =>
                  inr (Some (ws_trainerUserId (wr_row workspace)),
                       Some (wm_workspaceId ownerMembership))
              | None => inr (trainerId, Some (wm_workspaceId ownerMembership))
              end
          | None => inr (trainerId, resolvedWorkspaceId)
          end
      end
  end.

Definition onboardingDone : UserUpdates :=
  {| upd_firstName := None;
     upd_lastName := None;
     upd_profileImageUrl := None;
     upd_role := None;
     upd_onboardingComplete := Some true |}.

Definition createPetHandler (env : Env) (req : Request CreatePetBody) (db : Db)
    : Response Pet * Db :=
  match requireOwner db req with
  | inl forbidden => (forbidden, db)
  | inr user =>
      let b := req_body req in
      match resolveTrainer db user b with
      | inl invalid => (invalid, db)
      | inr (trainerId, resolvedWorkspaceId) =>
          match createPet (env_now env) (env_uuid env 0)
                  {| ip_name := cp_name b;
                     ip_species := JS.orNull (cp_species b);
                     ip_ownerId := user_id user;
                     ip_trainerId := trainerId;
                     ip_workspaceId := resolvedWorkspaceId;
                     ip_imageUrl := None |} db with
          | None => (fail 500 "Failed to create pet", db)
          | Some (pet, db) =>
              let db :=
                if negb (user_onboardingComplete user)
                then updateUser (env_now env) (user_id user) onboardingDone db
                else db in
              (reply 201 pet, db)
          end
      end
  end.

(** *** POST /api/pets/:id/trainer *)
Definition assignTrainerHandler (req : Request string) (db : Db)
    : Response (option Pet) * Db :=
  match requireOwner db req with
  | inl forbidden => (forbidden, db)
  | inr user =>
      match getPet db (req_param req) with
      | None => (fail 404 "Pet not found", db)
      | Some pet =>
          if decide (pet_ownerId pet ≠ user_id user)
          then (fail 403 "You don't own this pet", db)
          else
            let trainerEmail := req_body req in
            match getUserByEmail db trainerEmail with
            | None => (fail 400 "No user found with that email address", db)
            | Some trainer =>
                if decide (user_role trainer ≠ Some "TRAINER")
                then (fail 400 "The specified user is not a trainer", db)
                else
                  let '(updatedPet, db) :=
                    assignTrainer (pet_id pet) (user_id trainer) db in
                  (reply 200 updatedPet, db)
            end
      end
  end.

End MoreRoutes.
Export MoreRoutes.


(** More of server/routes.ts: tasks, comments and the timeline. *)
Module MoreTaskRoutes.

(** *** PATCH /api/pets/:id *)

(** [.set(updates)] with no column to set: what the query builder does with
    an empty update is not in these sources, and such a request is given no
    outcome here. *)
Definition noPetColumn (updates : PetUpdates) : bool :=
  match pu_name updates, pu_species updates, pu_breed updates, pu_age updates,
        pu_ownerPhone updates, pu_imageUrl updates with
  | None, None, None, None, None, None => true
  | _, _, _, _, _, _ => false
  end.

Definition updatePetHandler (req : Request PetUpdates) (db : Db)
    : option (Response (option Pet) * Db) :=
  match getUserWithRole db req with
  | None => Some (fail 401 "Not authenticated", db)
  | Some user =>
      match getPet db (req_param req) with
      | None => Some (fail 404 "Pet not found", db)
      | Some pet =>
          if decide (pet_ownerId pet ≠ user_id user ∧ user_role user ≠ Some "ADMIN")
          then Some (fail 403 "Only the pet owner can edit pet details", db)
          else
            let updates := req_body req in
            if noPetColumn updates then None
            else
              let '(updatedPet, db) := updatePet (req_param req) updates db in
              Some (reply 200 updatedPet, db)
      end
  end.

(** *** GET /api/tasks/:petId *)
Definition listTasks (req : Request unit) (db : Db)
    : Response (list HomeworkTask) * Db :=
  let petId := req_param req in
  if decide (petId = "") then (fail 400 "petId is required", db)
  else
    match getPet db petId with
    | None => (fail 404 "Pet not found", db)
    | Some pet =>
        match getUserWithRole db req with
        | Some user =>
            if decide (pet_ownerId pet ≠ user_id user
                       ∧ pet_trainerId pet ≠ Some (user_id user)
                       ∧ user_role user ≠ Some "ADMIN")
            then (fail 403 "Access denied", db)
            else (reply 200 (getTasksByPet db petId), db)
        | None => (fail 403 "Access denied", db)
        end
    end.

(** *** POST /api/tasks *)
Record CreateTaskBody := {
  ct_petId : string;
  ct_title : string;
  ct_instructions : string;
  ct_frequency : string;
  ct_expectedDurationMins : option Z
}.

(** [expectedDurationMins || null]: zero is falsy. *)
Definition durationOrNull (mins : option Z) : option Z :=
  match mins with
  | Some 0 => None
  | _ => mins
  end.

Definition createTaskHandler (env : Env) (req : Request CreateTaskBody) (db : Db)
    : Response HomeworkTask * Db :=
  match requireTrainer db req with
  | inl forbidden => (forbidden, db)
  | inr user =>
      let b := req_body req in
      match getPet db (ct_petId b) with
      | None => (fail 404 "Pet not found", db)
      | Some pet =>
          if decide (pet_trainerId pet ≠ Some (user_id user)
                     ∧ user_role user ≠ Some "ADMIN")
          then (fail 403 "You're not assigned to this pet", db)
          else
            match
              createTask (env_now env) (env_uuid env 0)
                {| it_petId := ct_petId b;
                   it_createdByTrainerId := user_id user;
                   it_title := ct_title b;
                   it_instructions := ct_instructions b;
                   it_frequency := ct_frequency b;
                   it_expectedDurationMins :=
                     durationOrNull (ct_expectedDurationMins b);
                   it_isActive := true |} db
            with
            | Some (task, db) => (reply 201 task, db)
            | None => (fail 500 "Failed to create task", db)
            end
      end
  end.

(** *** PATCH /api/tasks/:id *)
Definition noTaskColumn (updates : TaskUpdates) : bool :=
  match tu_title updates, tu_instructions updates, tu_frequency updates,
        tu_expectedDurationMins updates, tu_isActive updates with
  | None, None, None, None, None => true
  | _, _, _, _, _ => false
  end.

(** As for pets, a request that names no field is given no outcome. *)
Definition updateTaskHandler (req : Request TaskUpdates) (db : Db)
    : option (Response (option HomeworkTask) * Db) :=
  match requireTrainer db req with
  | inl forbidden => Some (forbidden, db)
  | inr user =>
      match getTask db (req_param req) with
      | None => Some (fail 404 "Task not found", db)
      | Some task =>
          let allowed :=
            match getPet db (task_petId task) with
            | Some pet =>
                negb (bool_decide (pet_trainerId pet ≠ Some (user_id user)
                                   ∧ user_role user ≠ Some "ADMIN"))
            | None => false
            end in
          if negb allowed
          then Some (fail 403 "You're not assigned to this pet", db)
          else
            let updates := req_body req in
            if noTaskColumn updates then None
            else
              match updateTaskColumns (req_param req) updates db with
              | Some (updatedTask, db) => Some (reply 200 updatedTask, db)
              | None => Some (fail 500 "Failed to update task", db)
              end
      end
  end.

(** *** POST /api/submissions/:id/comment *)

(** The [comment_media] table, which [Db] leaves out, beside the database. *)
Record CommentMedia := {
  cm_id : string;
  cm_commentId : string;
  cm_mediaType : string;
  cm_filePath : string;
  cm_fileName : option string;
  cm_createdAt : Z
}.

Record Store := {
  store_db : Db;
  store_commentMedia : list CommentMedia
}.

(** The file part of a multipart request, as multer describes it: the name
    its disk storage draws for it, its type and name as the request gives
    them, and its size in bytes. *)
Record UploadedFile := {
  file_filename : string;
  file_mimetype : string;
  file_originalname : string;
  file_size : Z
}.

(** [allowedTypes] of the [fileFilter]. *)
Definition allowedTypes : list string :=
  ["image/jpeg"; "image/png"; "image/gif"; "image/webp";
   "video/mp4"; "video/webm"; "video/quicktime"].

(** [limits.fileSize]. *)
Definition fileSizeLimit : Z := 50 * 1024 * 1024.

(** multer holds the bytes of a file against [limits.fileSize]: a file
    below the limit passes and a file above it does not; a file of exactly
    the limit is for multer to decide. *)
Class Multer := {
  withinLimit : Z → bool;
  withinLimit_below : ∀ size, size < fileSizeLimit → withinLimit size = true;
  withinLimit_above : ∀ size, fileSizeLimit < size → withinLimit size = false
}.

(** A multer that lets a file of exactly the limit pass. *)
Definition inclusive : Multer.
Proof.
  refine {| withinLimit := λ size, bool_decide (size ≤ fileSizeLimit) |}.
  - intros size Hsize. apply bool_decide_eq_true. lia.
  - intros size Hsize. apply bool_decide_eq_false. lia.
Defined.

(** [upload.single("file")]: what the handler finds in [req.file], or [None]
    when the middleware refuses the upload (a type that is not allowed, a
    file over the limit). It then passes an error on: the handler does not
    run, nothing is written, and the answer is that of the error handling of
    Express, which is not among the sources. *)
Definition single `{Multer} (file : option UploadedFile)
    : option (option UploadedFile) :=
  match file with
  | None => Some None
  | Some f =>
      if bool_decide (file_mimetype f ∈ allowedTypes) && withinLimit (file_size f)
      then Some (Some f)
      else None
  end.

(** [s.startsWith(p)]. *)
Fixpoint startsWith (p s : string) : bool :=
  match p, s with
  | EmptyString, _ => true
  | String a p', String b s' => bool_decide (a = b) && startsWith p' s'
  | String _ _, EmptyString => false
  end.

Definition mediaTypeOf (file : UploadedFile) : string :=
  if startsWith "video/" (file_mimetype file) then "VIDEO" else "IMAGE".

(** The body: [comment] is [None] unless it is a string; [cr_file] is the
    file part of the request. *)
Record CommentRequest := {
  cr_comment : option string;
  cr_file : option UploadedFile
}.

(** The handler, behind [upload.single("file")]: [file] is [req.file]. *)
Definition commentHandler (env : Env) (user : User)
    (file : option UploadedFile) (req : Request CommentRequest)
    (st : Store) : Response (option HomeworkSubmissionWithRelations) * Store :=
  let db := store_db st in
  match getSubmission db (req_param req) with
  | None => (fail 404 "Submission not found", st)
  | Some submission =>
      match getTask db (sub_taskId (sr_row submission)) with
      | None => (fail 404 "Task not found", st)
      | Some task =>
          let allowed :=
            match getPet db (task_petId task) with
            | Some pet =>
                negb (bool_decide (pet_trainerId pet ≠ Some (user_id user)
                                   ∧ user_role user ≠ Some "ADMIN"))
            | None => false
            end in
          if negb allowed
          then (fail 403 "You're not assigned to this pet", st)
          else
            match JS.orNull (cr_comment (req_body req)) with
            | None => (fail 400 "Comment is required", st)
            | Some comment =>
                let '(newComment, db) :=
                  createComment (env_now env) (env_uuid env 0)
                    (sub_id (sr_row submission)) (user_id user) comment db in
                let media :=
                  match file with
                  | Some file =>
                      store_commentMedia st
                      ++ [{| cm_id := env_uuid env 1;
                             cm_commentId := tc_id newComment;
                             cm_mediaType := mediaTypeOf file;
                             cm_filePath := "/uploads/" +:+ file_filename file;
                             cm_fileName := Some (file_originalname file);
                             cm_createdAt := env_now env |}]
                  | None => store_commentMedia st
                  end in
                let updatedSubmission :=
                  getSubmission db (sub_id (sr_row submission)) in
                (reply 201 updatedSubmission,
                 {| store_db := db; store_commentMedia := media |})
            end
      end
  end.

(** The route: [requireTrainer], then [upload.single("file")], then the
    handler. [None] is an upload that multer refused. *)
Definition createCommentHandler `{Multer} (env : Env)
    (req : Request CommentRequest) (st : Store)
    : option (Response (option HomeworkSubmissionWithRelations) * Store) :=
  match requireTrainer (store_db st) req with
  | inl forbidden => Some (forbidden, st)
  | inr user =>
      file ← single (cr_file (req_body req));
      Some (commentHandler env user file req st)
  end.

(** *** GET /api/timeline/:petId *)
Definition timelineHandler (req : Request unit) (db : Db)
    : Response (list TimelineItem) * Db :=
  match getPet db (req_param req) with
  | None => (fail 404 "Pet not found", db)
  | Some pet =>
      match getUserWithRole db req with
      | Some user =>
          if decide (pet_ownerId pet ≠ user_id user
                     ∧ pet_trainerId pet ≠ Some (user_id user)
                     ∧ user_role user ≠ Some "ADMIN")
          then (fail 403 "Access denied", db)
          else (reply 200 (getTimeline db (pet_id pet)), db)
      | None => (fail 403 "Access denied", db)
      end
  end.

End MoreTaskRoutes.
Export MoreTaskRoutes.


(** ** client/src/App.tsx and the rest of client/src/pages/pet-detail.tsx *)
Module Client.

(** *** [AuthenticatedRoutes] *)
Inductive Screen :=
| LoadingScreen | Landing | Join | TrainerSetup | AddPet | Dashboard | PetDetail
| NotFound.

(** A [Switch] renders the first [Route] whose path matches the location; a
    [Route] without a path matches every location. How a path pattern is
    matched is the router library's business. *)
Fixpoint switch (matches : string → string → bool)
    (routes : list (option string * Screen)) (location : string)
    : option Screen :=
  match routes with
  | [] => None
  | (None, screen) :: _ => Some screen
  | (Some path, screen) :: rest =>
      if matches path location then Some screen
      else switch matches rest location
  end.

Definition publicRoutes : list (option string * Screen) :=
  [(Some "/join", Join); (None, Landing)].

Definition ownerOnboardingRoutes : list (option string * Screen) :=
  [(Some "/pets/new", AddPet); (None, AddPet)].

Definition appRoutes : list (option string * Screen) :=
  [(Some "/", Dashboard); (Some "/dashboard", Dashboard);
   (Some "/pets/new", AddPet); (Some "/pets/:id", PetDetail);
   (Some "/join", Join); (None, NotFound)].

Definition AuthenticatedRoutes (matches : string → string → bool)
    (isLoading : bool) (user : option User) (location : string)
    : option Screen :=
  if isLoading then Some LoadingScreen
  else
    match user with
    | None => switch matches publicRoutes location
    | Some user =>
        let noRole := bool_decide (JS.orNull (user_role user) = None) in
        if noRole && negb (user_onboardingComplete user) then Some TrainerSetup
        else if bool_decide (user_role user = Some "TRAINER")
                && negb (user_onboardingComplete user)
        then Some TrainerSetup
        else if bool_decide (user_role user = Some "OWNER")
                && negb (user_onboardingComplete user)
        then switch matches ownerOnboardingRoutes location
        else switch matches appRoutes location
    end.

(** *** [PreferredDaysSelector] *)
Definition ALL_DAYS : list string :=
  ["Mon"; "Tue"; "Wed"; "Thu"; "Fri"; "Sat"; "Sun"].

(** [l.indexOf(x)]. *)
Definition indexOf (l : list string) (x : string) : Z :=
  match list_find (λ y, y = x) l with
  | Some (i, _) => Z.of_nat i
  | None => -1
  end.

(** [task.preferredDays || []]. *)
Definition selectedDays (t : HomeworkTask) : list string :=
  default [] (task_preferredDays t).

(** The list [toggleDay] hands to the mutation. *)
Definition toggleDay (selectedDays : list string) (day : string) : list string :=
  let current := selectedDays in
  let idx := indexOf current day in
  if decide (idx >= 0) then delete (Z.to_nat idx) current
  else JS.push current day.

(** The body of the PATCH request the mutation sends. *)
Definition preferredDaysBody (days : list string) : JS.json :=
  if decide (0 < length days)%nat then JS.JArray (JS.JString <$> days)
  else JS.JNull.

(** *** [ProgressView] *)
Definition submissionsByTask (tasks : list HomeworkTask)
    (submissions : list HomeworkSubmissionWithRelations)
    : list (HomeworkTask * list HomeworkSubmissionWithRelations) :=
  (λ t,
     (t,
      JS.sort (λ a b, sub_submittedAt (sr_row a) - sub_submittedAt (sr_row b))
        (filter (λ s, sub_taskId (sr_row s) = task_id t) submissions)))
  <$> tasks.

(** *** [PetDetail] *)

(** [timeline.filter((t) => t.type === "submission").map((t) => t.data)]:
    the data of an entry of that type is a submission. *)
Definition submissionsOf (timeline : list TimelineItem)
    : list HomeworkSubmissionWithRelations :=
  omap (λ t, match type t, data t with
             | TypeSubmission, SubmissionData s => Some s
             | _, _ => None
             end)
       timeline.

Definition activeTasks (tasks : list HomeworkTask) : list HomeworkTask :=
  filter (λ t, task_isActive t = true) tasks.

Definition closedTasks (tasks : list HomeworkTask) : list HomeworkTask :=
  filter (λ t, task_isActive t = false) tasks.

(** The date-fns functions the grouping calls, with Monday as the first day
    of a week; [isThisWeek] reads the clock. *)
Class WeekFns := {
  startOfWeek : Z → Z;
  endOfWeek : Z → Z;
  isThisWeek : Z → bool;
  format : Z → string
}.

Section Grouping.
Context `{WeekFns}.

Definition groupKey (item : TimelineItem) : string :=
  let date := date item in
  let weekStart := startOfWeek date in
  let weekEnd := endOfWeek date in
  if isThisWeek date
  then "This Week (" +:+ format weekStart +:+ " - " +:+ format weekEnd +:+ ")"
  else "Week of " +:+ format weekStart +:+ " - " +:+ format weekEnd.

(** The [groups] object: its keys in the order they were added. One step of
    the reduction adds the item to the group of its key, which it creates
    when there is none. *)
Fixpoint pushGroup (groupKey : string) (item : TimelineItem)
    (groups : list (string * list TimelineItem))
    : list (string * list TimelineItem) :=
  match groups with
  | [] => [(groupKey, JS.push [] item)]
  | (k, items) :: rest =>
      if decide (k = groupKey) then (k, JS.push items item) :: rest
      else (k, items) :: pushGroup groupKey item rest
  end.

Definition groupedTimeline (timeline : list TimelineItem)
    : list (string * list TimelineItem) :=
  foldl (λ groups item, pushGroup (groupKey item) item groups) [] timeline.
End Grouping.

(** The day of the month and the month (0 is March) of a day counted from
    1 March 2000: the days of the 400 years of a cycle, then those of the
    year that begins in March. *)
Definition monthAndDay (days : Z) : Z * Z :=
  let dayOfEra := days `mod` 146097 in
  let yearOfEra :=
    (dayOfEra - dayOfEra `div` 1460 + dayOfEra `div` 36524
     - dayOfEra `div` 146096) `div` 365 in
  let dayOfYear :=
    dayOfEra
    - (365 * yearOfEra + yearOfEra `div` 4 - yearOfEra `div` 100) in
  let month := (5 * dayOfYear + 2) `div` 153 in
  (month, dayOfYear - (153 * month + 2) `div` 5 + 1).

Definition monthNames : list string :=
  ["Mar"; "Apr"; "May"; "Jun"; "Jul"; "Aug"; "Sep"; "Oct"; "Nov"; "Dec";
   "Jan"; "Feb"].

(** The functions in UTC, at the clock reading [now]: weeks begin on Monday
    (1 January 1970 was a Thursday), and [format] is [format(d, "MMM d")];
    1 March 2000 was day 11017. *)
Definition utcWeeks (now : Z) : WeekFns :=
  let monday (d : Z) :=
    let days := d `div` msPerDay in (days - (days + 3) `mod` 7) * msPerDay in
  {| startOfWeek := monday;
     endOfWeek := λ d, monday d + 7 * msPerDay - 1;
     isThisWeek := λ d, bool_decide (monday d = monday now);
     format := λ d,
       let '(month, day) := monthAndDay (d `div` msPerDay - 11017) in
       default "" (monthNames !! Z.to_nat month) +:+ " " +:+ pretty day |}.

End Client.
Export Client.


(** ** Invariants of the workspace tables *)
Module Invariants.

(** A trainer has at most one workspace. *)
Definition oneWorkspacePerTrainer (db : Db) : Prop :=
  ∀ trainerId, (length (trainerWorkspaces db trainerId) ≤ 1)%nat.

(** The trainer of a workspace is a member of it, with role TRAINER. *)
Definition trainersAreMembers (db : Db) : Prop :=
  ∀ w, w ∈ workspaces db →
    ∃ m, m ∈ workspaceMembers db
         ∧ wm_workspaceId m = ws_id w
         ∧ wm_userId m = ws_trainerUserId w
         ∧ wm_role m = "TRAINER".

(** A (workspace, user) pair has at most one membership row. *)
Definition oneMembershipPerPair (db : Db) : Prop :=
  ∀ workspaceId userId, (memberCount db workspaceId userId ≤ 1)%nat.

(** The tables a join does not write. *)
Definition sameRecords (db db' : Db) : Prop :=
  workspaces db' = workspaces db
  ∧ pets db' = pets db
  ∧ homeworkTasks db' = homeworkTasks db
  ∧ homeworkSubmissions db' = homeworkSubmissions db
  ∧ submissionMedia db' = submissionMedia db
  ∧ trainerComments db' = trainerComments db.

(** What one request does to the workspaces and their members: nothing; or
    a first workspace for a trainer, with the trainer as its member; or new
    profile fields for the rows of one id; or a first membership for a
    (workspace, user) pair. *)
Definition workspaceStep (env : Env) (db db' : Db) : Prop :=
  (workspaces db' = workspaces db ∧ workspaceMembers db' = workspaceMembers db)
  ∨ (∃ w m,
       trainerWorkspaces db (ws_trainerUserId w) = []
       ∧ ws_id w = env_uuid env 0
       ∧ ws_inviteToken w = env_inviteToken env
       ∧ wm_workspaceId m = ws_id w
       ∧ wm_userId m = ws_trainerUserId w
       ∧ wm_role m = "TRAINER"
       ∧ workspaces db' = workspaces db ++ [w]
       ∧ workspaceMembers db' = workspaceMembers db ++ [m])
  ∨ (∃ id businessName bio,
       workspaces db'
       = updateRows (λ w, ws_id w = id) (setProfile businessName bio)
           (workspaces db)
       ∧ workspaceMembers db' = workspaceMembers db)
  ∨ (∃ m,
       memberCount db (wm_workspaceId m) (wm_userId m) = 0%nat
       ∧ workspaces db' = workspaces db
       ∧ workspaceMembers db' = workspaceMembers db ++ [m]).

(** The key of a row of [users] is its id. *)
Definition usersKeyed (db : Db) : Prop :=
  ∀ id u, users db !! id = Some u → user_id u = id.

(** The pets a user is shown: all of them for an admin, those they train
    for a trainer, those they own for anyone else. *)
Definition visibleTo (user : User) (p : Pet) : Prop :=
  user_role user = Some "ADMIN"
  ∨ (user_role user = Some "TRAINER" ∧ pet_trainerId p = Some (user_id user))
  ∨ (user_role user ≠ Some "TRAINER" ∧ pet_ownerId p = user_id user).

#[global] Instance visibleTo_dec user p : Decision (visibleTo user p).
Proof. unfold visibleTo. apply _. Defined.

(** Where the trainer of a new pet comes from: the workspace the pet is put
    in, or a user with role TRAINER. *)
Definition trainerSource (db : Db) (p : Pet) (trainerId : string) : Prop :=
  (∃ w, w ∈ workspaces db
        ∧ ws_trainerUserId w = trainerId
        ∧ pet_workspaceId p = Some (ws_id w))
  ∨ (∃ u, u ∈ userRows db
          ∧ user_role u = Some "TRAINER"
          ∧ user_id u = trainerId).

(** Who may read a pet, its tasks and its timeline: an admin, its owner and
    its trainer. *)
Definition mayRead (user : option User) (p : Pet) : Prop :=
  ∃ u, user = Some u
       ∧ (user_role u = Some "ADMIN"
          ∨ pet_ownerId p = user_id u
          ∨ pet_trainerId p = Some (user_id u)).

(** The columns of a pet that say whose it is. *)
Definition ownership (p : Pet) : string * string * option string * option string :=
  (pet_id p, pet_ownerId p, pet_trainerId p, pet_workspaceId p).

End Invariants.
Export Invariants.


(** ** server/routes.ts: the media of a task *)
Module TaskMediaRoutes.

(** The [task_media] table, which [Db] leaves out, beside the database. *)
Record TaskMedia := {
  tm_id : string;
  tm_taskId : string;
  tm_mediaType : string;
  tm_filePath : string;
  tm_fileName : option string;
  tm_createdAt : Z
}.

Record MediaStore := {
  ms_db : Db;
  ms_taskMedia : list TaskMedia
}.

(** [createTaskMedia]: the row gets its id and creation time on insertion. *)
Definition createTaskMedia (now : Z) (id taskId mediaType filePath : string)
    (fileName : option string) (st : MediaStore) : TaskMedia * MediaStore :=
  let row :=
    {| tm_id := id;
       tm_taskId := taskId;
       tm_mediaType := mediaType;
       tm_filePath := filePath;
       tm_fileName := fileName;
       tm_createdAt := now |} in
  (row, {| ms_db := ms_db st; ms_taskMedia := ms_taskMedia st ++ [row] |}).

Definition getTaskMedia (st : MediaStore) (taskId : string) : list TaskMedia :=
  filter (λ m, tm_taskId m = taskId) (ms_taskMedia st).

Definition deleteTaskMedia (id : string) (st : MediaStore) : MediaStore :=
  {| ms_db := ms_db st;
     ms_taskMedia := filter (λ m, tm_id m ≠ id) (ms_taskMedia st) |}.

(** *** GET /api/tasks/:taskId/media *)
Definition listTaskMedia (req : Request unit) (st : MediaStore)
    : Response (list TaskMedia) * MediaStore :=
  match getTask (ms_db st) (req_param req) with
  | None => (fail 404 "Task not found", st)
  | Some task => (reply 200 (getTaskMedia st (req_param req)), st)
  end.

(** The check both writing routes make: the requester trains the pet of the
    task, or is an admin. *)
Definition assignedTo (db : Db) (user : User) (task : HomeworkTask) : bool :=
  match getPet db (task_petId task) with
  | Some pet =>
      negb (bool_decide (pet_trainerId pet ≠ Some (user_id user)
                         ∧ user_role user ≠ Some "ADMIN"))
  | None => false
  end.

(** *** POST /api/tasks/:taskId/media

    The body of the request is its file part. The handler runs behind
    [requireTrainer] and [upload.single("file")]; [None] is an upload that
    multer refused. *)
Definition uploadTaskMedia `{Multer} (env : Env)
    (req : Request (option UploadedFile)) (st : MediaStore)
    : option (Response TaskMedia * MediaStore) :=
  let db := ms_db st in
  match requireTrainer db req with
  | inl forbidden => Some (forbidden, st)
  | inr user =>
      file ← single (req_body req);
      Some
        match getTask db (req_param req) with
        | None => (fail 404 "Task not found", st)
        | Some task =>
            if negb (assignedTo db user task)
            then (fail 403 "You're not assigned to this pet", st)
            else
              match file with
              | None => (fail 400 "No file uploaded", st)
              | Some file =>
                  let filePath := "/uploads/" +:+ file_filename file in
                  let mediaType := mediaTypeOf file in
                  let '(media, st) :=
                    createTaskMedia (env_now env) (env_uuid env 0) (task_id task)
                      mediaType filePath (Some (file_originalname file)) st in
                  (reply 201 media, st)
              end
        end
  end.

(** *** DELETE /api/tasks/:taskId/media/:mediaId

    [req_param] is the [taskId] of the path and [mediaId] its second
    parameter; the answer [{ success: true }] is [()]. *)
Definition deleteTaskMediaHandler (mediaId : string) (req : Request unit)
    (st : MediaStore) : Response unit * MediaStore :=
  let db := ms_db st in
  match requireTrainer db req with
  | inl forbidden => (forbidden, st)
  | inr user =>
      match getTask db (req_param req) with
      | None => (fail 404 "Task not found", st)
      | Some task =>
          if negb (assignedTo db user task)
          then (fail 403 "You're not assigned to this pet", st)
          else (reply 200 (), deleteTaskMedia mediaId st)
      end
  end.

End TaskMediaRoutes.
Export TaskMediaRoutes.

(** ** Files for the upload routes *)
Module UploadDemo.

(** A video of 3 MB, a PDF, and a video of one byte more than 50 MiB. *)
Definition clip : UploadedFile :=
  {| file_filename := "1700000000000-42.mp4"; file_mimetype := "video/mp4";
     file_originalname := "sit.mp4"; file_size := 3000000 |}.

Definition leaflet : UploadedFile :=
  {| file_filename := "1700000000000-43.pdf";
     file_mimetype := "application/pdf";
     file_originalname := "leaflet.pdf"; file_size := 20000 |}.

Definition film : UploadedFile :=
  {| file_filename := "1700000000000-44.mp4"; file_mimetype := "video/mp4";
     file_originalname := "walk.mp4"; file_size := fileSizeLimit + 1 |}.

End UploadDemo.

(** ** server/migrate.ts: [migrateToWorkspaces] *)
Module Migration.






(** [or(eq(users.role, "TRAINER"), eq(users.role, "ADMIN"))]. *)
Definition trainerOrAdmin (u : User) : Prop :=
  user_role u = Some "TRAINER" ∨ user_role u = Some "ADMIN".

#[global] Instance trainerOrAdmin_dec u : Decision (trainerOrAdmin u).
Proof. unfold trainerOrAdmin. apply _. Defined.






End Migration.
Export Migration.

(** The demo data before there were workspaces. *)
Module MigrationDemo.



End MigrationDemo.

(** * Properties *)

(** ** [Array.prototype.sort] *)
Section sort_facts.
Context {A : Type} (cmp : A → A → Z).

Lemma insertBy_Permutation x l : JS.insertBy cmp x l ≡ₚ x :: l.
Proof.
  induction l as [|y l IH]; simpl; [done|].
  case_match; [done|]. rewrite IH. apply Permutation_swap.
Qed.

Lemma sort_Permutation l : JS.sort cmp l ≡ₚ l.
Proof.
  induction l as [|x l IH]; simpl; [done|].
  by rewrite insertBy_Permutation, IH.
Qed.

Lemma length_sort l : length (JS.sort cmp l) = length l.
Proof. by rewrite sort_Permutation. Qed.

(** A comparator that orders by a key, largest key first. *)
Variable key : A → Z.
Hypothesis cmp_key : ∀ a b, cmp a b = key b - key a.

Let after (a b : A) : Prop := key b ≤ key a.

Lemma insertBy_Sorted x l : Sorted after l → Sorted after (JS.insertBy cmp x l).
Proof.
  induction 1 as [|y l Hl IH Hhd]; simpl.
  - repeat constructor.
  - rewrite cmp_key. destruct (Z.leb_spec (key y - key x) 0) as [Hle|Hgt].
    + constructor; [by constructor|]. constructor. unfold after. lia.
    + constructor; [done|].
      destruct Hhd as [|z l' Hz]; simpl.
      * constructor. unfold after. lia.
      * rewrite cmp_key. case_match; constructor; unfold after in *; lia.
Qed.

Lemma sort_Sorted l : Sorted after (JS.sort cmp l).
Proof.
  induction l as [|x l IH]; simpl; [constructor|]. by apply insertBy_Sorted.
Qed.

Lemma sort_StronglySorted l : StronglySorted after (JS.sort cmp l).
Proof.
  apply Sorted_StronglySorted; [|apply sort_Sorted].
  intros a b c. unfold after. lia.
Qed.
End sort_facts.

Lemma orderByDesc_Permutation {A} (column : A → Z) rows :
  orderByDesc column rows ≡ₚ rows.
Proof. apply sort_Permutation. Qed.

(** ** Loops that push onto an array *)
Lemma foldl_push {A B} (f : B → A) (l : list B) (acc : list A) :
  foldl (λ items x, JS.push items (f x)) acc l = acc ++ (f <$> l).
Proof.
  revert acc. induction l as [|x l IH]; intros acc; simpl.
  - by rewrite app_nil_r.
  - rewrite IH. unfold JS.push. by rewrite <- app_assoc.
Qed.

Lemma pushSubmission_entries items s :
  pushSubmission items s = items ++ entriesOf s.
Proof.
  unfold pushSubmission, entriesOf. destruct (sr_comments s) as [cs|]; simpl.
  - rewrite foldl_push. unfold JS.push. by rewrite <- app_assoc.
  - done.
Qed.

Lemma foldl_pushSubmission subs items :
  foldl pushSubmission items subs = items ++ (subs ≫= entriesOf).
Proof.
  revert items. induction subs as [|s subs IH]; intros items.
  - simpl. by rewrite app_nil_r.
  - rewrite bind_cons. cbn [foldl].
    rewrite IH, pushSubmission_entries. by rewrite <- app_assoc.
Qed.

(** The array [getTimeline] sorts. *)
Lemma getTimeline_unfold db petId :
  getTimeline db petId =
  JS.sort (λ a b, date b - date a)
    ((taskEntry <$> getTasksByPet db petId)
     ++ (getSubmissionsByPet db petId ≫= entriesOf)).
Proof.
  unfold getTimeline. by rewrite foldl_pushSubmission, foldl_push.
Qed.

(** ** Counting rows through a foreign key *)
Lemma bind_cons_Permutation {A B} (f : A → B) (g : A → list B) (l : list A) :
  l ≫= (λ x, f x :: g x) ≡ₚ (f <$> l) ++ (l ≫= g).
Proof.
  induction l as [|x l IH]; [done|].
  rewrite !bind_cons, fmap_cons, IH. simpl. f_equiv.
  rewrite !app_assoc. f_equiv. apply Permutation_app_comm.
Qed.

Lemma filter_key_Permutation {A} (key : A → string) (ids : list string)
    (rows : list A) :
  NoDup ids →
  ids ≫= (λ i, filter (λ r, key r = i) rows) ≡ₚ filter (λ r, key r ∈ ids) rows.
Proof.
  induction 1 as [|i ids Hi Hids IH].
  - simpl. induction rows as [|r rows IHr]; [done|].
    rewrite filter_cons. case_decide as Hin; [by apply elem_of_nil in Hin|done].
  - rewrite bind_cons, IH. clear IH.
    induction rows as [|r rows IHr]; [done|].
    rewrite !filter_cons. destruct (decide (key r = i)) as [Heq|Hne].
    + rewrite (decide_False (P := key r ∈ ids)) by (by rewrite Heq).
      rewrite (decide_True (P := key r ∈ i :: ids))
        by (rewrite Heq; apply list_elem_of_here).
      simpl. by f_equiv.
    + destruct (decide (key r ∈ ids)) as [Hin|Hnin].
      * rewrite decide_True by (by apply list_elem_of_further).
        rewrite <- Permutation_middle. by f_equiv.
      * rewrite decide_False; [done|].
        intros [?| ?]%elem_of_cons; done.
Qed.

Lemma filter_elem_of_nil {A} (key : A → string) (rows : list A) :
  filter (λ r, key r ∈ []) rows = [].
Proof.
  induction rows as [|r rows IH]; [done|].
  rewrite filter_cons, decide_False; [done|]. apply not_elem_of_nil.
Qed.

Lemma getTasksByPet_Permutation db petId :
  getTasksByPet db petId ≡ₚ petTasks db petId.
Proof. apply orderByDesc_Permutation. Qed.

Lemma getSubmissionsByPet_Permutation db petId :
  getSubmissionsByPet db petId
  ≡ₚ (λ s, withSubmissionRelations db s (commentsOf db s))
       <$> petSubmissions db petId.
Proof.
  unfold getSubmissionsByPet, petSubmissions, petTasks.
  case_decide as Hno.
  - apply nil_length_inv in Hno. by rewrite Hno, filter_elem_of_nil.
  - apply orderByDesc_Permutation.
Qed.

Lemma petSubmissions_NoDup db petId :
  NoDup (sub_id <$> homeworkSubmissions db) →
  NoDup (sub_id <$> petSubmissions db petId).
Proof.
  intros Hkey. eapply sublist_NoDup; [exact Hkey|].
  apply fmap_sublist, sublist_filter.
Qed.

(** The comments loaded with the submissions of a pet are the comments of
    the pet, each once, when submission ids are unique. *)
Lemma commentsOf_petComments db petId :
  NoDup (sub_id <$> homeworkSubmissions db) →
  petSubmissions db petId ≫= commentsOf db ≡ₚ petComments db petId.
Proof.
  intros Hkey. unfold petComments, commentsOf.
  rewrite <- (filter_key_Permutation tc_submissionId)
    by by apply petSubmissions_NoDup.
  by rewrite list_fmap_bind.
Qed.

Lemma entriesOf_split db (l : list HomeworkSubmission) :
  ((λ s, withSubmissionRelations db s (commentsOf db s)) <$> l) ≫= entriesOf
  ≡ₚ (submissionEntry db <$> l) ++ (commentEntry <$> (l ≫= commentsOf db)).
Proof.
  induction l as [|s l IH]; [done|].
  rewrite !fmap_cons, !bind_cons, fmap_app, IH.
  change (entriesOf (withSubmissionRelations db s (commentsOf db s)))
    with (submissionEntry db s :: (commentEntry <$> commentsOf db s)).
  simpl. f_equiv. rewrite !app_assoc. f_equiv. apply Permutation_app_comm.
Qed.

Lemma getTimeline_Permutation db petId :
  NoDup (sub_id <$> homeworkSubmissions db) →
  getTimeline db petId
  ≡ₚ (taskEntry <$> petTasks db petId)
     ++ (submissionEntry db <$> petSubmissions db petId)
     ++ (commentEntry <$> petComments db petId).
Proof.
  intros Hkey. rewrite getTimeline_unfold, sort_Permutation.
  rewrite getTasksByPet_Permutation, getSubmissionsByPet_Permutation.
  by rewrite entriesOf_split, (commentsOf_petComments db petId Hkey).
Qed.

(** C1. For every pet, when submission ids are unique (they are the primary
    key of their table), the list returned by [getTimeline] holds one entry
    per task of the pet, one per submission against these tasks and one per
    comment on these submissions, each dated by its record (createdAt,
    submittedAt, createdAt): T+S+C entries in all, sorted by date, latest
    first. *)
Theorem getTimeline_entries_sorted db petId :
  NoDup (sub_id <$> homeworkSubmissions db) →
  getTimeline db petId
    ≡ₚ (taskEntry <$> petTasks db petId)
       ++ (submissionEntry db <$> petSubmissions db petId)
       ++ (commentEntry <$> petComments db petId)
  ∧ length (getTimeline db petId)
    = (length (petTasks db petId) + length (petSubmissions db petId)
       + length (petComments db petId))%nat
  ∧ StronglySorted newestFirst (getTimeline db petId).
Proof.
  intros Hkey. split; [by apply getTimeline_Permutation|]. split.
  - rewrite (getTimeline_Permutation db petId Hkey).
    rewrite !length_app, !length_fmap. lia.
  - rewrite getTimeline_unfold.
    by apply (sort_StronglySorted _ date).
Qed.

Lemma Demo_submission_ids_NoDup : NoDup (sub_id <$> homeworkSubmissions Demo.db).
Proof. apply (bool_decide_unpack _). by vm_compute. Qed.

Lemma getTimeline_entries_sorted_witness :
  NoDup (sub_id <$> homeworkSubmissions Demo.db)
  ∧ length (getTimeline Demo.db "p1") = 4%nat.
Proof.
  split; [exact Demo_submission_ids_NoDup|].
  destruct (getTimeline_entries_sorted Demo.db "p1" Demo_submission_ids_NoDup)
    as (_ & Hlen & _).
  exact Hlen.
Defined.

(** A task created at t1, a submission at t2 > t1 and a comment at t3 > t2
    come out as comment, submission, task. *)
Example getTimeline_latest_first :
  type <$> getTimeline Demo.db "p1"
  = [TypeComment; TypeSubmission; TypeTask; TypeTask]
  ∧ date <$> getTimeline Demo.db "p1" = [3000; 2000; 1000; 500].
Proof. by vm_compute. Qed.

(** ** The calendar classifier *)
Lemma dayNameToNumber_abbrev (d : string) (n : Z) :
  dayNameToNumber !! d = Some n ↔ weekdayAbbrev n = Some d.
Proof.
  unfold dayNameToNumber. rewrite <- elem_of_list_to_map.
  - rewrite !elem_of_cons, elem_of_nil. unfold weekdayAbbrev. split.
    + intros Hin. repeat (destruct Hin as [Heq|Hin]; [by simplify_eq|]). done.
    + repeat case_decide; intros [= <-]; subst; tauto.
  - apply (bool_decide_unpack _). by vm_compute.
Qed.

Ltac weekday_names :=
  let name := fresh "name" in
  let Hn := fresh "Hn" in
  let Hin := fresh "Hin" in
  split;
  [ intros Hd; repeat (destruct Hd as [Hd|Hd]); subst;
    eexists; (split; [reflexivity|]); rewrite !elem_of_cons; tauto
  | intros (name & Hn & Hin); rewrite !elem_of_cons, elem_of_nil in Hin;
    apply dayNameToNumber_abbrev in Hn;
    repeat (destruct Hin as [Hin|Hin]; [subst name; vm_compute in Hn;
                                         injection Hn as <-; tauto|]);
    done ].

Lemma weekday_Mon_Wed_Fri n :
  n = 1 ∨ n = 3 ∨ n = 5
  ↔ ∃ name, weekdayAbbrev n = Some name ∧ name ∈ ["Mon"; "Wed"; "Fri"].
Proof. weekday_names. Qed.

Lemma weekday_Tue_Fri n :
  n = 2 ∨ n = 5
  ↔ ∃ name, weekdayAbbrev n = Some name ∧ name ∈ ["Tue"; "Fri"].
Proof. weekday_names. Qed.

Lemma weekday_Mon n : n = 1 ↔ weekdayAbbrev n = Some "Mon".
Proof.
  rewrite <- dayNameToNumber_abbrev. vm_compute. split; congruence.
Qed.

Lemma scheduled_scheduledOn `{DateFns} `{JS.CaseMapping} day t :
  scheduled (getDay day) t = true ↔ scheduledOn JS.toLowerCase day t.
Proof.
  unfold scheduled, scheduledOn.
  generalize (getDay day) as n. intros n.
  destruct (task_preferredDays t) as [[|d ds]|].
  2:{ rewrite bool_decide_eq_true, Exists_exists.
      split; intros (name & H1 & H2); exists name.
      - by apply dayNameToNumber_abbrev in H2.
      - by apply dayNameToNumber_abbrev in H1. }
  all: unfold frequencyAllows;
    generalize (JS.toLowerCase (task_frequency t)) as freq; intros freq;
    destruct (decide (freq = "daily")); [done|];
    destruct (decide (freq = "3x/week" ∨ freq = "3x per week"));
      [rewrite bool_decide_eq_true; apply weekday_Mon_Wed_Fri|];
    destruct (decide (freq = "2x/week" ∨ freq = "2x per week"));
      [rewrite bool_decide_eq_true; apply weekday_Tue_Fri|];
    destruct (decide (freq = "weekly"));
      [rewrite bool_decide_eq_true; apply weekday_Mon|done].
Qed.

(** Every element passes the filter exactly when nothing is dropped. *)
Lemma filter_all_length {A} (P : A → Prop) `{!∀ x, Decision (P x)} (l : list A) :
  (length l ≤ length (filter P l))%nat ↔ ∀ x, x ∈ l → P x.
Proof.
  split.
  - intros Hlen x Hx. destruct (decide (P x)) as [|Hn]; [done|].
    pose proof (length_filter_lt P l x Hx Hn). lia.
  - intros Hall. induction l as [|x l IH]; [done|].
    rewrite filter_cons, decide_True by (apply Hall, list_elem_of_here).
    simpl. apply le_n_S, IH. intros y Hy. by apply Hall, list_elem_of_further.
Qed.

Lemma filter_some_length {A} (P : A → Prop) `{!∀ x, Decision (P x)} (l : list A) :
  (0 < length (filter P l))%nat ↔ ∃ x, x ∈ l ∧ P x.
Proof.
  split.
  - destruct (filter P l) as [|x k] eqn:Hf; simpl; [lia|]. intros _.
    assert (x ∈ filter P l) as [HP Hx]%list_elem_of_filter
      by (rewrite Hf; apply list_elem_of_here).
    by exists x.
  - intros (x & Hx & HP).
    assert (x ∈ filter P l) as Hin by by apply list_elem_of_filter.
    destruct (filter P l); [by apply elem_of_nil in Hin|simpl; lia].
Qed.

Section classifier_facts.
Context `{DateFns} `{JS.CaseMapping}.
Variable tasks : list HomeworkTask.
Variable submissions : list HomeworkSubmission.

Local Abbreviation scheduledOn := (scheduledOn JS.toLowerCase).
Local Abbreviation submittedOn := (submittedOn submissions).
Local Abbreviation someScheduled := (someScheduled tasks JS.toLowerCase).
Local Abbreviation statusOf := (statusOf tasks submissions JS.toLowerCase).

Lemma elem_of_getTasksForDay day t :
  t ∈ getTasksForDay tasks day ↔ t ∈ tasks ∧ scheduledOn day t.
Proof.
  unfold getTasksForDay. rewrite list_elem_of_filter, scheduled_scheduledOn.
  tauto.
Qed.

Lemma Exists_getSubmissionsForDay day t :
  Exists (λ sub, sub_taskId sub = task_id t) (getSubmissionsForDay submissions day)
  ↔ submittedOn day t.
Proof.
  rewrite Exists_exists. unfold getSubmissionsForDay, CalendarSpec.submittedOn.
  split; intros (sub & Hsub & Ht); exists sub.
  - apply list_elem_of_filter in Hsub. tauto.
  - rewrite list_elem_of_filter. tauto.
Qed.

Lemma getTasksForDay_none day :
  length (getTasksForDay tasks day) = 0%nat → ¬ someScheduled day.
Proof.
  intros Hnil%nil_length_inv (t & Ht). apply elem_of_getTasksForDay in Ht.
  rewrite Hnil in Ht. by apply elem_of_nil in Ht.
Qed.

Lemma getTasksForDay_some day :
  length (getTasksForDay tasks day) ≠ 0%nat → someScheduled day.
Proof.
  intros Hlen. destruct (getTasksForDay tasks day) as [|t l] eqn:Hl; [done|].
  exists t. apply elem_of_getTasksForDay. rewrite Hl. apply list_elem_of_here.
Qed.

(** The status computed is the status described. *)
Lemma getDayStatus_statusOf now day :
  statusOf now day (getDayStatus tasks submissions now day).
Proof.
  unfold getDayStatus.
  destruct (decide (length (getTasksForDay tasks day) = 0%nat)) as [Hno|Hsome].
  { apply status_none. by apply getTasksForDay_none. }
  apply getTasksForDay_some in Hsome.
  destruct (decide (day > now)) as [Hfut|Hpast]; [by apply status_future|].
  assert (day ≤ now) as Hle by lia.
  destruct (decide (_ ≤ _)%nat) as [Hall|Hnot].
  { apply status_complete; [done..|]. intros t Ht Hs.
    apply Exists_getSubmissionsForDay.
    apply (proj1 (filter_all_length _ _) Hall t).
    by apply elem_of_getTasksForDay. }
  destruct (decide (0 < _)%nat) as [Hone|Hzero].
  - apply status_partial; [done..| |].
    + apply filter_some_length in Hone as (t & Ht & Hsub).
      exists t. apply elem_of_getTasksForDay in Ht as [Ht Hs].
      by apply Exists_getSubmissionsForDay in Hsub.
    + destruct (decide (Forall (λ t, Exists (λ sub, sub_taskId sub = task_id t)
                  (getSubmissionsForDay submissions day))
                  (getTasksForDay tasks day))) as [Hf|Hf].
      * destruct Hnot. apply filter_all_length. by apply Forall_forall.
      * apply not_Forall_Exists in Hf; [|solve_decision].
        apply Exists_exists in Hf as (t & Ht & Hsub).
        exists t. apply elem_of_getTasksForDay in Ht as [Ht Hs].
        split_and!; [done..|]. by rewrite <- Exists_getSubmissionsForDay.
  - apply status_missed; [done..|]. intros t Ht Hs Hsub.
    destruct Hzero. apply filter_some_length. exists t. split.
    + by apply elem_of_getTasksForDay.
    + by apply Exists_getSubmissionsForDay.
Qed.

(** At most one status fits a day. *)
Lemma statusOf_unique now day s1 s2 :
  statusOf now day s1 → statusOf now day s2 → s1 = s2.
Proof.
  intros H1 H2.
  destruct H1 as [Hno|Hs Hf|Hs Hp Hall|Hs Hp (t&Ht&Hst&Hsub) (u&Hu&Hsu&Hnsub)|Hs Hp Hall];
  destruct H2 as [Hno'|Hs' Hf'|Hs' Hp' Hall'|Hs' Hp' (t'&Ht'&Hst'&Hsub') (u'&Hu'&Hsu'&Hnsub')|Hs' Hp' Hall'];
  try done; try lia; exfalso.
  all: try (destruct Hs as (v & Hv & Hsv)); naive_solver.
Qed.
End classifier_facts.

(** C2, as amended. A task is among the tasks of a day exactly when it is
    scheduled on it: through its preferred days when that list is not empty
    (the list holds the abbreviation of the weekday), and otherwise through
    its frequency, read in lower case as [toLowerCase] gives it, whatever
    the host's case mapping is ("daily": every day; "3x/week" or
    "3x per week": Mon, Wed, Fri; "2x/week" or "2x per week": Tue, Fri;
    "weekly": Mon; anything else: every day); for a frequency written in
    ASCII that is the frequency with its letters A to Z lowered.
    The status of the day
    is then [none] when no task is scheduled, else [future] when the day is
    after the current time, else [complete], [partial] or [missed] as all,
    some or none of the scheduled tasks have a submission made that day. *)
Theorem getDayStatus_classifies `{DateFns} `{JS.CaseMapping} tasks submissions
    now day :
  (∀ t, t ∈ getTasksForDay tasks day
        ↔ t ∈ tasks ∧ scheduledOn JS.toLowerCase day t)
  ∧ (∀ t, JS.isAscii (task_frequency t) = true →
          t ∈ getTasksForDay tasks day
          ↔ t ∈ tasks ∧ scheduledOn JS.lowerAscii day t)
  ∧ (∀ st, getDayStatus tasks submissions now day = st
           ↔ statusOf tasks submissions JS.toLowerCase now day st).
Proof.
  split_and!; [apply elem_of_getTasksForDay| |].
  - intros t Hascii. rewrite elem_of_getTasksForDay. unfold scheduledOn.
    by rewrite JS.toLowerCase_ascii.
  - intros st. split.
    + intros <-. apply getDayStatus_statusOf.
    + intros Hst.
      eapply statusOf_unique; [apply getDayStatus_statusOf|exact Hst].
Qed.

(** Whatever the case mapping of the host, "Weekly" is read as "weekly":
    the task is for Mondays, and on a Tuesday the day has no task. *)
Lemma getTasksForDay_Weekly `{JS.CaseMapping} :
  @getTasksForDay (fixedOffset 0) _ [Demo.looseLeash] Demo.tuesday = [].
Proof.
  unfold getTasksForDay. rewrite filter_cons, filter_nil.
  rewrite decide_False; [done|]. unfold scheduled. simpl task_preferredDays.
  cbv zeta. rewrite JS.toLowerCase_ascii by done. by vm_compute.
Qed.

(** C2, as it is stated, fails: with the frequency matched as it is written,
    a task whose frequency is "Weekly" would be scheduled every day; the
    code lower-cases it and schedules the task on Mondays only, so on a
    Tuesday it is not among the tasks of the day. *)
Lemma scheduled_as_written_counterexample :
  ¬ (∀ t, t ∈ @getTasksForDay (fixedOffset 0) JS.basicLatin [Demo.looseLeash]
                Demo.tuesday
          ↔ t ∈ [Demo.looseLeash]
            ∧ @scheduledOn (fixedOffset 0) id Demo.tuesday t).
Proof.
  intros Hclaim.
  assert (Demo.looseLeash
          ∈ @getTasksForDay (fixedOffset 0) JS.basicLatin [Demo.looseLeash]
              Demo.tuesday) as Hin.
  { apply Hclaim. split; [apply list_elem_of_here|]. by vm_compute. }
  rewrite getTasksForDay_Weekly in Hin. by apply elem_of_nil in Hin.
Qed.

(** A task with preferred days is classified without a look at its
    frequency: the case mapping of the host does not enter. *)
Lemma getDayStatus_preferredDays `{JS.CaseMapping} now day :
  @getDayStatus (fixedOffset 0) _ [Demo.sitStay] [] now day
  = @getDayStatus (fixedOffset 0) JS.basicLatin [Demo.sitStay] [] now day.
Proof. done. Qed.

(** A task with preferred days Mon and Wed, on a Monday without
    submissions: [missed] once the day has begun, [future] before. *)
Example getDayStatus_monday :
  @getDayStatus (fixedOffset 0) JS.basicLatin [Demo.sitStay] [] Demo.tuesday Demo.monday = missed
  ∧ @getDayStatus (fixedOffset 0) JS.basicLatin [Demo.sitStay] [] 0 Demo.monday = future
  ∧ @getDayStatus (fixedOffset 0) JS.basicLatin [Demo.sitStay] [] 0 Demo.tuesday = none.
Proof. by vm_compute. Qed.

(** C4, as it is stated, fails: the classifier reads the clock, and the
    same day, tasks and submissions are classified [future] before the day
    and [missed] after it. *)
Lemma getDayStatus_clock_counterexample :
  @getDayStatus (fixedOffset 0) JS.basicLatin [Demo.sitStay] [] 0 Demo.monday
  ≠ @getDayStatus (fixedOffset 0) JS.basicLatin [Demo.sitStay] [] Demo.tuesday Demo.monday.
Proof. by vm_compute. Qed.

(** C4, as amended. The status is a function of the day, the tasks, the
    submissions, the calendar of the host and the current time, and it
    depends on the current time only through whether the day is after it:
    two evaluations whose clock readings fall on the same side of the day
    agree. *)
Theorem getDayStatus_clock `{DateFns} `{JS.CaseMapping} tasks submissions
    now1 now2 day :
  (day > now1 ↔ day > now2) →
  getDayStatus tasks submissions now1 day = getDayStatus tasks submissions now2 day.
Proof.
  intros Hside. unfold getDayStatus.
  destruct (decide (length (getTasksForDay tasks day) = 0%nat)); [done|].
  destruct (decide (day > now1)), (decide (day > now2)); tauto.
Qed.

Lemma getDayStatus_clock_witness :
  (Demo.monday > Demo.tuesday ↔ Demo.monday > Demo.tuesday + 1)
  ∧ @getDayStatus (fixedOffset 0) JS.basicLatin [Demo.sitStay] [] Demo.tuesday Demo.monday
    = @getDayStatus (fixedOffset 0) JS.basicLatin [Demo.sitStay] [] (Demo.tuesday + 1) Demo.monday.
Proof.
  assert (Demo.monday > Demo.tuesday ↔ Demo.monday > Demo.tuesday + 1) as Hside
    by (unfold Demo.monday, Demo.tuesday, msPerDay; lia).
  split; [exact Hside|].
  exact (@getDayStatus_clock (fixedOffset 0) JS.basicLatin [Demo.sitStay] []
           _ _ _ Hside).
Defined.

(** ** [String.prototype.trim] *)
Lemma String_app a s t : String a s +:+ t = String a (s +:+ t).
Proof. done. Qed.

Lemma app_nil_l_s s : "" +:+ s = s.
Proof. done. Qed.

Lemma app_nil_r_s s : s +:+ "" = s.
Proof. induction s as [|a s IH]; [done|]. by rewrite String_app, IH. Qed.

Lemma app_assoc_s s t u : (s +:+ t) +:+ u = s +:+ t +:+ u.
Proof. induction s as [|a s IH]; [done|]. by rewrite !String_app, IH. Qed.

Lemma app_eq_nil_s s t : s +:+ t = "" → s = "" ∧ t = "".
Proof. by destruct s. Qed.

(** Every white-space character is one to three bytes, none of them
    followed by a byte that begins one. *)
Ltac each_whiteSpace H :=
  unfold JS.whiteSpace in H; cbn [fmap list_fmap] in H;
  repeat (apply elem_of_cons in H as [H|H]); [..|by apply elem_of_nil in H].

Lemma whiteSpace_shape w :
  w ∈ JS.whiteSpace →
  ∃ a, begins a = true
       ∧ (w = String a ""
          ∨ (∃ b, w = String a (String b "") ∧ begins b = false)
          ∨ (∃ b c, w = String a (String b (String c ""))
                    ∧ begins b = false ∧ begins c = false)).
Proof.
  intros Hw. each_whiteSpace Hw; subst w; eexists; (split; [|first
    [ left; reflexivity
    | right; left; eexists; split; [reflexivity|by vm_compute]
    | right; right; eexists _, _; split; [reflexivity|by vm_compute] ] ]);
    by vm_compute.
Qed.

Lemma isWhiteSpace_true s : JS.isWhiteSpace s = true ↔ s ∈ JS.whiteSpace.
Proof. unfold JS.isWhiteSpace. by rewrite bool_decide_eq_true. Qed.

Lemma isWhiteSpace_false s : JS.isWhiteSpace s = false ↔ s ∉ JS.whiteSpace.
Proof. unfold JS.isWhiteSpace. by rewrite bool_decide_eq_false. Qed.


Lemma blank_whiteSpace w : w ∈ JS.whiteSpace → blank w.
Proof.
  intros Hw. rewrite <- (app_nil_r_s w). constructor; [done|constructor].
Qed.

Lemma blank_begins a s : blank (String a s) → begins a = true.
Proof.
  inversion 1 as [|w s' Hw Hs' Heq].
  destruct (whiteSpace_shape w Hw) as (b & Hb & [->|[(c & -> & _)|(c & d & -> & _)]]);
    rewrite !String_app in Heq; by simplify_eq.
Qed.

(** [trimStart] drops a blank prefix and stops at a character that is not
    white space. *)
Lemma trimStart_whiteSpace w s :
  w ∈ JS.whiteSpace → JS.trimStart (w +:+ s) = JS.trimStart s.
Proof.
  intros Hw. each_whiteSpace Hw; by subst w.
Qed.

Lemma trimStart_blank l s : blank l → JS.trimStart (l +:+ s) = JS.trimStart s.
Proof.
  induction 1 as [|w l Hw Hl IH]; [done|].
  by rewrite app_assoc_s, trimStart_whiteSpace.
Qed.

Ltac no_prefix :=
  let w := fresh "w" in let Hw := fresh "Hw" in
  let x := fresh "x" in let Heq := fresh "Heq" in
  intros w Hw x Heq;
  destruct (whiteSpace_shape w Hw)
    as (? & _ & [->|[(? & -> & _)|(? & ? & -> & _)]]);
  rewrite ?String_app, ?app_nil_l_s in Heq; by simplify_eq.

Lemma trimStart_spec s :
  ∃ l, s = l +:+ JS.trimStart s ∧ blank l
       ∧ ∀ w, w ∈ JS.whiteSpace → ∀ x, JS.trimStart s ≠ w +:+ x.
Proof.
  assert (∀ n s, (String.length s ≤ n)%nat →
    ∃ l, s = l +:+ JS.trimStart s ∧ blank l
         ∧ ∀ w, w ∈ JS.whiteSpace → ∀ x, JS.trimStart s ≠ w +:+ x) as Hn;
    [|by apply (Hn (String.length s))].
  clear s. induction n as [|n IH]; intros s Hlen.
  { destruct s; [|simpl in Hlen; lia].
    exists "". split_and!; [done|constructor|no_prefix]. }
  assert (∀ w u, w ∈ JS.whiteSpace → s = w +:+ u →
            JS.trimStart s = JS.trimStart u →
            ∃ l, s = l +:+ JS.trimStart s ∧ blank l
                 ∧ ∀ w, w ∈ JS.whiteSpace → ∀ x, JS.trimStart s ≠ w +:+ x)
    as Hstep.
  { intros w u Hw -> Heq. destruct (IH u) as (l & Hl & Hblank & Hfree).
    { destruct (whiteSpace_shape w Hw)
        as (b & _ & [->|[(c & -> & _)|(c & d & -> & _)]]);
        rewrite ?String_app, ?app_nil_l_s in Hlen; simpl in Hlen; lia. }
    exists (w +:+ l). rewrite Heq. split_and!; [|by constructor|done].
    by rewrite app_assoc_s, <- Hl. }
  destruct s as [|a s1]; [exists ""; split_and!; [done|constructor|no_prefix]|].
  destruct (JS.isWhiteSpace (String a "")) eqn:H1.
  { apply (Hstep (String a "") s1); [by apply isWhiteSpace_true|done|].
    cbn [JS.trimStart]. by rewrite H1. }
  destruct s1 as [|b s2].
  { apply isWhiteSpace_false in H1. cbn [JS.trimStart].
    rewrite (proj2 (isWhiteSpace_false _) H1).
    exists "". split_and!; [done|constructor|no_prefix]. }
  destruct (JS.isWhiteSpace (String a (String b ""))) eqn:H2.
  { apply (Hstep (String a (String b "")) s2); [by apply isWhiteSpace_true|done|].
    cbn [JS.trimStart]. by rewrite H1, H2. }
  destruct s2 as [|c s3].
  { cbn [JS.trimStart]. rewrite H1, H2.
    apply isWhiteSpace_false in H1, H2.
    exists "". split_and!; [done|constructor|no_prefix]. }
  destruct (JS.isWhiteSpace (String a (String b (String c "")))) eqn:H3.
  { apply (Hstep (String a (String b (String c ""))) s3);
      [by apply isWhiteSpace_true|done|].
    cbn [JS.trimStart]. by rewrite H1, H2, H3. }
  cbn [JS.trimStart]. rewrite H1, H2, H3.
  apply isWhiteSpace_false in H1, H2, H3.
  exists "". split_and!; [done|constructor|no_prefix].
Qed.

Lemma whiteSpace_nonempty w : w ∈ JS.whiteSpace → w ≠ "".
Proof.
  intros Hw ->.
  by destruct (whiteSpace_shape "" Hw)
    as (? & _ & [?|[(? & ? & _)|(? & ? & ? & _)]]).
Qed.

Lemma app_eq_String s t a u :
  s +:+ t = String a u →
  (s = "" ∧ t = String a u) ∨ ∃ s', s = String a s' ∧ s' +:+ t = u.
Proof.
  destruct s as [|b s]; [by left|]. rewrite String_app. intros [= -> <-].
  right. by eexists.
Qed.

(** [trimEnd] drops a blank suffix and stops at a character that is not
    white space. *)
Lemma trimEnd_spec s :
  ∃ r, s = JS.trimEnd s +:+ r ∧ blank r
       ∧ ∀ w, w ∈ JS.whiteSpace → ∀ x, JS.trimEnd s ≠ x +:+ w.
Proof.
  induction s as [|c s (r & Hr & Hblank & Hfree)].
  { exists "". split_and!; [done|constructor|].
    intros w Hw x Heq. symmetry in Heq. apply app_eq_nil_s in Heq as [_ ->].
    by apply whiteSpace_nonempty in Hw. }
  cbn [JS.trimEnd]. destruct (JS.isWhiteSpace _) eqn:Hc.
  - apply isWhiteSpace_true in Hc. exists (String c (JS.trimEnd s) +:+ r).
    split_and!.
    + by rewrite String_app, <- Hr.
    + by constructor.
    + intros w Hw x Heq. symmetry in Heq. apply app_eq_nil_s in Heq as [_ ->].
      by apply whiteSpace_nonempty in Hw.
  - apply isWhiteSpace_false in Hc. exists r. split_and!; [|done|].
    + by rewrite String_app, <- Hr.
    + intros w Hw x Heq. symmetry in Heq.
      apply app_eq_String in Heq as [[-> ->]|(x' & -> & Heq)]; [done|].
      by apply (Hfree w Hw x').
Qed.

Lemma trimmed_trim s : trimmed s (JS.trim s).
Proof.
  destruct (trimStart_spec s) as (l & Hl & Hbl & Hpre).
  destruct (trimEnd_spec (JS.trimStart s)) as (r & Hr & Hbr & Hsuf).
  exists l, r. unfold JS.trim. split_and!; [by rewrite <- Hr|done|done|].
  intros w Hw. split; [|by apply Hsuf].
  intros x Heq. apply (Hpre w Hw (x +:+ r)).
  by rewrite Hr, Heq, app_assoc_s.
Qed.

(** And nothing else is the trimmed string. *)
Lemma whiteSpace_begins a x : String a x ∈ JS.whiteSpace → begins a = true.
Proof.
  intros Hw.
  destruct (whiteSpace_shape _ Hw)
    as (? & ? & [?|[(? & ? & _)|(? & ? & ? & _)]]); by simplify_eq.
Qed.

Lemma not_whiteSpace a x : begins a = false → JS.isWhiteSpace (String a x) = false.
Proof.
  intros Ha. apply isWhiteSpace_false. intros Hw%whiteSpace_begins. congruence.
Qed.

Lemma trimEnd_blank r : blank r → JS.trimEnd r = "".
Proof.
  induction 1 as [|w r Hw Hr IH]; [done|].
  destruct (whiteSpace_shape w Hw)
    as (a & _ & [->|[(b & -> & Hb)|(b & c & -> & Hb & Hc)]]);
    rewrite !String_app, app_nil_l_s; cbn [JS.trimEnd]; rewrite IH.
  - by rewrite (proj2 (isWhiteSpace_true _) Hw).
  - rewrite (not_whiteSpace b) by done.
    by rewrite (proj2 (isWhiteSpace_true _) Hw).
  - rewrite (not_whiteSpace c) by done. rewrite (not_whiteSpace b) by done.
    by rewrite (proj2 (isWhiteSpace_true _) Hw).
Qed.

Lemma trimEnd_edgeFree t r :
  t ≠ "" → (∀ w, w ∈ JS.whiteSpace → ∀ x, t ≠ x +:+ w) → blank r →
  JS.trimEnd (t +:+ r) = t.
Proof.
  intros Hne Hfree Hr. induction t as [|c t IH]; [done|].
  rewrite String_app. cbn [JS.trimEnd].
  assert (JS.trimEnd (t +:+ r) = t) as ->.
  { destruct t as [|d t]; [by apply trimEnd_blank|]. apply IH; [done|].
    intros w Hw x Heq. apply (Hfree w Hw (String c x)).
    by rewrite String_app, <- Heq. }
  rewrite (proj2 (isWhiteSpace_false _)); [done|].
  intros Hw. by apply (Hfree _ Hw "").
Qed.

Lemma trimStart_edgeFree t r :
  t ≠ "" → (∀ w, w ∈ JS.whiteSpace → ∀ x, t ≠ w +:+ x) → blank r →
  JS.trimStart (t +:+ r) = t +:+ r.
Proof.
  intros Hne Hfree Hr.
  destruct (trimStart_spec (t +:+ r)) as (l & Hl & Hbl & _).
  destruct Hbl as [|w l Hw Hbl]; [done|]. exfalso.
  rewrite app_assoc_s in Hl. revert Hl.
  generalize (l +:+ JS.trimStart (t +:+ r)). intros u Hu.
  assert (∀ a v, r = String a v → begins a = true) as Hbegins
    by (intros a v ->; by eapply blank_begins).
  destruct (whiteSpace_shape w Hw)
    as (a & _ & [->|[(b & -> & Hb)|(b & c & -> & Hb & Hc)]]);
    rewrite !String_app, app_nil_l_s in Hu.
  - destruct t as [|a' t]; [done|]. rewrite String_app in Hu.
    injection Hu as -> _. by apply (Hfree _ Hw t).
  - destruct t as [|a' [|b' t]]; [done| |].
    + rewrite String_app, app_nil_l_s in Hu. injection Hu as -> Hu.
      rewrite (Hbegins _ _ Hu) in Hb. done.
    + rewrite !String_app in Hu. injection Hu as -> -> _.
      by apply (Hfree _ Hw t).
  - destruct t as [|a' [|b' [|c' t]]]; [done| | |].
    + rewrite String_app, app_nil_l_s in Hu. injection Hu as -> Hu.
      rewrite (Hbegins _ _ Hu) in Hb. done.
    + rewrite !String_app, app_nil_l_s in Hu. injection Hu as -> -> Hu.
      rewrite (Hbegins _ _ Hu) in Hc. done.
    + rewrite !String_app in Hu. injection Hu as -> -> -> _.
      by apply (Hfree _ Hw t).
Qed.

Lemma trimmed_unique s t : trimmed s t → t = JS.trim s.
Proof.
  intros (l & r & -> & Hl & Hr & Hfree). unfold JS.trim.
  rewrite trimStart_blank by done.
  destruct (decide (t = "")) as [->|Hne].
  - rewrite app_nil_l_s.
    rewrite <- (app_nil_r_s r), trimStart_blank by done. done.
  - rewrite trimStart_edgeFree, trimEnd_edgeFree; try done.
    + intros w Hw. by apply Hfree.
    + intros w Hw. by apply Hfree.
Qed.


(** ** What the trimmed names of a trainer are *)
Lemma whiteSpace_lead a x :
  x ≠ "" → String a x ∈ JS.whiteSpace → String a "" ∉ JS.whiteSpace.
Proof.
  intros Hx Hw. each_whiteSpace Hw; vm_compute in Hw; simplify_eq; try done;
    intros Hin%(bool_decide_pack _); by vm_compute in Hin.
Qed.

Lemma space_whiteSpace : " " ∈ JS.whiteSpace.
Proof. apply (bool_decide_unpack _). by vm_compute. Qed.

Lemma no_prefix_app t r :
  t ≠ "" → (∀ w, w ∈ JS.whiteSpace → ∀ x, t ≠ w +:+ x) →
  (∀ a v, r = String a v → begins a = true) →
  ∀ w, w ∈ JS.whiteSpace → ∀ x, t +:+ r ≠ w +:+ x.
Proof.
  intros Hne Hfree Hbegins w Hw x Hu.
  destruct (whiteSpace_shape w Hw)
    as (a & _ & [->|[(b & -> & Hb)|(b & c & -> & Hb & Hc)]]);
    rewrite !String_app, app_nil_l_s in Hu.
  - destruct t as [|a' t]; [done|]. rewrite String_app in Hu.
    injection Hu as -> _. by apply (Hfree _ Hw t).
  - destruct t as [|a' [|b' t]]; [done| |].
    + rewrite String_app, app_nil_l_s in Hu. injection Hu as -> Hu.
      rewrite (Hbegins _ _ Hu) in Hb. done.
    + rewrite !String_app in Hu. injection Hu as -> -> _.
      by apply (Hfree _ Hw t).
  - destruct t as [|a' [|b' [|c' t]]]; [done| | |].
    + rewrite String_app, app_nil_l_s in Hu. injection Hu as -> Hu.
      rewrite (Hbegins _ _ Hu) in Hb. done.
    + rewrite !String_app, app_nil_l_s in Hu. injection Hu as -> -> Hu.
      rewrite (Hbegins _ _ Hu) in Hc. done.
    + rewrite !String_app in Hu. injection Hu as -> -> -> _.
      by apply (Hfree _ Hw t).
Qed.

Lemma app_eq_app_s r t x w :
  r +:+ t = x +:+ w →
  (∃ y, t = y +:+ w ∧ x = r +:+ y) ∨ (∃ y, y ≠ "" ∧ w = y +:+ t ∧ r = x +:+ y).
Proof.
  revert x. induction r as [|a r IH]; intros x Heq.
  - left. exists x. by rewrite !app_nil_l_s in *.
  - destruct x as [|b x].
    + right. exists (String a r). rewrite app_nil_l_s in Heq. by rewrite Heq.
    + rewrite !String_app in Heq. injection Heq as -> Heq.
      destruct (IH x Heq) as [(y & -> & ->)|(y & Hy & -> & ->)].
      * left. by exists y.
      * right. by exists y.
Qed.

(** A name followed by a space and a name begins as the first and ends as
    the last. *)
Ltac string_app H :=
  repeat first [rewrite String_app in H | rewrite app_nil_l_s in H].

Lemma no_suffix_space t r :
  t ≠ "" → (∀ w, w ∈ JS.whiteSpace → ∀ x, t ≠ x +:+ w) →
  ∀ w, w ∈ JS.whiteSpace → ∀ x, (r +:+ " ") +:+ t ≠ x +:+ w.
Proof.
  intros Hne Hfree w Hw x Heq.
  apply app_eq_app_s in Heq as [(y & -> & _)|(y & Hy & -> & Hr)].
  { by apply (Hfree w Hw y). }
  assert (∃ z, y = z +:+ " ") as (z & ->).
  { apply app_eq_app_s in Hr as [(y' & Hsp & _)|(y' & _ & -> & _)].
    - destruct y' as [|c y']; [rewrite app_nil_l_s in Hsp; subst y; by exists ""|].
      rewrite String_app in Hsp. injection Hsp as <- Hsp.
      symmetry in Hsp. apply app_eq_nil_s in Hsp as [_ ->]. done.
    - by exists y'. }
  rewrite app_assoc_s in Hw.
  assert (" " +:+ t ∈ JS.whiteSpace → False) as Hlead.
  { intros Hin. string_app Hin.
    by apply (whiteSpace_lead " " t Hne Hin), space_whiteSpace. }
  destruct (whiteSpace_shape _ Hw)
    as (a & _ & [Hw1|[(b & Hw2 & Hb)|(b & c & Hw3 & Hb & Hc)]]).
  - destruct z as [|? [|? ?]]; string_app Hw1; destruct t; simplify_eq.
  - destruct z as [|a' [|? ?]]; string_app Hw2.
    + apply Hlead. by rewrite app_nil_l_s in Hw.
    + injection Hw2 as _ <- Ht. by vm_compute in Hb.
    + injection Hw2 as _ _ Hnil. apply app_eq_nil_s in Hnil as [_ Hnil].
      by string_app Hnil.
  - destruct z as [|a' [|b' [|? ?]]]; string_app Hw3.
    + apply Hlead. by rewrite app_nil_l_s in Hw.
    + injection Hw3 as _ <- Ht. by vm_compute in Hb.
    + injection Hw3 as _ _ <- Ht. by vm_compute in Hc.
    + injection Hw3 as _ _ _ Hnil. apply app_eq_nil_s in Hnil as [_ Hnil].
      by string_app Hnil.
Qed.

Lemma trimmed_two_names f l :
  f ≠ "" → l ≠ "" →
  (∀ w, w ∈ JS.whiteSpace → ∀ x, f ≠ w +:+ x) →
  (∀ w, w ∈ JS.whiteSpace → ∀ x, l ≠ x +:+ w) →
  trimmed (f +:+ " " +:+ l) (f +:+ " " +:+ l).
Proof.
  intros Hf Hl Hpre Hsuf. exists "", "".
  split_and!; [by rewrite app_nil_l_s, app_nil_r_s|constructor|constructor|].
  intros w Hw. split.
  - apply no_prefix_app; [done|done| |done].
    intros a v [= <- _]. by vm_compute.
  - rewrite <- app_assoc_s. by apply no_suffix_space.
Qed.

Lemma trimmed_one_name f : edgeFree f → trimmed (f +:+ " " +:+ "") f.
Proof.
  intros Hf. exists "", " ". split_and!; [done|constructor| |done].
  apply blank_whiteSpace, space_whiteSpace.
Qed.

Lemma edgeFree_trim t : edgeFree t ↔ JS.trim t = t.
Proof.
  split.
  - intros Ht. symmetry. apply trimmed_unique. exists "", "".
    split_and!; [by rewrite app_nil_l_s, app_nil_r_s|constructor|constructor|done].
  - intros <-. by destruct (trimmed_trim t) as (? & ? & _ & _ & _ & ?).
Qed.

(** ** Lookups in a table *)
Section findFirst_facts.
Context {A : Type} (P : A → Prop) `{!∀ x, Decision (P x)}.

Lemma findFirst_cons x l :
  findFirst P (x :: l) = if decide (P x) then Some x else findFirst P l.
Proof.
  unfold findFirst. simpl. case_decide; [done|].
  by destruct (list_find P l) as [[? ?]|].
Qed.

Lemma findFirst_Some l x : findFirst P l = Some x → x ∈ l ∧ P x.
Proof.
  induction l as [|y l IH]; [done|]. rewrite findFirst_cons.
  case_decide.
  - intros [= ->]. split; [apply list_elem_of_here|done].
  - intros [? ?]%IH. split; [by apply list_elem_of_further|done].
Qed.

Lemma findFirst_None l : findFirst P l = None ↔ ∀ x, x ∈ l → ¬ P x.
Proof.
  induction l as [|y l IH].
  - split; [|done]. intros _ x Hx. by apply elem_of_nil in Hx.
  - rewrite findFirst_cons. case_decide as Hy.
    + split; [done|]. intros Hall. destruct (Hall y); [apply list_elem_of_here|done].
    + rewrite IH. split.
      * intros Hall x [->|Hx]%elem_of_cons; [done|by apply Hall].
      * intros Hall x Hx. by apply Hall, list_elem_of_further.
Qed.
End findFirst_facts.

(** A row is found through a column whose values are unique. *)
Lemma findFirst_unique {A} (key : A → string) (l : list A) (x : A) :
  NoDup (key <$> l) → x ∈ l → findFirst (λ y, key y = key x) l = Some x.
Proof.
  induction l as [|y l IH]; [by intros _ ?%elem_of_nil|].
  rewrite fmap_cons, NoDup_cons, findFirst_cons. intros [Hy Hl] Hx.
  apply elem_of_cons in Hx as [->|Hx].
  - by rewrite decide_True.
  - rewrite decide_False; [by apply IH|].
    intros Heq. apply Hy. rewrite Heq. by apply list_elem_of_fmap_2.
Qed.

Lemma findFirst_updateRows {A} (P : A → Prop) `{!∀ x, Decision (P x)}
    (f : A → A) (l : list A) :
  (∀ x y, P x → (P (f y) ↔ P y)) →
  findFirst P (updateRows P f l) = f <$> findFirst P l.
Proof.
  intros Hf. induction l as [|y l IH]; [done|].
  unfold updateRows in *. rewrite fmap_cons, !findFirst_cons.
  destruct (decide (P y)) as [Hy|Hy].
  - rewrite decide_True; [done|]. by apply (Hf y).
  - by rewrite decide_False.
Qed.

(** ** Invite tokens *)
Lemma getWorkspaceByToken_unique db w :
  uniqueTokens db → w ∈ workspaces db →
  getWorkspaceByToken db (ws_inviteToken w) = Some (withWorkspaceRelations db w).
Proof.
  intros Huniq Hw. unfold getWorkspaceByToken.
  by rewrite (findFirst_unique ws_inviteToken).
Qed.

Lemma getWorkspaceByToken_unknown db token :
  token ∉ ws_inviteToken <$> workspaces db → getWorkspaceByToken db token = None.
Proof.
  intros Hno. unfold getWorkspaceByToken.
  rewrite (proj2 (findFirst_None _ _)); [done|].
  intros w Hw Htok. apply Hno. rewrite <- Htok. by apply list_elem_of_fmap_2.
Qed.

Lemma trainerName_trimmed trainer : trimmed (namesOf trainer) (trainerName trainer).
Proof.
  unfold trainerName, namesOf.
  assert (∀ o, default "" (JS.orNull o) = default "" o) as Hor
    by by intros [[|? ?]|].
  rewrite !Hor. apply trimmed_trim.
Qed.

(** C9. When invite tokens are unique (the column is declared so), the
    token of a workspace is answered with the id of that workspace, the
    display name of its trainer and its business name. The display name is
    the first and the last name of the trainer with a space between (a
    missing name being empty), without the white space at its two ends: the
    two names with one space for a trainer of two names that begin and end
    with letters, the one name alone for a trainer of one name. A token held
    by no workspace is answered with 404, not found. The database is left as
    it is. *)
Theorem validateToken_found_or_not db (req : Request unit) :
  uniqueTokens db →
  (∀ w, w ∈ workspaces db → ws_inviteToken w = req_param req →
        ∃ name,
          validateToken req db
          = (reply 200
               {| vr_workspaceId := ws_id w;
                  vr_trainerName := name;
                  vr_businessName := ws_businessName w |},
             db)
          ∧ trimmed (namesOf (getUser db (ws_trainerUserId w))) name
          ∧ (∀ u first,
               getUser db (ws_trainerUserId w) = Some u →
               user_firstName u = Some first → edgeFree first →
               user_lastName u = None ∨ user_lastName u = Some "" →
               name = first)
          ∧ (∀ u first last,
               getUser db (ws_trainerUserId w) = Some u →
               user_firstName u = Some first → user_lastName u = Some last →
               first ≠ "" → last ≠ "" → edgeFree first → edgeFree last →
               name = first +:+ " " +:+ last))
  ∧ (req_param req ∉ ws_inviteToken <$> workspaces db →
     validateToken req db = (fail 404 "Invalid invite link", db)).
Proof.
  intros Huniq. unfold validateToken. split.
  - intros w Hw <-. rewrite getWorkspaceByToken_unique by done.
    cbn [wr_trainer wr_row withWorkspaceRelations].
    exists (trainerName (getUser db (ws_trainerUserId w))).
    pose proof (trainerName_trimmed (getUser db (ws_trainerUserId w))) as Hname.
    split_and!; [done|done| |].
    + intros u first Hu Hfirst Hedge Hlast.
      rewrite (trimmed_unique _ _ Hname). symmetry. apply trimmed_unique.
      rewrite Hu. unfold namesOf. simpl. rewrite Hfirst. simpl.
      destruct Hlast as [->| ->]; by apply trimmed_one_name.
    + intros u first last Hu Hfirst Hlast Hf Hl Hef Hel.
      rewrite (trimmed_unique _ _ Hname). symmetry. apply trimmed_unique.
      rewrite Hu. unfold namesOf. simpl. rewrite Hfirst, Hlast. simpl.
      apply trimmed_two_names; [done|done| |].
      * intros w' Hw'. by apply Hef.
      * intros w' Hw'. by apply Hel.
  - intros Hno. by rewrite getWorkspaceByToken_unknown.
Qed.

Lemma Demo_uniqueTokens : uniqueTokens Demo.db.
Proof. apply (bool_decide_unpack _). by vm_compute. Qed.

Lemma Demo_oneName_uniqueTokens : uniqueTokens Demo.oneName.
Proof. apply (bool_decide_unpack _). by vm_compute. Qed.

(** The trainer of the studio has two names; the trainer of the second
    workspace has one, and is not answered with a space after it. *)
Lemma validateToken_found_or_not_witness :
  uniqueTokens Demo.db
  ∧ validateToken
      {| req_sub := None; req_param := ws_inviteToken Demo.studio; req_body := () |}
      Demo.db
    = (reply 200
         {| vr_workspaceId := "w1"; vr_trainerName := "Sarah Johnson";
            vr_businessName := Some "Happy Paws" |},
       Demo.db)
  ∧ validateToken
      {| req_sub := None; req_param := env_inviteToken Demo.env; req_body := () |}
      Demo.oneName
    = (reply 200
         {| vr_workspaceId := "uuid-0"; vr_trainerName := "Cher";
            vr_businessName := Some "Good Dog" |},
       Demo.oneName).
Proof.
  split; [exact Demo_uniqueTokens|]. split.
  - destruct (proj1 (validateToken_found_or_not Demo.db
                       {| req_sub := None;
                          req_param := ws_inviteToken Demo.studio;
                          req_body := () |} Demo_uniqueTokens)
                Demo.studio (list_elem_of_here _ _) eq_refl)
      as (name & Hrun & _ & _ & Htwo).
    by rewrite (Htwo Demo.sarah "Sarah" "Johnson" eq_refl eq_refl eq_refl
                  ltac:(done) ltac:(done)
                  (proj2 (edgeFree_trim "Sarah") eq_refl)
                  (proj2 (edgeFree_trim "Johnson") eq_refl)) in Hrun.
  - destruct (proj1 (validateToken_found_or_not Demo.oneName
                       {| req_sub := None;
                          req_param := env_inviteToken Demo.env;
                          req_body := () |} Demo_oneName_uniqueTokens)
                {| ws_id := env_uuid Demo.env 0; ws_trainerUserId := "o2";
                   ws_inviteToken := env_inviteToken Demo.env;
                   ws_businessName := Some "Good Dog"; ws_bio := None;
                   ws_createdAt := env_now Demo.env |}
                (list_elem_of_further _ _ _ (list_elem_of_here _ _))
                eq_refl)
      as (name & Hrun & _ & Hone & _).
    by rewrite (Hone _ "Cher" eq_refl eq_refl
                  (proj2 (edgeFree_trim "Cher") eq_refl)
                  (or_introl eq_refl)) in Hrun.
Defined.

(** C6. A join by the trainer of the workspace the token belongs to is
    refused with 400, "You cannot join your own workspace as an owner", and
    the database (memberships and users) is left as it is. *)
Theorem joinWorkspace_own_workspace env (req : Request (option string)) db w :
  uniqueTokens db →
  w ∈ workspaces db →
  JS.orNull (req_body req) = Some (ws_inviteToken w) →
  getUserId req = Some (ws_trainerUserId w) →
  joinWorkspace env req db
  = (fail 400 "You cannot join your own workspace as an owner", db).
Proof.
  intros Huniq Hw Htoken Huser. unfold joinWorkspace.
  rewrite Huser, Htoken, getWorkspaceByToken_unique by done. simpl.
  by rewrite decide_True.
Qed.

Lemma joinWorkspace_own_workspace_witness :
  joinWorkspace Demo.env
    {| req_sub := Some "t1"; req_param := "";
       req_body := Some (ws_inviteToken Demo.studio) |}
    Demo.db
  = (fail 400 "You cannot join your own workspace as an owner", Demo.db).
Proof.
  apply (joinWorkspace_own_workspace Demo.env _ Demo.db Demo.studio).
  - exact Demo_uniqueTokens.
  - apply list_elem_of_here.
  - reflexivity.
  - reflexivity.
Defined.

(** ** Joining a workspace *)
Lemma getUser_updateUser now id updates db :
  getUser (updateUser now id updates db) id = setUser updates now <$> getUser db id.
Proof.
  unfold getUser, updateUser. simpl. rewrite lookup_alter. by rewrite decide_True.
Qed.

Lemma memberCount_pos db workspaceId userId :
  (0 < memberCount db workspaceId userId)%nat
  ↔ Exists (λ m, wm_userId m = userId) (getWorkspaceMembers db workspaceId).
Proof.
  unfold memberCount, getWorkspaceMembers.
  rewrite filter_some_length, Exists_exists. split.
  - intros (m & Hm & Hw & Hu). exists m. by rewrite list_elem_of_filter.
  - intros (m & [Hw Hm]%list_elem_of_filter & Hu). by exists m.
Qed.

Lemma memberCount_addWorkspaceMember now id workspaceId userId role db :
  memberCount (addWorkspaceMember now id workspaceId userId role db)
              workspaceId userId
  = S (memberCount db workspaceId userId).
Proof.
  unfold memberCount, addWorkspaceMember. simpl.
  rewrite filter_app, length_app, filter_cons, decide_True by done.
  simpl. lia.
Qed.

(** The two ways a join succeeds. *)
Lemma joinWorkspace_joined env (req : Request (option string)) db userId r db' :
  getUserId req = Some userId →
  joinWorkspace env req db = (r, db') →
  joined r →
  ∃ token w,
    JS.orNull (req_body req) = Some token
    ∧ findFirst (λ w, ws_inviteToken w = token) (workspaces db) = Some w
    ∧ ws_trainerUserId w ≠ userId
    ∧ ((0 < memberCount db (ws_id w) userId)%nat
       ∧ r = reply 200 {| jr_workspaceId := ws_id w; jr_alreadyMember := Some true |}
       ∧ db' = updateUser (env_now env) userId ownerOnboarding db
       ∨ memberCount db (ws_id w) userId = 0%nat
         ∧ r = reply 201 {| jr_workspaceId := ws_id w; jr_alreadyMember := None |}
         ∧ db' = updateUser (env_now env) userId ownerOnboarding
                   (addWorkspaceMember (env_now env) (env_uuid env 0) (ws_id w)
                      userId "OWNER" db)).
Proof.
  intros Huser. unfold joinWorkspace, getWorkspaceByToken. rewrite Huser.
  destruct (JS.orNull (req_body req)) as [token|];
    [|intros [= <- <-] [?|?]; done].
  destruct (findFirst _ (workspaces db)) as [w|] eqn:Hw; simpl;
    [|intros [= <- <-] [?|?]; done].
  case_decide as Hself; [intros [= <- <-] [?|?]; done|].
  case_bool_decide as Hmember; intros [= <- <-] _; exists token, w;
    (split_and!; [done..|]).
  - left. by rewrite memberCount_pos.
  - right. split; [|done]. rewrite <- memberCount_pos in Hmember. lia.
Qed.

(** A user who is a member and is not the trainer is answered
    [alreadyMember: true], and no membership row is written. *)
Lemma joinWorkspace_alreadyMember env (req : Request (option string)) db userId
    token w :
  getUserId req = Some userId →
  JS.orNull (req_body req) = Some token →
  findFirst (λ w, ws_inviteToken w = token) (workspaces db) = Some w →
  ws_trainerUserId w ≠ userId →
  (0 < memberCount db (ws_id w) userId)%nat →
  joinWorkspace env req db
  = (reply 200 {| jr_workspaceId := ws_id w; jr_alreadyMember := Some true |},
     updateUser (env_now env) userId ownerOnboarding db).
Proof.
  intros Huser Htoken Hw Hself Hmember. unfold joinWorkspace, getWorkspaceByToken.
  rewrite Huser, Htoken, Hw. simpl. rewrite decide_False by done.
  apply memberCount_pos in Hmember. by rewrite bool_decide_eq_true_2.
Qed.

(** C3. Joining is idempotent per user and token: after a join that
    succeeded, a second join by the same user with the same token is answered
    200 with [alreadyMember: true] for the same workspace and writes no
    membership row; the number of membership rows of the (workspace, user)
    pair is 1 after the first join when there was none before it, and is the
    same after the second join. *)
Theorem joinWorkspace_idempotent env env' (req : Request (option string)) db
    userId r1 db1 :
  getUserId req = Some userId →
  joinWorkspace env req db = (r1, db1) →
  joined r1 →
  ∃ workspaceId alreadyMember db2,
    body r1 = Json {| jr_workspaceId := workspaceId;
                      jr_alreadyMember := alreadyMember |}
    ∧ joinWorkspace env' req db1
      = (reply 200 {| jr_workspaceId := workspaceId;
                      jr_alreadyMember := Some true |},
         db2)
    ∧ workspaceMembers db2 = workspaceMembers db1
    ∧ memberCount db1 workspaceId userId
      = Nat.max 1 (memberCount db workspaceId userId)
    ∧ memberCount db2 workspaceId userId = memberCount db1 workspaceId userId.
Proof.
  intros Huser Hjoin Hok.
  destruct (joinWorkspace_joined _ _ _ _ _ _ Huser Hjoin Hok)
    as (token & w & Htoken & Hw & Hself & Hcase).
  assert (memberCount db1 (ws_id w) userId
          = Nat.max 1 (memberCount db (ws_id w) userId)
          ∧ workspaces db1 = workspaces db
          ∧ ∃ am, body r1 = Json {| jr_workspaceId := ws_id w;
                                    jr_alreadyMember := am |})
    as (Hcount & Hws & am & Hbody).
  { destruct Hcase as [(Hpos & -> & ->)|(Hzero & -> & ->)].
    - split_and!; [|done|by eexists].
      change (memberCount (updateUser _ _ _ db) (ws_id w) userId)
        with (memberCount db (ws_id w) userId). lia.
    - split_and!; [|done|by eexists].
      change (memberCount (updateUser _ _ _ ?d) (ws_id w) userId)
        with (memberCount d (ws_id w) userId).
      rewrite memberCount_addWorkspaceMember, Hzero. done. }
  exists (ws_id w), am, (updateUser (env_now env') userId ownerOnboarding db1).
  split_and!; [done| |done..].
  apply joinWorkspace_alreadyMember with token; [done..|by rewrite Hws|done|].
  rewrite Hcount. lia.
Qed.

Lemma joinWorkspace_idempotent_witness :
  ∃ db2,
    joinWorkspace Demo.env Demo.joinRequest Demo.db
    = (reply 201 {| jr_workspaceId := "w1"; jr_alreadyMember := None |},
       Demo.afterJoin)
    ∧ joinWorkspace Demo.env Demo.joinRequest Demo.afterJoin
      = (reply 200 {| jr_workspaceId := "w1"; jr_alreadyMember := Some true |}, db2)
    ∧ memberCount Demo.afterJoin "w1" "o2" = 1%nat
    ∧ memberCount db2 "w1" "o2" = 1%nat.
Proof.
  assert (joinWorkspace Demo.env Demo.joinRequest Demo.db
          = (reply 201 {| jr_workspaceId := "w1"; jr_alreadyMember := None |},
             Demo.afterJoin)) as Hjoin by (by vm_compute).
  destruct (joinWorkspace_idempotent Demo.env Demo.env Demo.joinRequest Demo.db
              "o2" _ _ eq_refl Hjoin (or_intror eq_refl))
    as (wsid & am & db2 & Hbody & Hsecond & _ & Hc1 & Hc2).
  injection Hbody as <- <-.
  exists db2. split_and!; [exact Hjoin|exact Hsecond| |].
  - rewrite Hc1. reflexivity.
  - rewrite Hc2, Hc1. reflexivity.
Defined.

(** C7. Every join that succeeds, by a new member or by a user who was a
    member already, leaves the row of the joining user with role OWNER and
    with onboardingComplete false (its other columns are kept, but for the
    update time). *)
Theorem joinWorkspace_owner_onboarding env (req : Request (option string)) db
    userId u r db' :
  getUserId req = Some userId →
  getUser db userId = Some u →
  joinWorkspace env req db = (r, db') →
  joined r →
  getUser db' userId = Some (setUser ownerOnboarding (env_now env) u)
  ∧ user_role (setUser ownerOnboarding (env_now env) u) = Some "OWNER"
  ∧ user_onboardingComplete (setUser ownerOnboarding (env_now env) u) = false.
Proof.
  intros Huser Hu Hjoin Hok. split; [|done].
  destruct (joinWorkspace_joined _ _ _ _ _ _ Huser Hjoin Hok)
    as (token & w & _ & _ & _ & [(_ & _ & ->)|(_ & _ & ->)]);
    rewrite getUser_updateUser.
  - by rewrite Hu.
  - change (getUser (addWorkspaceMember _ _ _ _ _ db) userId)
      with (getUser db userId). by rewrite Hu.
Qed.

Lemma joinWorkspace_owner_onboarding_witness :
  getUser Demo.afterJoin "o2"
  = Some (setUser ownerOnboarding (env_now Demo.env) Demo.james)
  ∧ user_role (setUser ownerOnboarding (env_now Demo.env) Demo.james) = Some "OWNER"
  ∧ user_onboardingComplete (setUser ownerOnboarding (env_now Demo.env) Demo.james)
    = false.
Proof.
  apply (joinWorkspace_owner_onboarding Demo.env Demo.joinRequest Demo.db "o2"
           Demo.james (fst (joinWorkspace Demo.env Demo.joinRequest Demo.db))).
  - reflexivity.
  - by vm_compute.
  - by vm_compute.
  - right. by vm_compute.
Defined.

(** ** Submissions *)
Lemma createMedia_homeworkSubmissions env n submissionId media db :
  homeworkSubmissions (createMedia env n submissionId media db)
  = homeworkSubmissions db.
Proof.
  revert n db. induction media as [|m media IH]; intros n db; [done|].
  simpl. by rewrite IH.
Qed.

(** C5. A submission against a task that is not active is refused with a
    status of the 400 class and the database is left as it is: the status is
    400 for a requester with the owner (or admin) role, and 403 for any
    other, who is stopped before the task is looked at. A submission by an
    owner against an active task of one of their own pets is answered 201 and
    adds one submission row, for that task and that user. *)
Theorem createSubmission_active_only env (req : Request SubmissionBody) db t :
  getTask db (sb_taskId (req_body req)) = Some t →
  (task_isActive t = false →
   ∃ r, createSubmissionHandler env req db = (r, db)
        ∧ (status r = 400 ∨ status r = 403)
        ∧ (∀ user, requireOwner (A:=option HomeworkSubmissionWithRelations) db req
                   = inr user → status r = 400))
  ∧ (task_isActive t = true →
     ∀ user pet,
       requireOwner (A:=option HomeworkSubmissionWithRelations) db req = inr user →
       getPet db (task_petId t) = Some pet →
       pet_ownerId pet = user_id user →
       ∃ r db' row,
         createSubmissionHandler env req db = (r, db')
         ∧ status r = 201
         ∧ homeworkSubmissions db' = homeworkSubmissions db ++ [row]
         ∧ sub_taskId row = task_id t
         ∧ sub_submittedByUserId row = user_id user).
Proof.
  intros Ht. unfold createSubmissionHandler. split.
  - intros Hclosed.
    destruct (requireOwner db req) as [forbidden|user] eqn:Hreq.
    + exists forbidden. split_and!; [done| |done].
      right. unfold requireOwner in Hreq.
      destruct (getUserWithRole db req); [case_decide|]; by simplify_eq.
    + rewrite Ht, Hclosed. simpl. eexists. split_and!; [done|by left|done].
  - intros Hopen user pet Hreq Hpet Howner.
    assert (task_id t = sb_taskId (req_body req)) as Hid
      by (by apply findFirst_Some in Ht as [_ ?]).
    rewrite Hreq, Ht, Hopen, Hpet. simpl. rewrite decide_False by naive_solver.
    destruct (sb_media (req_body req)) as [media|]; do 3 eexists.
    all: split; [reflexivity|]; split; [done|].
    all: rewrite ?createMedia_homeworkSubmissions; simpl.
    all: split; [reflexivity|]; simpl; by rewrite Hid.
Qed.

Lemma createSubmission_active_only_witness :
  (∃ r, createSubmissionHandler Demo.env
          {| req_sub := Some "o1"; req_param := "";
             req_body := {| sb_taskId := "k2"; sb_note := None; sb_media := None |} |}
          Demo.db = (r, Demo.db)
        ∧ status r = 400)
  ∧ (∃ r db' row,
       createSubmissionHandler Demo.env
         {| req_sub := Some "o1"; req_param := "";
            req_body := {| sb_taskId := "k1"; sb_note := Some "Done";
                           sb_media := None |} |}
         Demo.db = (r, db')
       ∧ status r = 201
       ∧ homeworkSubmissions db' = homeworkSubmissions Demo.db ++ [row]).
Proof.
  split.
  - destruct (proj1 (createSubmission_active_only Demo.env
                       {| req_sub := Some "o1"; req_param := "";
                          req_body := {| sb_taskId := "k2"; sb_note := None;
                                         sb_media := None |} |}
                       Demo.db Demo.looseLeash eq_refl) eq_refl)
      as (r & Hrun & _ & Hstatus).
    exists r. split; [exact Hrun|]. apply (Hstatus Demo.emily). by vm_compute.
  - destruct (proj2 (createSubmission_active_only Demo.env
                       {| req_sub := Some "o1"; req_param := "";
                          req_body := {| sb_taskId := "k1"; sb_note := Some "Done";
                                         sb_media := None |} |}
                       Demo.db Demo.sitStay eq_refl) eq_refl Demo.emily Demo.buddy
                ltac:(by vm_compute) eq_refl eq_refl)
      as (r & db' & row & Hrun & Hstatus & Hrows & _).
    by exists r, db', row.
Defined.

(** ** Preferred days *)
Lemma forallb_includesDay (l : list JS.json) :
  forallb includesDay l = true
  ↔ ∃ days, l = JS.JString <$> days ∧ Forall (λ d, d ∈ validDays) days.
Proof.
  induction l as [|d l IH]; simpl.
  - split; [|done]. intros _. by exists [].
  - rewrite andb_true_iff, IH. split.
    + intros [Hd (days & -> & Hdays)]. destruct d as [| | | |s|]; try done.
      simpl in Hd. apply bool_decide_eq_true in Hd.
      exists (s :: days). split; [done|by constructor].
    + intros ([|s days] & Heq & Hdays); [done|].
      injection Heq as -> ->. apply Forall_cons in Hdays as [Hs Hdays].
      split; [by apply bool_decide_eq_true|by exists days].
Qed.

Lemma dayNames_strings days : dayNames (JS.JString <$> days) = days.
Proof.
  induction days as [|d days IH]; [done|].
  change (dayNames (JS.JString <$> d :: days))
    with (d :: dayNames (JS.JString <$> days)).
  by rewrite IH.
Qed.

Lemma storedDays_strings days :
  storedDays (JS.JArray (JS.JString <$> days)) = persistedDays days.
Proof.
  destruct days as [|d days]; [done|].
  unfold storedDays, persistedDays. rewrite fmap_cons.
  by rewrite <- fmap_cons, dayNames_strings.
Qed.

Lemma getTask_updateTask id days db :
  getTask (snd (updateTask id (setPreferredDays days) db)) id
  = setPreferredDays days <$> getTask db id.
Proof.
  unfold getTask, updateTask. simpl.
  by apply (findFirst_updateRows (λ t, task_id t = id)).
Qed.

(** C10. For a request by the owner of the pet of the task, or by an admin:
    a value that is neither [null] nor an array whose elements all are one of
    Mon, Tue, Wed, Thu, Fri, Sat, Sun is refused with 400 and the database is
    left as it is; [null] and the empty array are stored as null, and an
    accepted array that is not empty is stored as it was given. *)
Theorem setTaskPreferredDays_validates (req : Request JS.json) db user t pet :
  getUserWithRole db req = Some user →
  getTask db (req_param req) = Some t →
  getPet db (task_petId t) = Some pet →
  pet_ownerId pet = user_id user ∨ user_role user = Some "ADMIN" →
  (¬ acceptableDays (req_body req) →
   setTaskPreferredDays req db = (fail 400 "Invalid preferred days", db))
  ∧ (∀ stored,
       req_body req = JS.JNull ∧ stored = None
       ∨ (∃ days, req_body req = JS.JArray (JS.JString <$> days)
                  ∧ Forall (λ d, d ∈ validDays) days
                  ∧ stored = persistedDays days) →
       ∃ db',
         setTaskPreferredDays req db
         = (reply 200 (Some (setPreferredDays stored t)), db')
         ∧ getTask db' (req_param req) = Some (setPreferredDays stored t)
         ∧ task_preferredDays (setPreferredDays stored t) = stored).
Proof.
  intros Huser Ht Hpet Hauth. unfold setTaskPreferredDays.
  rewrite Huser, Ht, Hpet.
  rewrite decide_False by (intros [? ?]; destruct Hauth; done). split.
  - intros Hbad. destruct (req_body req) as [| | | | |l] eqn:Hbody; try done.
    + destruct Hbad. by left.
    + destruct (forallb includesDay l) eqn:Hl; [|done].
      apply forallb_includesDay in Hl as (days & -> & Hdays).
      destruct Hbad. right. by exists days.
  - intros stored [[Hbody ->]|(days & Hbody & Hdays & ->)]; rewrite Hbody.
    + exists (snd (updateTask (req_param req) (setPreferredDays None) db)).
      split_and!; [|by rewrite getTask_updateTask, Ht|done].
      unfold updateTask. by rewrite Ht.
    + rewrite (proj2 (forallb_includesDay _)) by by exists days.
      simpl negb. cbv iota. rewrite storedDays_strings.
      exists (snd (updateTask (req_param req)
                     (setPreferredDays (persistedDays days)) db)).
      split_and!; [|by rewrite getTask_updateTask, Ht|done].
      unfold updateTask. by rewrite Ht.
Qed.

Lemma setTaskPreferredDays_validates_witness :
  setTaskPreferredDays (Demo.daysRequest (JS.JArray [JS.JString "Monday"])) Demo.db
  = (fail 400 "Invalid preferred days", Demo.db)
  ∧ ∃ db',
      setTaskPreferredDays
        (Demo.daysRequest (JS.JArray (JS.JString <$> ["Tue"; "Sat"]))) Demo.db
      = (reply 200 (Some (setPreferredDays (Some ["Tue"; "Sat"]) Demo.sitStay)), db')
      ∧ getTask db' "k1" = Some (setPreferredDays (Some ["Tue"; "Sat"]) Demo.sitStay).
Proof.
  split.
  - apply (proj1 (setTaskPreferredDays_validates
                    (Demo.daysRequest (JS.JArray [JS.JString "Monday"]))
                    Demo.db Demo.emily Demo.sitStay Demo.buddy
                    ltac:(by vm_compute) eq_refl eq_refl (or_introl eq_refl))).
    intros [Hnull|(days & Hdays & Hvalid)]; [done|].
    destruct days as [|d [|? ?]]; try done. injection Hdays as <-.
    apply Forall_cons in Hvalid as [Hd _].
    apply (bool_decide_pack _) in Hd. by vm_compute in Hd.
  - destruct (proj2 (setTaskPreferredDays_validates
                       (Demo.daysRequest (JS.JArray (JS.JString <$> ["Tue"; "Sat"])))
                       Demo.db Demo.emily Demo.sitStay Demo.buddy
                       ltac:(by vm_compute) eq_refl eq_refl (or_introl eq_refl))
                (Some ["Tue"; "Sat"])) as (db' & Hrun & Hget & _).
    + right. exists ["Tue"; "Sat"]. split_and!; [done| |done].
      apply (bool_decide_unpack _). by vm_compute.
    + by exists db'.
Defined.







Lemma findFirst_filter {A} (P : A → Prop) `{!∀ x, Decision (P x)} (l : list A) :
  findFirst P l = head (filter P l).
Proof.
  induction l as [|x l IH]; [done|]. rewrite findFirst_cons, filter_cons.
  by case_decide.
Qed.

Lemma filter_updateRows {A} (P Q : A → Prop) `{!∀ x, Decision (P x)}
    `{!∀ x, Decision (Q x)} (f : A → A) (l : list A) :
  (∀ x, P (f x) ↔ P x) →
  length (filter P (updateRows Q f l)) = length (filter P l).
Proof.
  intros Hf. unfold updateRows. induction l as [|x l IH]; [done|].
  rewrite fmap_cons, !filter_cons.
  destruct (decide (Q x)); [destruct (decide (P x))|].
  - rewrite decide_True by by apply Hf. simpl. by rewrite IH.
  - rewrite decide_False by by rewrite Hf. done.
  - case_decide; simpl; by rewrite IH.
Qed.





Lemma Demo_framedName_trimmed : trimmed Demo.framedName "Sarah Johnson".
Proof.
  replace "Sarah Johnson" with (JS.trim Demo.framedName) by by vm_compute.
  apply trimmed_trim.
Qed.


(** The workspace made for the new trainer carries the token drawn for the
    request, and the trainer is its first member. *)
Example trainerProfile_new_workspace :
  let db' := snd (trainerProfile Demo.env (Demo.profileRequest Demo.framedName)
                    Demo.db) in
  ws_inviteToken <$> trainerWorkspaces db' "o2" = [env_inviteToken Demo.env]
  ∧ ws_businessName <$> trainerWorkspaces db' "o2" = [Some "Good Dog"]
  ∧ ws_bio <$> trainerWorkspaces db' "o2" = [None]
  ∧ memberCount db' "uuid-0" "o2" = 1%nat.
Proof. by vm_compute. Qed.


(** A display name of white space alone, here U+00A0 and U+3000, is refused
    and nothing is written. *)
Example trainerProfile_blank_name :
  trainerProfile Demo.env
    (Demo.profileRequest (JS.utf8 [194; 160; 227; 128; 128]%nat)) Demo.db
  = (fail 400 "Display name is required", Demo.db).
Proof. by vm_compute. Qed.

Example trainerProfile_tabbed_name :
  firstToken (JS.trim Demo.tabbedName) = "Sarah"
  ∧ user_firstName
      <$> getUser (snd (trainerProfile Demo.env
                          (Demo.profileRequest Demo.tabbedName) Demo.db)) "o2"
    = Some (Some Demo.tabbedName)
  ∧ user_lastName
      <$> getUser (snd (trainerProfile Demo.env
                          (Demo.profileRequest Demo.tabbedName) Demo.db)) "o2"
    = Some None.
Proof. by vm_compute. Qed.

(** * Further properties *)

(** ** Roles *)
Lemma getUser_setUsers_alter f id db id' :
  getUser (setUsers (alter f id (users db)) db) id'
  = if decide (id = id') then f <$> getUser db id' else getUser db id'.
Proof.
  unfold getUser. simpl. rewrite lookup_alter. by case_decide; subst.
Qed.

(** X1. [POST /api/auth/role] changes at most the row of the requester,
    and in it only the role, which it sets to TRAINER or OWNER: no request
    makes a user an admin who was not one. *)
Theorem setRoleHandler_own_role_only (req : Request (option string)) db r db' :
  setRoleHandler req db = (r, db') →
  (∀ id,
     getUser db' id = getUser db id
     ∨ ∃ u role,
         getUserId req = Some id
         ∧ req_body req = Some role
         ∧ (role = "TRAINER" ∨ role = "OWNER")
         ∧ getUser db id = Some u
         ∧ getUser db' id = Some (setRole role u)
         ∧ r = reply 200 (setRole role u))
  ∧ (∀ id u', getUser db' id = Some u' → user_role u' = Some "ADMIN" →
       ∃ u, getUser db id = Some u ∧ user_role u = Some "ADMIN").
Proof.
  intros Hrun.
  assert (∀ id,
     getUser db' id = getUser db id
     ∨ ∃ u role,
         getUserId req = Some id
         ∧ req_body req = Some role
         ∧ (role = "TRAINER" ∨ role = "OWNER")
         ∧ getUser db id = Some u
         ∧ getUser db' id = Some (setRole role u)
         ∧ r = reply 200 (setRole role u)) as Hrows.
  { intros id. unfold setRoleHandler in Hrun.
    destruct (getUserId req) as [userId|] eqn:Huser; [|left; by simplify_eq].
    destruct (req_body req) as [role|] eqn:Hrole; [|left; by simplify_eq].
    case_decide as Hbad; [left; by simplify_eq|].
    assert (role = "TRAINER" ∨ role = "OWNER") as Hgood.
    { destruct (decide (role = "TRAINER")); [by left|].
      destruct (decide (role = "OWNER")); [by right|]. by destruct Hbad. }
    unfold updateUserRole in Hrun.
    destruct (getUser db userId) as [u|] eqn:Hu; simpl in Hrun;
      injection Hrun as <- <-; rewrite getUser_setUsers_alter;
      case_decide as Hid; try (by left); subst id; rewrite Hu; simpl.
    - right. by exists u, role.
    - by left. }
  split; [exact Hrows|]. intros id u' Hu' Hadmin.
  destruct (Hrows id) as [Hsame|(u & role & _ & _ & Hrole & _ & Hnew & _)].
  - exists u'. by rewrite <- Hsame.
  - rewrite Hu' in Hnew. injection Hnew as ->. simpl in Hadmin.
    destruct Hrole as [-> | ->]; done.
Qed.

(** ** Workspaces *)
Lemma findFirst_app {A} (P : A → Prop) `{!∀ x, Decision (P x)} (l k : list A) :
  findFirst P (l ++ k)
  = match findFirst P l with Some x => Some x | None => findFirst P k end.
Proof.
  induction l as [|x l IH]; [done|]. simpl app. rewrite !findFirst_cons.
  by case_decide.
Qed.

Lemma findFirst_None_filter {A} (P : A → Prop) `{!∀ x, Decision (P x)}
    (l : list A) :
  findFirst P l = None ↔ filter P l = [].
Proof. rewrite findFirst_filter. by destruct (filter P l). Qed.

Lemma getWorkspaceByTrainer_row db trainerId :
  wr_row <$> getWorkspaceByTrainer db trainerId
  = head (trainerWorkspaces db trainerId).
Proof.
  unfold getWorkspaceByTrainer, trainerWorkspaces.
  rewrite <- findFirst_filter. by destruct (findFirst _ _).
Qed.



(** ** Invite links *)
Lemma getInvite_workspace (req : Request unit) db inv db' :
  getInvite req db = (reply 200 inv, db') →
  ∃ userId w,
    getUserId req = Some userId
    ∧ db' = db
    ∧ w ∈ workspaces db
    ∧ ws_trainerUserId w = userId
    ∧ inv = {| ir_inviteToken := ws_inviteToken w;
               ir_workspaceId := ws_id w;
               ir_businessName := ws_businessName w |}.
Proof.
  unfold getInvite, getWorkspaceByTrainer.
  destruct (getUserId req) as [userId|]; [|done].
  destruct (findFirst _ (workspaces db)) as [w|] eqn:Hw; [|done].
  simpl. intros [= <- <-]. apply findFirst_Some in Hw as [Hin Htrainer].
  by exists userId, w.
Qed.

(** X3. The link a trainer is given validates: with unique invite tokens,
    the token answered by [GET /api/workspaces/invite] is answered by
    [GET /api/workspaces/validate/:token] with the same workspace id and
    business name, and with the name of the trainer who asked: their first
    and last name with a space between (a missing name being empty),
    without the white space at its two ends. *)
Theorem getInvite_validateToken (req req' : Request unit) db inv db' :
  uniqueTokens db →
  getInvite req db = (reply 200 inv, db') →
  req_param req' = ir_inviteToken inv →
  ∃ trainerId name,
    getUserId req = Some trainerId
    ∧ trimmed (namesOf (getUser db trainerId)) name
    ∧ validateToken req' db
      = (reply 200
           {| vr_workspaceId := ir_workspaceId inv;
              vr_trainerName := name;
              vr_businessName := ir_businessName inv |},
         db).
Proof.
  intros Huniq Hinv Hparam.
  apply getInvite_workspace in Hinv as (userId & w & Huser & _ & Hw & Ht & ->).
  exists userId, (trainerName (getUser db userId)).
  split_and!; [done|apply trainerName_trimmed|].
  unfold validateToken. simpl in Hparam.
  rewrite Hparam, getWorkspaceByToken_unique by done. simpl. by rewrite Ht.
Qed.

(** X4. The link a trainer is given admits others: any other signed-in user
    who has a row in [users] (the membership refers to it) and posts the
    token of [GET /api/workspaces/invite] (not empty, tokens unique) to
    [POST /api/workspaces/join] is answered 200 or 201 for the workspace of
    the link and is a member of it afterwards. *)
Theorem getInvite_joinWorkspace env (req : Request unit)
    (req' : Request (option string)) db inv db0 userId :
  uniqueTokens db →
  getInvite req db = (reply 200 inv, db0) →
  ir_inviteToken inv ≠ "" →
  req_body req' = Some (ir_inviteToken inv) →
  getUserId req' = Some userId →
  is_Some (getUser db userId) →
  getUserId req ≠ Some userId →
  ∃ alreadyMember db',
    joinWorkspace env req' db
    = ({| status := if alreadyMember is Some _ then 200 else 201;
          body := Json {| jr_workspaceId := ir_workspaceId inv;
                          jr_alreadyMember := alreadyMember |} |},
       db')
    ∧ (0 < memberCount db' (ir_workspaceId inv) userId)%nat.
Proof.
  intros Huniq Hinv Hne Hbody Huser _ Hother.
  apply getInvite_workspace in Hinv as (trainerId & w & Htrainer & _ & Hw & Ht & ->).
  simpl in *. unfold joinWorkspace. rewrite Huser, Hbody.
  destruct (ws_inviteToken w) as [|c token] eqn:Htoken; [done|].
  simpl JS.orNull. cbv iota. rewrite <- Htoken.
  rewrite getWorkspaceByToken_unique by done. simpl.
  rewrite decide_False by congruence.
  case_bool_decide as Hmember.
  - exists (Some true), (updateUser (env_now env) userId ownerOnboarding db).
    split; [done|]. by apply memberCount_pos.
  - eexists None, _. split; [done|].
    change (memberCount (updateUser _ _ _ ?d) (ws_id w) userId)
      with (memberCount d (ws_id w) userId).
    rewrite memberCount_addWorkspaceMember. lia.
Qed.


(** ** What the workspace routes keep *)
Lemma createWorkspaceHandler_step env (req : Request unit) db :
  workspaceStep env db (snd (createWorkspaceHandler env req db)).
Proof.
  unfold createWorkspaceHandler.
  destruct (getUserId req) as [userId|]; [|by left].
  pose proof (getWorkspaceByTrainer_row db userId) as Hrow.
  destruct (getWorkspaceByTrainer db userId) as [w|]; [by left|].
  right. left. simpl in *.
  eexists (Build_Workspace _ _ _ _ _ _), (Build_WorkspaceMember _ _ _ _ _).
  split_and!; [|reflexivity..]; simpl.
  by destruct (trainerWorkspaces db userId).
Qed.

Lemma trainerProfile_step env (req : Request TrainerProfileBody) db :
  workspaceStep env db (snd (trainerProfile env req db)).
Proof.
  unfold trainerProfile.
  destruct (getUserId req) as [userId|]; [|by left].
  destruct (JS.orNull _) as [displayName|]; [|by left].
  case_decide; [by left|]. cbv zeta.
  set (db1 := updateUser _ _ _ db).
  pose proof (getWorkspaceByTrainer_row db1 userId) as Hrow.
  change (trainerWorkspaces db1 userId) with (trainerWorkspaces db userId) in Hrow.
  destruct (getWorkspaceByTrainer db1 userId) as [w|].
  - do 2 right. left. by eexists _, _, _.
  - right. left. simpl in *.
    eexists (Build_Workspace _ _ _ _ _ _), (Build_WorkspaceMember _ _ _ _ _).
    split_and!; [|reflexivity..]; simpl.
    by destruct (trainerWorkspaces db userId).
Qed.

Lemma joinWorkspace_step env (req : Request (option string)) db :
  workspaceStep env db (snd (joinWorkspace env req db)).
Proof.
  unfold joinWorkspace.
  destruct (getUserId req) as [userId|]; [|by left].
  destruct (JS.orNull _) as [token|]; [|by left].
  destruct (getWorkspaceByToken db token) as [w|]; [|by left].
  case_decide; [by left|]. case_bool_decide as Hmember; [by left|].
  do 3 right. eexists (Build_WorkspaceMember _ _ _ _ _).
  split_and!; [|reflexivity..]. simpl.
  rewrite <- memberCount_pos in Hmember. lia.
Qed.

Section step_facts.
Context (env : Env) (db db' : Db) (Hstep : workspaceStep env db db').

Lemma step_oneWorkspacePerTrainer :
  oneWorkspacePerTrainer db → oneWorkspacePerTrainer db'.
Proof using Hstep.
  intros Hone t. specialize (Hone t).
  destruct Hstep as [[Hws _]|[(w & m & Hnone & _ & _ & _ & _ & _ & Hws & _)
                     |[(id & bn & bio & Hws & _)|(m & _ & Hws & _)]]];
    unfold trainerWorkspaces in *; rewrite Hws; [done| | |done].
  - rewrite filter_app, length_app, filter_cons, filter_nil.
    case_decide as Ht; simpl; [|lia]. subst t. rewrite Hnone. simpl. lia.
  - by rewrite filter_updateRows.
Qed.

Lemma step_trainersAreMembers :
  trainersAreMembers db → trainersAreMembers db'.
Proof using Hstep.
  intros Hmem w' Hw'.
  destruct Hstep as [[Hws Hms]|[(w & m & _ & _ & _ & Hm1 & Hm2 & Hm3 & Hws & Hms)
                     |[(id & bn & bio & Hws & Hms)|(m & _ & Hws & Hms)]]];
    rewrite Hws in Hw'; rewrite Hms.
  - by apply Hmem.
  - apply elem_of_app in Hw' as [Hold|Hnew%list_elem_of_singleton].
    + destruct (Hmem _ Hold) as (m0 & Hin & ?). exists m0.
      split; [|done]. apply elem_of_app. by left.
    + subst w'. exists m. split; [|done]. apply elem_of_app. right.
      by apply list_elem_of_singleton.
  - unfold updateRows in Hw'.
    apply list_elem_of_fmap in Hw' as (w & -> & Hw).
    destruct (Hmem _ Hw) as (m0 & Hin & ? & ? & ?). exists m0.
    by case_decide.
  - destruct (Hmem _ Hw') as (m0 & Hin & ?). exists m0.
    split; [|done]. apply elem_of_app. by left.
Qed.

Lemma step_oneMembershipPerPair :
  env_uuid env 0 ∉ wm_workspaceId <$> workspaceMembers db →
  oneMembershipPerPair db → oneMembershipPerPair db'.
Proof using Hstep.
  intros Hfresh Hone wid uid. specialize (Hone wid uid).
  unfold memberCount in *.
  destruct Hstep as [[_ ->]|[(w & m & _ & Hid & _ & Hm1 & Hm2 & _ & _ & ->)
                     |[(id & bn & bio & _ & ->)|(m & Hzero & _ & ->)]]];
    [done| |done|].
  - rewrite filter_app, length_app, filter_cons, filter_nil.
    case_decide as Hpair; simpl; [|lia]. destruct Hpair as [<- <-].
    rewrite Hm1, Hid.
    rewrite (proj1 (findFirst_None_filter _ _)); [simpl; lia|].
    apply findFirst_None. intros m0 Hin [Hw _]. apply Hfresh.
    rewrite <- Hw. by apply list_elem_of_fmap_2.
  - rewrite filter_app, length_app, filter_cons, filter_nil.
    case_decide as Hpair; simpl; [|lia]. destruct Hpair as [<- <-].
    unfold memberCount in Hzero. rewrite Hzero. simpl. lia.
Qed.

Lemma step_uniqueTokens :
  env_inviteToken env ∉ ws_inviteToken <$> workspaces db →
  uniqueTokens db → uniqueTokens db'.
Proof using Hstep.
  unfold uniqueTokens. intros Hfresh Huniq.
  destruct Hstep as [[-> _]|[(w & m & _ & _ & Htok & _ & _ & _ & -> & _)
                     |[(id & bn & bio & -> & _)|(m & _ & -> & _)]]];
    [done| | |done].
  - rewrite fmap_app. apply NoDup_app. split_and!; [done| |].
    + intros token Hin [->|[]%elem_of_nil]%elem_of_cons. by rewrite Htok in Hin.
    + apply NoDup_singleton.
  - unfold updateRows. rewrite <- list_fmap_compose.
    erewrite list_fmap_ext; [exact Huniq|].
    intros i w _. simpl. by case_decide.
Qed.
End step_facts.

(** X5. A trainer never has two workspaces: [POST /api/workspaces/create],
    [POST /api/workspaces/trainer-profile] and [POST /api/workspaces/join]
    keep the number of workspaces of every trainer at one at most. *)
Theorem oneWorkspacePerTrainer_kept env db :
  oneWorkspacePerTrainer db →
  (∀ req, oneWorkspacePerTrainer (snd (createWorkspaceHandler env req db)))
  ∧ (∀ req, oneWorkspacePerTrainer (snd (trainerProfile env req db)))
  ∧ (∀ req, oneWorkspacePerTrainer (snd (joinWorkspace env req db))).
Proof.
  intros Hone. split_and!; intros req;
    eapply step_oneWorkspacePerTrainer; eauto
      using createWorkspaceHandler_step, trainerProfile_step, joinWorkspace_step.
Qed.

(** X6. The trainer of every workspace stays a member of it with role
    TRAINER through the three routes that write workspaces and members. *)
Theorem trainersAreMembers_kept env db :
  trainersAreMembers db →
  (∀ req, trainersAreMembers (snd (createWorkspaceHandler env req db)))
  ∧ (∀ req, trainersAreMembers (snd (trainerProfile env req db)))
  ∧ (∀ req, trainersAreMembers (snd (joinWorkspace env req db))).
Proof.
  intros Hmem. split_and!; intros req;
    eapply step_trainersAreMembers; eauto
      using createWorkspaceHandler_step, trainerProfile_step, joinWorkspace_step.
Qed.

(** X7. No (workspace, user) pair gets a second membership row through these
    routes, when the identifier drawn for a new workspace is not that of a
    workspace that has members already. *)
Theorem oneMembershipPerPair_kept env db :
  env_uuid env 0 ∉ wm_workspaceId <$> workspaceMembers db →
  oneMembershipPerPair db →
  (∀ req, oneMembershipPerPair (snd (createWorkspaceHandler env req db)))
  ∧ (∀ req, oneMembershipPerPair (snd (trainerProfile env req db)))
  ∧ (∀ req, oneMembershipPerPair (snd (joinWorkspace env req db))).
Proof.
  intros Hfresh Hone. split_and!; intros req;
    eapply step_oneMembershipPerPair; eauto
      using createWorkspaceHandler_step, trainerProfile_step, joinWorkspace_step.
Qed.

(** X8. Invite tokens stay unique through these routes, when the token
    drawn for a new workspace is not in use. *)
Theorem uniqueTokens_kept env db :
  env_inviteToken env ∉ ws_inviteToken <$> workspaces db →
  uniqueTokens db →
  (∀ req, uniqueTokens (snd (createWorkspaceHandler env req db)))
  ∧ (∀ req, uniqueTokens (snd (trainerProfile env req db)))
  ∧ (∀ req, uniqueTokens (snd (joinWorkspace env req db))).
Proof.
  intros Hfresh Huniq. split_and!; intros req;
    eapply step_uniqueTokens; eauto
      using createWorkspaceHandler_step, trainerProfile_step, joinWorkspace_step.
Qed.



(** Sarah, of two names, and the trainer of one name, who is not answered
    with a space after it. *)
Lemma getInvite_validateToken_witness :
  validateToken
    {| req_sub := None; req_param := ws_inviteToken Demo.studio; req_body := () |}
    Demo.db
  = (reply 200
       {| vr_workspaceId := "w1"; vr_trainerName := "Sarah Johnson";
          vr_businessName := Some "Happy Paws" |},
     Demo.db)
  ∧ validateToken
      {| req_sub := None; req_param := env_inviteToken Demo.env; req_body := () |}
      Demo.oneName
    = (reply 200
         {| vr_workspaceId := "uuid-0"; vr_trainerName := "Cher";
            vr_businessName := Some "Good Dog" |},
       Demo.oneName).
Proof.
  split.
  - destruct (getInvite_validateToken
                {| req_sub := Some "t1"; req_param := ""; req_body := () |}
                {| req_sub := None; req_param := ws_inviteToken Demo.studio;
                   req_body := () |}
                Demo.db
                {| ir_inviteToken := ws_inviteToken Demo.studio;
                   ir_workspaceId := "w1"; ir_businessName := Some "Happy Paws" |}
                Demo.db Demo_uniqueTokens eq_refl eq_refl)
      as (trainerId & name & Htrainer & Hname & Hrun).
    injection Htrainer as <-. by rewrite (trimmed_unique _ _ Hname) in Hrun.
  - destruct (getInvite_validateToken
                {| req_sub := Some "o2"; req_param := ""; req_body := () |}
                {| req_sub := None; req_param := env_inviteToken Demo.env;
                   req_body := () |}
                Demo.oneName
                {| ir_inviteToken := env_inviteToken Demo.env;
                   ir_workspaceId := "uuid-0";
                   ir_businessName := Some "Good Dog" |}
                Demo.oneName Demo_oneName_uniqueTokens eq_refl eq_refl)
      as (trainerId & name & Htrainer & Hname & Hrun).
    injection Htrainer as <-. by rewrite (trimmed_unique _ _ Hname) in Hrun.
Defined.

Lemma getInvite_joinWorkspace_witness :
  ∃ alreadyMember db',
    joinWorkspace Demo.env Demo.joinRequest Demo.db
    = ({| status := if alreadyMember is Some _ then 200 else 201;
          body := Json {| jr_workspaceId := "w1";
                          jr_alreadyMember := alreadyMember |} |},
       db')
    ∧ (0 < memberCount db' "w1" "o2")%nat.
Proof.
  apply (getInvite_joinWorkspace Demo.env
           {| req_sub := Some "t1"; req_param := ""; req_body := () |}
           Demo.joinRequest Demo.db
           {| ir_inviteToken := ws_inviteToken Demo.studio;
              ir_workspaceId := "w1"; ir_businessName := Some "Happy Paws" |}
           Demo.db "o2" Demo_uniqueTokens eq_refl);
    [done|reflexivity|reflexivity|by exists Demo.james|done].
Defined.

Lemma Demo_oneWorkspacePerTrainer : oneWorkspacePerTrainer Demo.db.
Proof. intros t. etrans; [apply length_filter|]. simpl. lia. Qed.

Lemma Demo_trainersAreMembers : trainersAreMembers Demo.db.
Proof.
  intros w ->%list_elem_of_singleton. eexists. split; [apply list_elem_of_here|done].
Qed.

Lemma Demo_oneMembershipPerPair : oneMembershipPerPair Demo.db.
Proof. intros w u. etrans; [apply length_filter|]. simpl. lia. Qed.

Lemma oneWorkspacePerTrainer_kept_witness :
  oneWorkspacePerTrainer
    (snd (trainerProfile Demo.env (Demo.profileRequest "Sarah Johnson") Demo.db)).
Proof.
  apply (oneWorkspacePerTrainer_kept Demo.env Demo.db Demo_oneWorkspacePerTrainer).
Defined.

Lemma trainersAreMembers_kept_witness :
  trainersAreMembers
    (snd (trainerProfile Demo.env (Demo.profileRequest "Sarah Johnson") Demo.db)).
Proof.
  apply (trainersAreMembers_kept Demo.env Demo.db Demo_trainersAreMembers).
Defined.

Lemma oneMembershipPerPair_kept_witness :
  oneMembershipPerPair (snd (joinWorkspace Demo.env Demo.joinRequest Demo.db)).
Proof.
  apply (oneMembershipPerPair_kept Demo.env Demo.db).
  - apply (bool_decide_unpack _). by vm_compute.
  - exact Demo_oneMembershipPerPair.
Defined.

Lemma uniqueTokens_kept_witness :
  uniqueTokens
    (snd (trainerProfile Demo.env (Demo.profileRequest "Sarah Johnson") Demo.db)).
Proof.
  apply (uniqueTokens_kept Demo.env Demo.db).
  - apply (bool_decide_unpack _). by vm_compute.
  - exact Demo_uniqueTokens.
Defined.

(** X9. A join writes nothing but membership rows and the row of the user
    who joins: workspaces, pets, tasks, submissions, media and comments are
    as they were, and so is the row of every other user. *)
Theorem joinWorkspace_frame env (req : Request (option string)) db :
  sameRecords db (snd (joinWorkspace env req db))
  ∧ ∀ id, getUserId req ≠ Some id →
      getUser (snd (joinWorkspace env req db)) id = getUser db id.
Proof.
  unfold joinWorkspace.
  destruct (getUserId req) as [userId|]; [|done].
  destruct (JS.orNull _) as [token|]; [|done].
  destruct (getWorkspaceByToken db token) as [w|]; [|done].
  case_decide; [done|].
  case_bool_decide; (split; [done|]); intros id Hid; simpl;
    unfold getUser, updateUser; simpl; rewrite lookup_alter;
    rewrite decide_False by congruence; done.
Qed.


Lemma setRoleHandler_own_role_only_witness :
  getUser
    (snd (setRoleHandler
            {| req_sub := Some "o2"; req_param := ""; req_body := Some "OWNER" |}
            Demo.db))
    "o1"
  = Some Demo.emily.
Proof.
  destruct (setRoleHandler_own_role_only
              {| req_sub := Some "o2"; req_param := ""; req_body := Some "OWNER" |}
              Demo.db
              (fst (setRoleHandler
                      {| req_sub := Some "o2"; req_param := "";
                         req_body := Some "OWNER" |} Demo.db))
              (snd (setRoleHandler
                      {| req_sub := Some "o2"; req_param := "";
                         req_body := Some "OWNER" |} Demo.db))
              ltac:(by vm_compute)) as [Hrows _].
  destruct (Hrows "o1") as [Hsame|(u & role & Hwho & _)].
  - etrans; [exact Hsame|]. by vm_compute.
  - by vm_compute in Hwho.
Defined.

(** ** Pets *)
Lemma orderByDesc_StronglySorted {A} (column : A → Z) rows :
  StronglySorted (λ a b, column b ≤ column a) (orderByDesc column rows).
Proof. by apply (sort_StronglySorted _ column). Qed.

Lemma filter_all {A} (P : A → Prop) `{!∀ x, Decision (P x)} (l : list A) :
  (∀ x, x ∈ l → P x) → filter P l = l.
Proof.
  induction l as [|x l IH]; [done|]. intros Hall.
  rewrite filter_cons, decide_True by apply Hall, list_elem_of_here.
  f_equal. apply IH. intros y Hy. by apply Hall, list_elem_of_further.
Qed.

(** X10. [GET /api/pets] answers a user with the pets visible to them, each
    once and latest first: every pet for an admin, the pets they train for a
    trainer, the pets they own for anyone else. *)
Theorem listPets_visible (req : Request unit) db user :
  getUserWithRole db req = Some user →
  ∃ shown,
    listPets req db = (reply 200 shown, db)
    ∧ shown ≡ₚ filter (visibleTo user) (pets db)
    ∧ StronglySorted (λ a b, pet_createdAt b ≤ pet_createdAt a) shown.
Proof.
  intros Huser. unfold listPets. rewrite Huser.
  eexists. split; [done|].
  destruct (decide (user_role user = Some "ADMIN")) as [Hadmin|Hadmin].
  - split; [|apply orderByDesc_StronglySorted].
    unfold getAllPets. rewrite orderByDesc_Permutation.
    rewrite filter_all; [done|]. intros; by left.
  - destruct (decide (user_role user = Some "TRAINER")) as [Htrainer|Htrainer];
      (split; [|apply orderByDesc_StronglySorted]).
    + unfold getPetsByTrainer. rewrite orderByDesc_Permutation.
      rewrite (list_filter_iff (visibleTo user)
                 (λ p, pet_trainerId p = Some (user_id user))); [done|].
      intros p. unfold visibleTo. tauto.
    + unfold getPetsByOwner. rewrite orderByDesc_Permutation.
      rewrite (list_filter_iff (visibleTo user)
                 (λ p, pet_ownerId p = user_id user)); [done|].
      intros p. unfold visibleTo. tauto.
Qed.

Lemma listPets_visible_witness :
  ∃ shown,
    listPets {| req_sub := Some "t1"; req_param := ""; req_body := () |} Demo.db
    = (reply 200 shown, Demo.db)
    ∧ shown ≡ₚ filter (visibleTo Demo.sarah) (pets Demo.db).
Proof.
  destruct (listPets_visible
              {| req_sub := Some "t1"; req_param := ""; req_body := () |}
              Demo.db Demo.sarah ltac:(by vm_compute))
    as (shown & Hrun & Hperm & _).
  by exists shown.
Defined.

(** X11. The three routes that read a pet agree on who may: for a pet that
    exists, [GET /api/pets/:id], [GET /api/tasks/:petId] and
    [GET /api/timeline/:petId] answer an admin, the owner and the trainer of
    the pet with the pet, its tasks and its timeline, answer anyone else
    with 403, and write nothing. *)
Theorem read_routes_agree (req : Request unit) db pet :
  getPet db (req_param req) = Some pet →
  req_param req ≠ "" →
  (mayRead (getUserWithRole db req) pet →
   getPetHandler req db = (reply 200 pet, db)
   ∧ listTasks req db = (reply 200 (getTasksByPet db (req_param req)), db)
   ∧ timelineHandler req db = (reply 200 (getTimeline db (req_param req)), db))
  ∧ (¬ mayRead (getUserWithRole db req) pet →
     getPetHandler req db = (fail 403 "Access denied", db)
     ∧ listTasks req db = (fail 403 "Access denied", db)
     ∧ timelineHandler req db = (fail 403 "Access denied", db)).
Proof.
  intros Hpet Hparam.
  assert (pet_id pet = req_param req) as Hid
    by (by apply findFirst_Some in Hpet as [_ ?]).
  unfold getPetHandler, listTasks, timelineHandler, mayRead.
  rewrite Hpet, decide_False by done. rewrite Hid.
  destruct (getUserWithRole db req) as [u|].
  - split.
    + intros (? & [= <-] & Hok).
      rewrite bool_decide_eq_true_2 by done. simpl.
      rewrite !decide_False
        by (intros (? & ? & ?); destruct Hok as [|[|]]; done).
      done.
    + intros Hno.
      rewrite bool_decide_eq_false_2 by (intros Hok; apply Hno; by exists u).
      simpl.
      rewrite !decide_True
        by (split_and!; intros ?; apply Hno; exists u; tauto).
      done.
  - split; [by intros (? & [=] & _)|done].
Qed.

Lemma read_routes_agree_witness :
  getPetHandler {| req_sub := Some "o1"; req_param := "p1"; req_body := () |} Demo.db
  = (reply 200 Demo.buddy, Demo.db)
  ∧ timelineHandler {| req_sub := Some "o2"; req_param := "p1"; req_body := () |}
      Demo.db
    = (fail 403 "Access denied", Demo.db).
Proof.
  split.
  - apply (read_routes_agree
             {| req_sub := Some "o1"; req_param := "p1"; req_body := () |}
             Demo.db Demo.buddy eq_refl ltac:(done)).
    exists Demo.emily. split; [by vm_compute|]. right. by left.
  - apply (read_routes_agree
             {| req_sub := Some "o2"; req_param := "p1"; req_body := () |}
             Demo.db Demo.buddy eq_refl ltac:(done)).
    intros (u & Hu & Hok). vm_compute in Hu. injection Hu as <-.
    destruct Hok as [Hok|[Hok|Hok]]; by vm_compute in Hok.
Defined.


Lemma requireOwner_inr {A B} (req : Request B) db user :
  requireOwner (A:=A) db req = inr user →
  ∃ userId,
    getUserId req = Some userId
    ∧ getUser db userId = Some user
    ∧ (user_role user = Some "OWNER" ∨ user_role user = Some "ADMIN").
Proof.
  unfold requireOwner, getUserWithRole.
  destruct (getUserId req) as [userId|]; [|done].
  destruct (getUser db userId) as [u|] eqn:Hu; [|done].
  case_decide; [|done]. intros [= <-]. by exists userId.
Qed.

Lemma getWorkspace_Some db id w :
  getWorkspace db id = Some w →
  wr_row w ∈ workspaces db ∧ ws_id (wr_row w) = id.
Proof.
  unfold getWorkspace. destruct (findFirst _ _) as [x|] eqn:Hx; [|done].
  intros [= <-]. simpl. by apply findFirst_Some in Hx.
Qed.

Lemma getWorkspaceByTrainer_Some db trainerId w :
  getWorkspaceByTrainer db trainerId = Some w →
  wr_row w ∈ workspaces db ∧ ws_trainerUserId (wr_row w) = trainerId.
Proof.
  unfold getWorkspaceByTrainer. destruct (findFirst _ _) as [x|] eqn:Hx; [|done].
  intros [= <-]. simpl. by apply findFirst_Some in Hx.
Qed.

(** What [resolveTrainer] resolves to. *)
Lemma resolveTrainer_source {A} db user b trainerId workspaceId pet :
  resolveTrainer (A:=A) db user b = inr (trainerId, workspaceId) →
  pet_trainerId pet = trainerId →
  pet_workspaceId pet = workspaceId →
  ∀ t, trainerId = Some t → trainerSource db pet t.
Proof.
  intros Hres Ht Hw t ->. unfold resolveTrainer in Hres. unfold trainerSource.
  destruct (JS.orNull (cp_workspaceId b)) as [wid|].
  { destruct (getWorkspace db wid) as [w|] eqn:Hget; [|done].
    injection Hres as <- <-. apply getWorkspace_Some in Hget as [Hin Hid].
    left. exists (wr_row w). by rewrite Hw, Hid. }
  destruct (JS.orNull (cp_trainerEmail b)) as [email|].
  { destruct (getUserByEmail db email) as [trainer|] eqn:Hfind; [|done].
    case_decide as Hrole; [done|]. right. exists trainer.
    apply findFirst_Some in Hfind as [Hin _].
    assert (user_role trainer = Some "TRAINER") as Hr
      by (destruct (decide (user_role trainer = Some "TRAINER")); done).
    destruct (getWorkspaceByTrainer db (user_id trainer));
      injection Hres as <- <-; done. }
  destruct (findFirst _ _) as [m|]; [|done].
  destruct (getWorkspace db (wm_workspaceId m)) as [w|] eqn:Hget; [|done].
  injection Hres as <- <-. apply getWorkspace_Some in Hget as [Hin Hid].
  left. exists (wr_row w). by rewrite Hw, Hid.
Qed.

(** X12. [POST /api/pets] either answers 201 or leaves the database as it
    is. On 201 one pet is added: it belongs to the requester; its trainer, if
    it has one, is the trainer of the workspace it is put in or a user with
    role TRAINER; the users and the workspace it refers to exist; and the
    requester has onboardingComplete true from then on. *)
Theorem createPetHandler_effects env (req : Request CreatePetBody) db r db' :
  usersKeyed db →
  createPetHandler env req db = (r, db') →
  (status r ≠ 201 → db' = db)
  ∧ (status r = 201 →
     ∃ user pet,
       requireOwner (A:=Pet) db req = inr user
       ∧ r = reply 201 pet
       ∧ pets db' = pets db ++ [pet]
       ∧ pet_id pet = env_uuid env 0
       ∧ pet_ownerId pet = user_id user
       ∧ (∀ t, pet_trainerId pet = Some t →
            trainerSource db pet t ∧ is_Some (getUser db t))
       ∧ (∀ w, pet_workspaceId pet = Some w →
            Exists (λ x, ws_id x = w) (workspaces db))
       ∧ ∃ u', getUser db' (user_id user) = Some u'
               ∧ user_onboardingComplete u' = true
               ∧ user_role u' = user_role user).
Proof.
  intros Hkeyed. unfold createPetHandler.
  destruct (requireOwner db req) as [forbidden|user] eqn:Hreq.
  { intros [= <- <-]. split; [done|]. intros Hs. unfold requireOwner in Hreq.
    destruct (getUserWithRole db req); [case_decide|]; by simplify_eq. }
  destruct (resolveTrainer db user (req_body req)) as [invalid|[tid wid]] eqn:Hres.
  { intros [= <- <-]. split; [done|]. intros Hs. unfold resolveTrainer in Hres.
    repeat case_match; by simplify_eq. }
  unfold createPet. case_decide as Hrefs; [|by intros [= <- <-]].
  set (pet := Build_Pet _ _ _ _ _ _ _ _ _ _ _).
  intros [= <- <-]. split; [done|]. intros _.
  apply requireOwner_inr in Hreq as (userId & Huid & Huser & Hrole).
  assert (user_id user = userId) as Hid by by apply Hkeyed.
  destruct Hrefs as (_ & Htrainer & Hworkspace). simpl in *.
  exists user, pet. split; [done|]. split; [done|].
  split; [by destruct (user_onboardingComplete user)|].
  split_and!; [done|done| | |].
  - intros t Ht. split; [|by apply Htrainer].
    by apply (resolveTrainer_source (A:=Pet) db user (req_body req) tid wid).
  - exact Hworkspace.
  - destruct (user_onboardingComplete user) eqn:Hdone; simpl.
    + exists user. by rewrite Hid.
    + rewrite getUser_updateUser.
      change (getUser (setPets _ db) (user_id user)) with (getUser db (user_id user)).
      rewrite Hid, Huser. by eexists.
Qed.


Lemma createPetHandler_effects_witness :
  ∃ pet db',
    createPetHandler Demo.env
      {| req_sub := Some "o1"; req_param := "";
         req_body := {| cp_name := "Luna"; cp_species := Some "Siamese Cat";
                        cp_trainerEmail := Some "sarah.trainer@pawsync.demo";
                        cp_workspaceId := None |} |}
      Demo.db
    = (reply 201 pet, db')
    ∧ pets db' = pets Demo.db ++ [pet]
    ∧ pet_ownerId pet = "o1".
Proof.
  assert (usersKeyed Demo.db) as Hkeyed.
  { intros id u Hu. unfold Demo.db in Hu. simpl in Hu.
    repeat (apply lookup_insert_Some in Hu as [[<- <-]|[_ Hu]]; [done|]).
    by apply lookup_empty_Some in Hu. }
  destruct (createPetHandler Demo.env _ Demo.db) as [r db'] eqn:Hrun.
  destruct (createPetHandler_effects Demo.env _ Demo.db r db' Hkeyed Hrun)
    as [_ Hok].
  assert (status r = 201) as Hs by (vm_compute in Hrun; by injection Hrun as <- _).
  destruct (Hok Hs) as (user & pet & Hreq & -> & Hpets & _ & Howner & _).
  exists pet, db'. split_and!; [done|done|].
  rewrite Howner. vm_compute in Hreq. by injection Hreq as <-.
Defined.

(** ** From the invite link to the dashboard *)
Lemma joinWorkspace_new_member env (req : Request (option string)) db userId w :
  uniqueTokens db →
  w ∈ workspaces db →
  getUserId req = Some userId →
  JS.orNull (req_body req) = Some (ws_inviteToken w) →
  ws_trainerUserId w ≠ userId →
  getUserWorkspaces db userId = [] →
  joinWorkspace env req db
  = (reply 201 {| jr_workspaceId := ws_id w; jr_alreadyMember := None |},
     updateUser (env_now env) userId ownerOnboarding
       (addWorkspaceMember (env_now env) (env_uuid env 0) (ws_id w) userId
          "OWNER" db)).
Proof.
  intros Huniq Hw Huser Htoken Hself Hnone. unfold joinWorkspace.
  rewrite Huser, Htoken, getWorkspaceByToken_unique by done. simpl.
  rewrite decide_False by done.
  rewrite bool_decide_eq_false_2; [done|].
  intros (m & [_ Hm]%list_elem_of_filter & Hu)%Exists_exists.
  assert (m ∈ getUserWorkspaces db userId) as Hin
    by by apply list_elem_of_filter.
  rewrite Hnone in Hin. by apply elem_of_nil in Hin.
Qed.

Lemma AuthenticatedRoutes_owner_onboarding matches user location :
  user_role user = Some "OWNER" →
  user_onboardingComplete user = false →
  AuthenticatedRoutes matches false (Some user) location = Some AddPet.
Proof.
  intros Hrole Hdone. unfold AuthenticatedRoutes. rewrite Hrole, Hdone. simpl.
  by destruct (matches "/pets/new" location).
Qed.

Lemma AuthenticatedRoutes_onboarded matches user location :
  user_onboardingComplete user = true →
  AuthenticatedRoutes matches false (Some user) location
  = switch matches appRoutes location.
Proof.
  intros Hdone. unfold AuthenticatedRoutes. rewrite Hdone. simpl.
  by rewrite !andb_false_r.
Qed.

(** X13. The way of an owner from the invite link to the dashboard. A
    signed-in user without memberships who joins with the token of a
    workspace (not their own) is answered 201 and is shown the add-pet
    screen at every location. The pet they then create without naming a
    workspace or a trainer is theirs, is put in that workspace and is given
    its trainer; after that the router serves them the routes of the
    application. *)
Theorem owner_onboarding_flow env env' matches (req : Request (option string))
    (req' : Request CreatePetBody) db userId u w :
  usersKeyed db →
  uniqueTokens db →
  NoDup (ws_id <$> workspaces db) →
  w ∈ workspaces db →
  is_Some (getUser db (ws_trainerUserId w)) →
  ws_trainerUserId w ≠ userId →
  getUser db userId = Some u →
  getUserWorkspaces db userId = [] →
  getUserId req = Some userId →
  JS.orNull (req_body req) = Some (ws_inviteToken w) →
  getUserId req' = Some userId →
  JS.orNull (cp_workspaceId (req_body req')) = None →
  JS.orNull (cp_trainerEmail (req_body req')) = None →
  ∃ db1 pet db2,
    joinWorkspace env req db
    = (reply 201 {| jr_workspaceId := ws_id w; jr_alreadyMember := None |}, db1)
    ∧ (∀ location,
         AuthenticatedRoutes matches false (getUser db1 userId) location
         = Some AddPet)
    ∧ createPetHandler env' req' db1 = (reply 201 pet, db2)
    ∧ pet_ownerId pet = userId
    ∧ pet_trainerId pet = Some (ws_trainerUserId w)
    ∧ pet_workspaceId pet = Some (ws_id w)
    ∧ (∀ location,
         AuthenticatedRoutes matches false (getUser db2 userId) location
         = switch matches appRoutes location).
Proof.
  intros Hkeyed Huniq Hids Hw [t Ht] Hself Hu Hnone Huser Htoken Huser' Hnows
    Hnoemail.
  set (db0 := addWorkspaceMember (env_now env) (env_uuid env 0) (ws_id w) userId
                "OWNER" db).
  set (db1 := updateUser (env_now env) userId ownerOnboarding db0).
  set (u1 := setUser ownerOnboarding (env_now env) u).
  assert (user_id u = userId) as Hid by by apply Hkeyed.
  assert (getUser db1 userId = Some u1) as Hu1.
  { unfold db1. rewrite getUser_updateUser.
    change (getUser db0 userId) with (getUser db userId). by rewrite Hu. }
  assert (getUser db1 (ws_trainerUserId w) = Some t) as Ht1.
  { unfold db1, getUser, updateUser. simpl. rewrite lookup_alter.
    by rewrite decide_False by done. }
  assert (requireOwner (A:=Pet) db1 req' = inr u1) as Hreq.
  { unfold requireOwner, getUserWithRole. rewrite Huser', Hu1.
    by rewrite decide_True by (by left). }
  assert (getWorkspace db1 (ws_id w) = Some (withWorkspaceRelations db1 w)) as Hget.
  { unfold getWorkspace.
    change (workspaces db1) with (workspaces db).
    by rewrite (findFirst_unique ws_id). }
  assert (resolveTrainer (A:=Pet) db1 u1 (req_body req')
          = inr (Some (ws_trainerUserId w), Some (ws_id w))) as Hres.
  { unfold resolveTrainer. rewrite Hnows, Hnoemail.
    change (user_id u1) with (user_id u). rewrite Hid.
    unfold getUserWorkspaces in *.
    change (workspaceMembers db1)
      with (workspaceMembers db
            ++ [Build_WorkspaceMember (env_uuid env 0) (ws_id w) userId "OWNER"
                  (env_now env)]).
    rewrite filter_app, Hnone, filter_cons, decide_True by done.
    rewrite filter_nil, app_nil_l, findFirst_cons, decide_True by done.
    cbv beta iota. simpl wm_workspaceId. by rewrite Hget. }
  set (pet := Build_Pet (env_uuid env' 0) (cp_name (req_body req'))
                (JS.orNull (cp_species (req_body req'))) None None None None
                userId (Some (ws_trainerUserId w)) (Some (ws_id w)) (env_now env')).
  set (db2 := updateUser (env_now env') userId onboardingDone
                (setPets (pets db1 ++ [pet]) db1)).
  exists db1, pet, db2. split_and!.
  - by apply joinWorkspace_new_member.
  - intros location. rewrite Hu1.
    by apply AuthenticatedRoutes_owner_onboarding.
  - unfold createPetHandler. rewrite Hreq, Hres. unfold createPet.
    change (user_id u1) with (user_id u). rewrite Hid.
    rewrite decide_True; [done|]. unfold petReferences. split_and!.
    + change (is_Some (getUser db1 userId)). by rewrite Hu1.
    + intros t' [= <-]. change (is_Some (getUser db1 (ws_trainerUserId w))).
      by rewrite Ht1.
    + intros w' [= <-]. apply Exists_exists. by exists w.
  - done.
  - done.
  - done.
  - intros location. unfold db2. rewrite getUser_updateUser.
    change (getUser (setPets _ db1) userId) with (getUser db1 userId).
    rewrite Hu1.
    by apply (AuthenticatedRoutes_onboarded matches
                (setUser onboardingDone (env_now env') u1)).
Qed.


Lemma Demo_usersKeyed : usersKeyed Demo.db.
Proof.
  intros id u Hu. unfold Demo.db in Hu. simpl in Hu.
  repeat (apply lookup_insert_Some in Hu as [[<- <-]|[_ Hu]]; [done|]).
  by apply lookup_empty_Some in Hu.
Qed.

Lemma owner_onboarding_flow_witness :
  ∃ db1 pet db2,
    joinWorkspace Demo.env Demo.joinRequest Demo.db
    = (reply 201 {| jr_workspaceId := "w1"; jr_alreadyMember := None |}, db1)
    ∧ createPetHandler Demo.env
        {| req_sub := Some "o2"; req_param := "";
           req_body := {| cp_name := "Max"; cp_species := None;
                          cp_trainerEmail := None; cp_workspaceId := None |} |}
        db1
      = (reply 201 pet, db2)
    ∧ pet_trainerId pet = Some "t1"
    ∧ pet_workspaceId pet = Some "w1"
    ∧ AuthenticatedRoutes String.eqb false (getUser db1 "o2") "/" = Some AddPet
    ∧ AuthenticatedRoutes String.eqb false (getUser db2 "o2") "/" = Some Dashboard.
Proof.
  destruct (owner_onboarding_flow Demo.env Demo.env String.eqb Demo.joinRequest
              {| req_sub := Some "o2"; req_param := "";
                 req_body := {| cp_name := "Max"; cp_species := None;
                                cp_trainerEmail := None; cp_workspaceId := None |} |}
              Demo.db "o2" Demo.james Demo.studio
              Demo_usersKeyed Demo_uniqueTokens
              ltac:(apply (bool_decide_unpack _); by vm_compute)
              ltac:(apply list_elem_of_here)
              ltac:(by exists Demo.sarah)
              ltac:(done) ltac:(by vm_compute) ltac:(by vm_compute)
              eq_refl eq_refl eq_refl eq_refl eq_refl)
    as (db1 & pet & db2 & Hjoin & Hadd & Hpet & _ & Htrainer & Hws & Happ).
  exists db1, pet, db2. split_and!; [done..| |].
  - apply Hadd.
  - rewrite Happ. reflexivity.
Defined.





(** ** Trainers and tasks *)
Lemma userRows_getUser db u :
  usersKeyed db → u ∈ userRows db → getUser db (user_id u) = Some u.
Proof.
  intros Hkeyed (kv & -> & Hin)%list_elem_of_fmap. destruct kv as [k v].
  apply elem_of_map_to_list in Hin. simpl.
  by rewrite (Hkeyed _ _ Hin).
Qed.

Lemma getUserByEmail_Some db email u :
  getUserByEmail db email = Some u →
  u ∈ userRows db ∧ user_email u = Some email.
Proof. intros Hfind. by apply findFirst_Some in Hfind. Qed.

(** X15. [POST /api/pets/:id/trainer] changes a pet only for the owner of
    that pet and only to a user with role TRAINER who has the email given:
    any other request is answered with an error and writes nothing. *)
Theorem assignTrainerHandler_trainers_only (req : Request string) db r db' :
  assignTrainerHandler req db = (r, db') →
  (db' = db ∧ status r ≠ 200)
  ∨ ∃ user pet trainer,
      requireOwner (A:=option Pet) db req = inr user
      ∧ getPet db (req_param req) = Some pet
      ∧ pet_ownerId pet = user_id user
      ∧ trainer ∈ userRows db
      ∧ user_email trainer = Some (req_body req)
      ∧ user_role trainer = Some "TRAINER"
      ∧ r = reply 200 (Some (setTrainer (user_id trainer) pet))
      ∧ db' = setPets (updateRows (λ p, pet_id p = pet_id pet)
                         (setTrainer (user_id trainer)) (pets db)) db.
Proof.
  unfold assignTrainerHandler.
  destruct (requireOwner db req) as [forbidden|user] eqn:Hreq.
  { intros [= <- <-]. left. split; [done|]. unfold requireOwner in Hreq.
    destruct (getUserWithRole db req); [case_decide|]; by simplify_eq. }
  destruct (getPet db (req_param req)) as [pet|] eqn:Hpet;
    [|intros [= <- <-]; by left].
  case_decide as Howner; [intros [= <- <-]; by left|].
  destruct (getUserByEmail db (req_body req)) as [trainer|] eqn:Hfind;
    [|intros [= <- <-]; by left].
  case_decide as Hrole; [intros [= <- <-]; by left|].
  unfold assignTrainer. intros [= <- <-]. right.
  apply getUserByEmail_Some in Hfind as [Hin Hemail].
  assert (getPet db (pet_id pet) = Some pet) as Hpet'.
  { pose proof (findFirst_Some _ _ _ Hpet) as [_ Hid]. by rewrite Hid. }
  exists user, pet, trainer. rewrite Hpet'. split_and!; try done.
Qed.

Lemma assignTrainerHandler_trainers_only_witness :
  ∃ db',
    assignTrainerHandler
      {| req_sub := Some "o1"; req_param := "p1";
         req_body := "james.owner@pawsync.demo" |} Demo.db
    = (fail 400 "The specified user is not a trainer", db')
    ∧ db' = Demo.db.
Proof.
  destruct (assignTrainerHandler
              {| req_sub := Some "o1"; req_param := "p1";
                 req_body := "james.owner@pawsync.demo" |} Demo.db)
    as [r db'] eqn:Hrun.
  destruct (assignTrainerHandler_trainers_only _ _ _ _ Hrun)
    as [[-> Hs]|(user & pet & trainer & _ & _ & _ & _ & _ & _ & -> & _)].
  - exists Demo.db. split; [|done]. rewrite <- Hrun. by vm_compute.
  - vm_compute in Hrun. by injection Hrun.
Defined.

Lemma getPet_setTrainer db petId trainerId :
  getPet (setPets (updateRows (λ p, pet_id p = petId) (setTrainer trainerId)
                     (pets db)) db) petId
  = setTrainer trainerId <$> getPet db petId.
Proof.
  unfold getPet. simpl. by apply (findFirst_updateRows (λ p, pet_id p = petId)).
Qed.

Lemma storable_durationOrNull mins : storable mins → storable (durationOrNull mins).
Proof. by destruct mins as [[| |]|]. Qed.

(** X16. An assigned trainer can set homework: once the owner of a pet has
    assigned it, by email, to a user with role TRAINER, that trainer's
    [POST /api/tasks] for the pet, with no duration or one that fits the
    32 bits of its column, is answered 201 with an active task of the pet,
    created by them, with the duration of the request (null for zero). *)
Theorem assignTrainer_createTask env (req : Request string)
    (req' : Request CreateTaskBody) db owner pet trainer :
  usersKeyed db →
  requireOwner (A:=option Pet) db req = inr owner →
  getPet db (req_param req) = Some pet →
  pet_ownerId pet = user_id owner →
  getUserByEmail db (req_body req) = Some trainer →
  user_role trainer = Some "TRAINER" →
  getUserId req' = Some (user_id trainer) →
  ct_petId (req_body req') = req_param req →
  storable (ct_expectedDurationMins (req_body req')) →
  ∃ db1 task db2,
    assignTrainerHandler req db
    = (reply 200 (Some (setTrainer (user_id trainer) pet)), db1)
    ∧ createTaskHandler env req' db1 = (reply 201 task, db2)
    ∧ homeworkTasks db2 = homeworkTasks db ++ [task]
    ∧ task_petId task = pet_id pet
    ∧ task_createdByTrainerId task = user_id trainer
    ∧ task_expectedDurationMins task
      = durationOrNull (ct_expectedDurationMins (req_body req'))
    ∧ task_isActive task = true.
Proof.
  intros Hkeyed Hreq Hpet Howner Hfind Hrole Huser' Hpid Hfits.
  apply storable_durationOrNull in Hfits.
  assert (pet_id pet = req_param req) as Hid
    by (by apply findFirst_Some in Hpet as [_ ?]).
  set (db1 := setPets (updateRows (λ p, pet_id p = req_param req)
                         (setTrainer (user_id trainer)) (pets db)) db).
  assert (assignTrainerHandler req db
          = (reply 200 (Some (setTrainer (user_id trainer) pet)), db1)) as Hrun.
  { unfold assignTrainerHandler.
    rewrite Hreq, Hpet, decide_False, Hfind, decide_False by (by intros ?).
    unfold assignTrainer. by rewrite Hid, Hpet. }
  apply getUserByEmail_Some in Hfind as [Hin _].
  apply (userRows_getUser _ _ Hkeyed) in Hin.
  assert (requireTrainer (A:=HomeworkTask) db1 req' = inr trainer) as Hreq'.
  { unfold requireTrainer, getUserWithRole. rewrite Huser'.
    change (getUser db1 (user_id trainer)) with (getUser db (user_id trainer)).
    by rewrite Hin, decide_True by (by left). }
  assert (getPet db1 (req_param req) = Some (setTrainer (user_id trainer) pet))
    as Hpet1 by (unfold db1; by rewrite getPet_setTrainer, Hpet).
  exists db1. unfold createTaskHandler. rewrite Hreq', Hpid, Hpet1.
  rewrite decide_False by (by intros [? _]).
  unfold createTask. cbv zeta. simpl it_expectedDurationMins.
  rewrite decide_True by done.
  eexists _, _. split_and!; try reflexivity; [done|]. simpl. congruence.
Qed.


Lemma assignTrainer_createTask_witness :
  ∃ db1 task db2,
    assignTrainerHandler
      {| req_sub := Some "o1"; req_param := "p1";
         req_body := "sarah.trainer@pawsync.demo" |} Demo.db
    = (reply 200 (Some (setTrainer "t1" Demo.buddy)), db1)
    ∧ createTaskHandler Demo.env
        {| req_sub := Some "t1"; req_param := "";
           req_body := {| ct_petId := "p1"; ct_title := "Recall";
                          ct_instructions := "Ten repetitions";
                          ct_frequency := "daily";
                          ct_expectedDurationMins := Some 0 |} |} db1
      = (reply 201 task, db2)
    ∧ task_isActive task = true.
Proof.
  destruct (assignTrainer_createTask Demo.env
              {| req_sub := Some "o1"; req_param := "p1";
                 req_body := "sarah.trainer@pawsync.demo" |}
              {| req_sub := Some "t1"; req_param := "";
                 req_body := {| ct_petId := "p1"; ct_title := "Recall";
                                ct_instructions := "Ten repetitions";
                                ct_frequency := "daily";
                                ct_expectedDurationMins := Some 0 |} |}
              Demo.db Demo.emily Demo.buddy Demo.sarah Demo_usersKeyed
              ltac:(by vm_compute) eq_refl eq_refl ltac:(by vm_compute)
              eq_refl eq_refl eq_refl ltac:(by vm_compute))
    as (db1 & task & db2 & Hassign & Hcreate & _ & _ & _ & _ & Hactive).
  by exists db1, task, db2.
Defined.

(** A duration of 2147483648 minutes does not fit the column: the insert
    throws, the route answers 500 and no task is written. *)
Example createTaskHandler_out_of_range :
  createTaskHandler Demo.env
    {| req_sub := Some "t1"; req_param := "";
       req_body := {| ct_petId := "p1"; ct_title := "Recall";
                      ct_instructions := "Ten repetitions";
                      ct_frequency := "daily";
                      ct_expectedDurationMins := Some 2147483648 |} |} Demo.db
  = (fail 500 "Failed to create task", Demo.db).
Proof. by vm_compute. Qed.

(** The middlewares read the users only. *)
Lemma requireOwner_users {A B} (req : Request B) db db' :
  users db' = users db →
  requireOwner (A:=A) db' req = requireOwner (A:=A) db req.
Proof.
  intros Husers. unfold requireOwner, getUserWithRole, getUser. by rewrite Husers.
Qed.

Lemma requireTrainer_users {A B} (req : Request B) db db' :
  users db' = users db →
  requireTrainer (A:=A) db' req = requireTrainer (A:=A) db req.
Proof.
  intros Husers. unfold requireTrainer, getUserWithRole, getUser.
  by rewrite Husers.
Qed.

(** X17. A new task accepts homework: once the trainer of a pet (or an
    admin) has created a task for it, with no duration or one that fits the
    32 bits of its column and under an identifier no task has yet, the
    submission of the owner of the pet against that task is answered 201
    and adds a submission row for the task. *)
Theorem createTask_then_submit env env' (req : Request CreateTaskBody)
    (req' : Request SubmissionBody) db trainer owner pet :
  requireTrainer (A:=HomeworkTask) db req = inr trainer →
  getPet db (ct_petId (req_body req)) = Some pet →
  pet_trainerId pet = Some (user_id trainer) ∨ user_role trainer = Some "ADMIN" →
  storable (ct_expectedDurationMins (req_body req)) →
  env_uuid env 0 ∉ task_id <$> homeworkTasks db →
  requireOwner (A:=option HomeworkSubmissionWithRelations) db req' = inr owner →
  pet_ownerId pet = user_id owner →
  sb_taskId (req_body req') = env_uuid env 0 →
  ∃ task db1 r db2 row,
    createTaskHandler env req db = (reply 201 task, db1)
    ∧ task_id task = env_uuid env 0
    ∧ task_petId task = ct_petId (req_body req)
    ∧ createSubmissionHandler env' req' db1 = (r, db2)
    ∧ status r = 201
    ∧ homeworkSubmissions db2 = homeworkSubmissions db ++ [row]
    ∧ sub_taskId row = task_id task
    ∧ sub_submittedByUserId row = user_id owner.
Proof.
  intros Hreq Hpet Hauth Hfits Hfresh Hreq' Howner Htask.
  apply storable_durationOrNull in Hfits.
  unfold createTaskHandler. rewrite Hreq, Hpet.
  rewrite decide_False by (intros [? ?]; destruct Hauth; done).
  unfold createTask. cbv zeta. simpl it_expectedDurationMins.
  rewrite decide_True by done.
  set (task := Build_HomeworkTask _ _ _ _ _ _ _ _ _ _).
  set (db1 := setTasks (homeworkTasks db ++ [task]) db).
  assert (getTask db1 (env_uuid env 0) = Some task) as Hget.
  { unfold getTask, db1. simpl. rewrite findFirst_app.
    rewrite (proj2 (findFirst_None _ _)).
    - by rewrite findFirst_cons, decide_True.
    - intros t Ht Hid. apply Hfresh. rewrite <- Hid.
      by apply list_elem_of_fmap_2. }
  exists task, db1. unfold createSubmissionHandler.
  rewrite (requireOwner_users req' db db1) by done.
  rewrite Hreq', Htask, Hget. simpl task_isActive. cbv iota. simpl negb. cbv iota.
  change (getPet db1 (task_petId task)) with (getPet db (ct_petId (req_body req))).
  rewrite Hpet, decide_False by (by intros ?).
  destruct (sb_media (req_body req')) as [media|]; do 3 eexists.
  all: split_and!; try reflexivity.
  all: rewrite ?createMedia_homeworkSubmissions; reflexivity.
Qed.

Lemma createTask_then_submit_witness :
  ∃ task db1 r db2 row,
    createTaskHandler Demo.env
      {| req_sub := Some "t1"; req_param := "";
         req_body := {| ct_petId := "p1"; ct_title := "Recall";
                        ct_instructions := "Ten repetitions";
                        ct_frequency := "daily";
                        ct_expectedDurationMins := Some 15 |} |} Demo.db
    = (reply 201 task, db1)
    ∧ createSubmissionHandler Demo.env
        {| req_sub := Some "o1"; req_param := "";
           req_body := {| sb_taskId := "uuid-0"; sb_note := None;
                          sb_media := None |} |} db1
      = (r, db2)
    ∧ status r = 201
    ∧ homeworkSubmissions db2 = homeworkSubmissions Demo.db ++ [row].
Proof.
  destruct (createTask_then_submit Demo.env Demo.env
              {| req_sub := Some "t1"; req_param := "";
                 req_body := {| ct_petId := "p1"; ct_title := "Recall";
                                ct_instructions := "Ten repetitions";
                                ct_frequency := "daily";
                                ct_expectedDurationMins := Some 15 |} |}
              {| req_sub := Some "o1"; req_param := "";
                 req_body := {| sb_taskId := "uuid-0"; sb_note := None;
                                sb_media := None |} |}
              Demo.db Demo.sarah Demo.emily Demo.buddy
              ltac:(by vm_compute) eq_refl (or_introl eq_refl)
              ltac:(by vm_compute)
              ltac:(apply (bool_decide_unpack _); by vm_compute)
              ltac:(by vm_compute) eq_refl ltac:(by vm_compute))
    as (task & db1 & r & db2 & row & Hcreate & _ & _ & Hsubmit & Hs & Hrows & _).
  by exists task, db1, r, db2, row.
Defined.


Lemma getTask_updateTask_setTask id updates db :
  getTask (snd (updateTask id (setTask updates) db)) id
  = setTask updates <$> getTask db id.
Proof.
  unfold getTask, updateTask. simpl.
  by apply (findFirst_updateRows (λ t, task_id t = id)).
Qed.

Lemma noTaskColumn_isActive updates b :
  tu_isActive updates = Some b → noTaskColumn updates = false.
Proof. intros Hb. unfold noTaskColumn. rewrite Hb. by repeat case_match. Qed.

(** What [PATCH /api/tasks/:id] answers the trainer of the pet of a task (or
    an admin) who sets the activity flag. *)
Lemma updateTaskHandler_isActive (req : Request TaskUpdates) db trainer t pet b :
  requireTrainer (A:=option HomeworkTask) db req = inr trainer →
  getTask db (req_param req) = Some t →
  getPet db (task_petId t) = Some pet →
  pet_trainerId pet = Some (user_id trainer) ∨ user_role trainer = Some "ADMIN" →
  tu_isActive (req_body req) = Some b →
  storable (default None (tu_expectedDurationMins (req_body req))) →
  updateTaskHandler req db
  = Some (reply 200 (Some (setTask (req_body req) t)),
          snd (updateTask (req_param req) (setTask (req_body req)) db)).
Proof.
  intros Hreq Ht Hpet Hauth Hb Hfits. unfold updateTaskHandler.
  rewrite Hreq, Ht, Hpet.
  rewrite bool_decide_eq_false_2 by (intros [? ?]; destruct Hauth; done).
  simpl. rewrite (noTaskColumn_isActive _ _ Hb).
  unfold updateTaskColumns. rewrite decide_True by done.
  unfold updateTask. by rewrite Ht.
Qed.

(** X18. Closing a task stops homework and reopening it resumes it: after
    the trainer of the pet (or an admin) has set [isActive] to false with
    [PATCH /api/tasks/:id], the submission of the owner against the task is
    refused with 400 and writes nothing; after they have set it to true
    again, the same submission is answered 201. The two requests may set
    other fields too; a duration they carry is null or fits the 32 bits of
    its column. *)
Theorem close_and_reopen_task env (close reopen : Request TaskUpdates)
    (submit : Request SubmissionBody) db trainer owner t pet :
  requireTrainer (A:=option HomeworkTask) db close = inr trainer →
  requireTrainer (A:=option HomeworkTask) db reopen = inr trainer →
  req_param close = task_id t →
  req_param reopen = task_id t →
  tu_isActive (req_body close) = Some false →
  tu_isActive (req_body reopen) = Some true →
  storable (default None (tu_expectedDurationMins (req_body close))) →
  storable (default None (tu_expectedDurationMins (req_body reopen))) →
  getTask db (task_id t) = Some t →
  getPet db (task_petId t) = Some pet →
  pet_trainerId pet = Some (user_id trainer) ∨ user_role trainer = Some "ADMIN" →
  requireOwner (A:=option HomeworkSubmissionWithRelations) db submit = inr owner →
  pet_ownerId pet = user_id owner →
  sb_taskId (req_body submit) = task_id t →
  ∃ r1 db1 r2 db2,
    updateTaskHandler close db = Some (r1, db1)
    ∧ status r1 = 200
    ∧ createSubmissionHandler env submit db1
      = (fail 400 "This task has been closed and no longer accepts submissions",
         db1)
    ∧ updateTaskHandler reopen db1 = Some (r2, db2)
    ∧ status r2 = 200
    ∧ status (fst (createSubmissionHandler env submit db2)) = 201.
Proof.
  intros Hclose Hreopen Hp1 Hp2 Hfalse Htrue Hfits1 Hfits2 Ht Hpet Hauth Hsubmit
    Howner Hid.
  set (db1 := snd (updateTask (task_id t) (setTask (req_body close)) db)).
  set (t1 := setTask (req_body close) t).
  set (db2 := snd (updateTask (task_id t) (setTask (req_body reopen)) db1)).
  set (t2 := setTask (req_body reopen) t1).
  assert (getTask db1 (task_id t) = Some t1) as Ht1
    by (unfold db1; by rewrite getTask_updateTask_setTask, Ht).
  assert (getTask db2 (task_id t) = Some t2) as Ht2
    by (unfold db2; by rewrite getTask_updateTask_setTask, Ht1).
  exists (reply 200 (Some t1)), db1, (reply 200 (Some t2)), db2.
  split_and!; [|done| | |done|].
  - pose proof (updateTaskHandler_isActive close db trainer t pet false Hclose)
      as Hrun.
    rewrite Hp1 in Hrun. by apply Hrun.
  - unfold createSubmissionHandler.
    rewrite (requireOwner_users submit db db1) by done.
    rewrite Hsubmit, Hid, Ht1. unfold t1. simpl. by rewrite Hfalse.
  - pose proof (updateTaskHandler_isActive reopen db1 trainer t1 pet true) as Hrun.
    rewrite (requireTrainer_users reopen db db1), Hp2 in Hrun by done.
    by apply Hrun.
  - unfold createSubmissionHandler.
    rewrite (requireOwner_users submit db db2) by done.
    rewrite Hsubmit, Hid, Ht2. unfold t2, t1. simpl task_isActive.
    rewrite Htrue. simpl.
    change (getPet db2 (task_petId t)) with (getPet db (task_petId t)).
    rewrite Hpet, decide_False by (by intros ?).
    by destruct (sb_media (req_body submit)).
Qed.

Lemma close_and_reopen_task_witness :
  ∃ r1 db1 r2 db2,
    updateTaskHandler
      {| req_sub := Some "t1"; req_param := "k1";
         req_body := {| tu_title := None; tu_instructions := None;
                        tu_frequency := None;
                        tu_expectedDurationMins := Some (Some 20);
                        tu_isActive := Some false |} |} Demo.db
    = Some (r1, db1)
    ∧ createSubmissionHandler Demo.env
        {| req_sub := Some "o1"; req_param := "";
           req_body := {| sb_taskId := "k1"; sb_note := None; sb_media := None |} |}
        db1
      = (fail 400 "This task has been closed and no longer accepts submissions",
         db1)
    ∧ updateTaskHandler
        {| req_sub := Some "t1"; req_param := "k1";
           req_body := {| tu_title := None; tu_instructions := None;
                          tu_frequency := None; tu_expectedDurationMins := None;
                          tu_isActive := Some true |} |} db1
      = Some (r2, db2)
    ∧ status (fst (createSubmissionHandler Demo.env
                     {| req_sub := Some "o1"; req_param := "";
                        req_body := {| sb_taskId := "k1"; sb_note := None;
                                       sb_media := None |} |} db2))
      = 201.
Proof.
  destruct (close_and_reopen_task Demo.env
              {| req_sub := Some "t1"; req_param := "k1";
                 req_body := {| tu_title := None; tu_instructions := None;
                                tu_frequency := None;
                                tu_expectedDurationMins := Some (Some 20);
                                tu_isActive := Some false |} |}
              {| req_sub := Some "t1"; req_param := "k1";
                 req_body := {| tu_title := None; tu_instructions := None;
                                tu_frequency := None;
                                tu_expectedDurationMins := None;
                                tu_isActive := Some true |} |}
              {| req_sub := Some "o1"; req_param := "";
                 req_body := {| sb_taskId := "k1"; sb_note := None;
                                sb_media := None |} |}
              Demo.db Demo.sarah Demo.emily Demo.sitStay Demo.buddy
              ltac:(by vm_compute) ltac:(by vm_compute) eq_refl eq_refl eq_refl
              eq_refl ltac:(by vm_compute) I eq_refl eq_refl (or_introl eq_refl)
              ltac:(by vm_compute) eq_refl eq_refl)
    as (r1 & db1 & r2 & db2 & H1 & _ & H2 & H3 & _ & H4).
  by exists r1, db1, r2, db2.
Defined.

(** A request that closes the task and sets a duration of 2147483648
    minutes is answered 500, and the task stays open. *)
Example updateTaskHandler_out_of_range :
  updateTaskHandler
    {| req_sub := Some "t1"; req_param := "k1";
       req_body := {| tu_title := None; tu_instructions := None;
                      tu_frequency := None;
                      tu_expectedDurationMins := Some (Some 2147483648);
                      tu_isActive := Some false |} |} Demo.db
  = Some (fail 500 "Failed to update task", Demo.db).
Proof. by vm_compute. Qed.

(** ** Comments *)
Lemma getSubmission_Some db id s :
  getSubmission db id = Some s →
  sr_row s ∈ homeworkSubmissions db ∧ sub_id (sr_row s) = id.
Proof.
  unfold getSubmission. destruct (findFirst _ _) as [row|] eqn:Hrow; [|done].
  intros [= <-]. simpl. by apply findFirst_Some in Hrow.
Qed.

(** What [upload.single("file")] lets through: a request without a file,
    and a file of an allowed type below the size limit. *)
Lemma single_passes `{Multer} (file : option UploadedFile) :
  (∀ f, file = Some f →
        file_mimetype f ∈ allowedTypes ∧ file_size f < fileSizeLimit) →
  single file = Some file.
Proof.
  intros Hfile. destruct file as [f|]; [|done]. simpl.
  destruct (Hfile f eq_refl) as [Htype Hsize].
  by rewrite bool_decide_eq_true_2, withinLimit_below.
Qed.

(** X19. A comment reaches the timeline: when the trainer of the pet (or
    an admin) comments on a submission with a text that is not empty, with
    no file or with a file that the upload lets through (its type is one
    of the seven allowed, its size below the limit of 50 MiB), the route
    answers 201 and adds one comment row, by them and on that submission,
    and for a file one media row of that comment, VIDEO for a video type
    and IMAGE otherwise; the timeline of the pet then has one entry more,
    and the comment is among its entries (submission ids being unique). *)
Theorem comment_reaches_timeline `{Multer} env (req : Request CommentRequest) st
    trainer s t pet text :
  NoDup (sub_id <$> homeworkSubmissions (store_db st)) →
  requireTrainer (A:=option HomeworkSubmissionWithRelations) (store_db st) req
  = inr trainer →
  getSubmission (store_db st) (req_param req) = Some s →
  getTask (store_db st) (sub_taskId (sr_row s)) = Some t →
  getPet (store_db st) (task_petId t) = Some pet →
  pet_trainerId pet = Some (user_id trainer) ∨ user_role trainer = Some "ADMIN" →
  JS.orNull (cr_comment (req_body req)) = Some text →
  (∀ file, cr_file (req_body req) = Some file →
           file_mimetype file ∈ allowedTypes ∧ file_size file < fileSizeLimit) →
  ∃ r st' c,
    createCommentHandler env req st = Some (r, st')
    ∧ status r = 201
    ∧ trainerComments (store_db st') = trainerComments (store_db st) ++ [c]
    ∧ tc_comment c = text
    ∧ tc_trainerId c = user_id trainer
    ∧ tc_submissionId c = sub_id (sr_row s)
    ∧ (cr_file (req_body req) = None →
       store_commentMedia st' = store_commentMedia st)
    ∧ (∀ file, cr_file (req_body req) = Some file →
         ∃ m, store_commentMedia st' = store_commentMedia st ++ [m]
              ∧ cm_commentId m = tc_id c
              ∧ cm_mediaType m
                = (if startsWith "video/" (file_mimetype file)
                   then "VIDEO" else "IMAGE"))
    ∧ commentEntry c ∈ getTimeline (store_db st') (task_petId t)
    ∧ length (getTimeline (store_db st') (task_petId t))
      = S (length (getTimeline (store_db st) (task_petId t))).
Proof.
  intros Hkey Hreq Hsub Htask Hpet Hauth Htext Hfile.
  set (db := store_db st) in *.
  set (c := Build_TrainerComment (env_uuid env 0) (sub_id (sr_row s))
              (user_id trainer) text (env_now env)).
  set (db' := setComments (trainerComments db ++ [c]) db).
  assert (petComments db' (task_petId t) = petComments db (task_petId t) ++ [c])
    as Hcomments.
  { unfold petComments.
    change (petSubmissions db' (task_petId t))
      with (petSubmissions db (task_petId t)).
    change (trainerComments db') with (trainerComments db ++ [c]).
    rewrite filter_app, filter_cons, decide_True; [done|].
    simpl. apply list_elem_of_fmap_2. unfold petSubmissions.
    apply getSubmission_Some in Hsub as [Hin _].
    apply list_elem_of_filter. split; [|done].
    apply findFirst_Some in Htask as [Ht <-].
    apply list_elem_of_fmap_2. unfold petTasks. by apply list_elem_of_filter. }
  assert (getTimeline db' (task_petId t)
          ≡ₚ (taskEntry <$> petTasks db (task_petId t))
             ++ (submissionEntry db' <$> petSubmissions db (task_petId t))
             ++ (commentEntry <$> petComments db (task_petId t) ++ [c])) as Hafter.
  { rewrite <- Hcomments. by apply (getTimeline_Permutation db'). }
  set (media :=
         match cr_file (req_body req) with
         | Some file =>
             store_commentMedia st
             ++ [{| cm_id := env_uuid env 1;
                    cm_commentId := tc_id c;
                    cm_mediaType := mediaTypeOf file;
                    cm_filePath := "/uploads/" +:+ file_filename file;
                    cm_fileName := Some (file_originalname file);
                    cm_createdAt := env_now env |}]
         | None => store_commentMedia st
         end).
  assert (∃ r,
            createCommentHandler env req st = Some (r, Build_Store db' media)
            ∧ status r = 201) as (r & Hrun & Hs).
  { unfold createCommentHandler. fold db.
    rewrite Hreq, (single_passes _ Hfile). simpl mbind.
    unfold commentHandler. fold db.
    rewrite Hsub, Htask, Hpet.
    rewrite bool_decide_eq_false_2 by (intros [? ?]; destruct Hauth; done).
    simpl negb. cbv iota. rewrite Htext. unfold createComment. cbv zeta.
    by eexists. }
  exists r, (Build_Store db' media), c.
  change (store_db (Build_Store db' media)) with db'.
  change (store_commentMedia (Build_Store db' media)) with media.
  split_and!; [done..| | | |].
  - intros Hnone. unfold media. by rewrite Hnone.
  - intros file Hsome. unfold media. rewrite Hsome. by eexists.
  - rewrite Hafter, !elem_of_app. do 2 right.
    apply list_elem_of_fmap_2, elem_of_app. right. apply list_elem_of_here.
  - rewrite Hafter, (getTimeline_Permutation db) by done.
    rewrite !length_app, !length_fmap, length_app. simpl. lia.
Qed.

(** Sarah comments on the first try with a video of 3 MB. *)
Lemma comment_reaches_timeline_witness :
  ∃ r st' c m,
    @createCommentHandler inclusive Demo.env
      {| req_sub := Some "t1"; req_param := "s1";
         req_body := {| cr_comment := Some "Keep it up";
                        cr_file := Some UploadDemo.clip |} |}
      {| store_db := Demo.db; store_commentMedia := [] |}
    = Some (r, st')
    ∧ status r = 201
    ∧ store_commentMedia st' = [m]
    ∧ cm_mediaType m = "VIDEO"
    ∧ commentEntry c ∈ getTimeline (store_db st') "p1"
    ∧ length (getTimeline (store_db st') "p1") = 5%nat.
Proof.
  destruct (@comment_reaches_timeline inclusive Demo.env
              {| req_sub := Some "t1"; req_param := "s1";
                 req_body := {| cr_comment := Some "Keep it up";
                                cr_file := Some UploadDemo.clip |} |}
              {| store_db := Demo.db; store_commentMedia := [] |}
              Demo.sarah
              (withSubmissionRelations Demo.db Demo.firstTry
                 (orderByDesc tc_createdAt (commentsOf Demo.db Demo.firstTry)))
              Demo.sitStay Demo.buddy "Keep it up"
              Demo_submission_ids_NoDup ltac:(by vm_compute) eq_refl eq_refl
              eq_refl (or_introl eq_refl) eq_refl)
    as (r & st' & c & Hrun & Hs & _ & _ & _ & _ & _ & Hmedia & Hin & Hlen).
  { intros file [= <-]. split; [|done].
    apply (bool_decide_unpack _). by vm_compute. }
  destruct (Hmedia UploadDemo.clip eq_refl) as (m & Hm & _ & Htype).
  exists r, st', c, m. split_and!; [done..|].
  etrans; [exact Hlen|by vm_compute].
Defined.

(** A PDF is not let through, whatever multer does at the limit; neither
    is a video of more than 50 MiB. Without a file the route runs. *)
Example createCommentHandler_refused `{Multer} :
  createCommentHandler Demo.env
    {| req_sub := Some "t1"; req_param := "s1";
       req_body := {| cr_comment := Some "Keep it up";
                      cr_file := Some UploadDemo.leaflet |} |}
    {| store_db := Demo.db; store_commentMedia := [] |}
  = None
  ∧ createCommentHandler Demo.env
      {| req_sub := Some "t1"; req_param := "s1";
         req_body := {| cr_comment := Some "Keep it up";
                        cr_file := Some UploadDemo.film |} |}
      {| store_db := Demo.db; store_commentMedia := [] |}
    = None
  ∧ is_Some (createCommentHandler Demo.env
               {| req_sub := Some "t1"; req_param := "s1";
                  req_body := {| cr_comment := Some "Keep it up";
                                 cr_file := None |} |}
               {| store_db := Demo.db; store_commentMedia := [] |}).
Proof.
  split_and!; [done| |done].
  unfold createCommentHandler. cbn [store_db].
  assert (requireTrainer
            (A:=option HomeworkSubmissionWithRelations) Demo.db
            {| req_sub := Some "t1"; req_param := "s1";
               req_body := {| cr_comment := Some "Keep it up";
                              cr_file := Some UploadDemo.film |} |}
          = inr Demo.sarah) as -> by by vm_compute.
  cbn [cr_file req_body single].
  rewrite (withinLimit_above (file_size UploadDemo.film)) by (by vm_compute).
  by rewrite andb_false_r.
Qed.

(** ** Editing a pet *)

(** X20. [PATCH /api/pets/:id], given at least one field, never changes
    whose a pet is: the id, the owner, the trainer and the workspace of every
    pet are as before, and no other table is written; and a pet changes only
    when the requester is its owner or an admin. *)
Theorem updatePetHandler_keeps_ownership (req : Request PetUpdates) db r db' :
  updatePetHandler req db = Some (r, db') →
  ownership <$> pets db' = ownership <$> pets db
  ∧ setPets (pets db) db' = db
  ∧ (pets db' ≠ pets db →
     ∃ user pet,
       getUserWithRole db req = Some user
       ∧ getPet db (req_param req) = Some pet
       ∧ (pet_ownerId pet = user_id user ∨ user_role user = Some "ADMIN")).
Proof.
  unfold updatePetHandler.
  destruct (getUserWithRole db req) as [user|];
    [|intros [= <- <-]; by destruct db].
  destruct (getPet db (req_param req)) as [pet|];
    [|intros [= <- <-]; by destruct db].
  case_decide as Hauth; [intros [= <- <-]; by destruct db|].
  destruct (noPetColumn (req_body req)); [done|].
  unfold updatePet. intros [= <- <-]. simpl. split_and!; [|by destruct db|].
  - unfold updateRows. rewrite <- list_fmap_compose.
    apply list_fmap_ext. intros i p _. simpl. by case_decide.
  - intros _. exists user, pet. split_and!; [done..|].
    destruct (decide (pet_ownerId pet = user_id user)); [by left|].
    destruct (decide (user_role user = Some "ADMIN")); [by right|].
    by destruct Hauth.
Qed.

Lemma updatePetHandler_keeps_ownership_witness :
  ∃ r db',
    updatePetHandler
      {| req_sub := Some "o1"; req_param := "p1";
         req_body := {| pu_name := Some "Buddy II"; pu_species := None;
                        pu_breed := Some (Some "Golden"); pu_age := None;
                        pu_ownerPhone := None; pu_imageUrl := None |} |} Demo.db
    = Some (r, db')
    ∧ pet_name <$> pets db' = ["Buddy II"]
    ∧ ownership <$> pets db' = ownership <$> pets Demo.db.
Proof.
  destruct (updatePetHandler _ Demo.db) as [[r db']|] eqn:Hrun;
    [|by vm_compute in Hrun].
  exists r, db'. split; [done|].
  destruct (updatePetHandler_keeps_ownership _ _ _ _ Hrun) as [Hown _].
  split; [|exact Hown].
  vm_compute in Hrun. by injection Hrun as <- <-.
Defined.


(** ** The preferred-days selector *)
Lemma toggleDay_selected (l : list string) day :
  day ∈ l → ∃ i, l !! i = Some day ∧ toggleDay l day = delete i l.
Proof.
  intros Hin. unfold toggleDay, indexOf.
  destruct (list_find_elem_of (λ y, y = day) l day Hin eq_refl) as [[i y] Hfind].
  rewrite Hfind. apply list_find_Some in Hfind as (Hi & -> & _).
  exists i. split; [done|]. rewrite decide_True by lia. by rewrite Nat2Z.id.
Qed.

Lemma toggleDay_unselected (l : list string) day :
  day ∉ l → toggleDay l day = l ++ [day].
Proof.
  intros Hnin. unfold toggleDay, indexOf.
  destruct (list_find _ l) as [[i y]|] eqn:Hfind; [|done].
  apply list_find_Some in Hfind as (Hi & -> & _).
  destruct Hnin. by eapply list_elem_of_lookup_2.
Qed.

(** X21. [toggleDay] toggles: on a selection without repetitions, the day
    is in the new selection exactly when it was not in the old one, every
    other day is kept as it was, the new selection has no repetitions, and
    toggling the day again gives back the days of the old selection. *)
Theorem toggleDay_toggles (l : list string) day :
  NoDup l →
  NoDup (toggleDay l day)
  ∧ (day ∈ toggleDay l day ↔ day ∉ l)
  ∧ (∀ d, d ≠ day → d ∈ toggleDay l day ↔ d ∈ l)
  ∧ toggleDay (toggleDay l day) day ≡ₚ l.
Proof.
  intros Hl. destruct (decide (day ∈ l)) as [Hin|Hnin].
  - destruct (toggleDay_selected l day Hin) as (i & Hi & Htoggle).
    pose proof (delete_Permutation l i day Hi) as Hperm.
    rewrite Htoggle. rewrite Hperm in Hl. apply NoDup_cons in Hl as [Hnot Hrest].
    split_and!; [done|tauto| |].
    + intros d Hd. pose proof (elem_of_Permutation_proper d _ _ Hperm) as Hiff.
      rewrite elem_of_cons in Hiff. split; [tauto|].
      intros [?|?]%Hiff; done.
    + rewrite toggleDay_unselected by done.
      etrans; [symmetry; apply Permutation_cons_append|by symmetry].
  - rewrite toggleDay_unselected by done. split_and!.
    + rewrite <- Permutation_cons_append. by constructor.
    + rewrite elem_of_app, list_elem_of_singleton. tauto.
    + intros d Hd. rewrite elem_of_app, list_elem_of_singleton. tauto.
    + assert (day ∈ l ++ [day]) as Hin'
        by (apply elem_of_app; right; apply list_elem_of_here).
      destruct (toggleDay_selected _ day Hin') as (i & Hi & ->).
      apply (Permutation_cons_inv (a:=day)).
      rewrite <- (delete_Permutation _ i day Hi).
      by rewrite <- Permutation_cons_append.
Qed.

Lemma toggleDay_toggles_witness :
  toggleDay ["Mon"; "Wed"] "Mon" = ["Wed"]
  ∧ toggleDay ["Mon"; "Wed"] "Fri" = ["Mon"; "Wed"; "Fri"]
  ∧ toggleDay (toggleDay ["Mon"; "Wed"] "Mon") "Mon" ≡ₚ ["Mon"; "Wed"].
Proof.
  split; [reflexivity|]. split; [reflexivity|].
  apply (toggleDay_toggles ["Mon"; "Wed"] "Mon").
  apply (bool_decide_unpack _). by vm_compute.
Defined.

Lemma toggleDay_valid (l : list string) day :
  Forall (λ d, d ∈ validDays) l → day ∈ ALL_DAYS →
  Forall (λ d, d ∈ validDays) (toggleDay l day).
Proof.
  intros Hl Hday. destruct (decide (day ∈ l)) as [Hin|Hnin].
  - destruct (toggleDay_selected l day Hin) as (i & _ & ->).
    rewrite Forall_forall in *. intros d Hd.
    by eapply Hl, list_elem_of_delete_inv.
  - rewrite toggleDay_unselected by done. apply Forall_app. split; [done|].
    by constructor.
Qed.

(** X22. The selector and the route agree: when the owner of the pet (or an
    admin) toggles one of the seven days on a task whose preferred days are
    weekday abbreviations, the request the selector sends is answered 200,
    and the days the selector then reads from the stored task are the
    toggled selection. *)
Theorem toggleDay_setTaskPreferredDays (req : Request JS.json) db user t pet day :
  getUserWithRole db req = Some user →
  getTask db (req_param req) = Some t →
  getPet db (task_petId t) = Some pet →
  pet_ownerId pet = user_id user ∨ user_role user = Some "ADMIN" →
  Forall (λ d, d ∈ validDays) (selectedDays t) →
  day ∈ ALL_DAYS →
  req_body req = preferredDaysBody (toggleDay (selectedDays t) day) →
  ∃ t' db',
    setTaskPreferredDays req db = (reply 200 (Some t'), db')
    ∧ getTask db' (req_param req) = Some t'
    ∧ selectedDays t' = toggleDay (selectedDays t) day.
Proof.
  intros Huser Ht Hpet Hauth Hvalid Hday Hbody.
  pose proof (toggleDay_valid _ _ Hvalid Hday) as Hnew.
  set (days := toggleDay (selectedDays t) day) in *.
  exists (setPreferredDays (persistedDays days) t),
    (snd (updateTask (req_param req) (setPreferredDays (persistedDays days)) db)).
  unfold setTaskPreferredDays. rewrite Huser, Ht, Hpet.
  rewrite decide_False by (intros [? ?]; destruct Hauth; done).
  rewrite Hbody. unfold preferredDaysBody.
  destruct days as [|d days'] eqn:Hdays.
  - simpl. unfold updateTask. rewrite Ht. split_and!; [done| |done].
    pose proof (getTask_updateTask (req_param req) None db) as Hget.
    unfold updateTask in Hget. simpl in Hget. by rewrite Hget, Ht.
  - rewrite decide_True by (simpl; lia).
    rewrite (proj2 (forallb_includesDay _)) by by exists (d :: days').
    simpl negb. cbv iota. rewrite storedDays_strings.
    unfold updateTask. rewrite Ht. split_and!; [done| |done].
    pose proof (getTask_updateTask (req_param req)
                  (persistedDays (d :: days')) db) as Hget.
    unfold updateTask in Hget. simpl in Hget. simpl. by rewrite Hget, Ht.
Qed.

Lemma toggleDay_setTaskPreferredDays_witness :
  ∃ t' db',
    setTaskPreferredDays
      (Demo.daysRequest (preferredDaysBody (toggleDay ["Mon"; "Wed"] "Mon")))
      Demo.db
    = (reply 200 (Some t'), db')
    ∧ getTask db' "k1" = Some t'
    ∧ selectedDays t' = ["Wed"].
Proof.
  apply (toggleDay_setTaskPreferredDays
           (Demo.daysRequest (preferredDaysBody (toggleDay ["Mon"; "Wed"] "Mon")))
           Demo.db Demo.emily Demo.sitStay Demo.buddy "Mon"
           ltac:(by vm_compute) eq_refl eq_refl (or_introl eq_refl)).
  - apply (bool_decide_unpack _). by vm_compute.
  - apply list_elem_of_here.
  - reflexivity.
Defined.


(** ** The progress view *)
Lemma StronglySorted_impl {A} (R S : A → A → Prop) l :
  (∀ a b, R a b → S a b) → StronglySorted R l → StronglySorted S l.
Proof.
  intros HRS. induction 1 as [|x l Hl IH Hx]; constructor; [done|].
  eapply Forall_impl; [exact Hx|]. intros b. apply HRS.
Qed.

Lemma filter_elem_of_cons_Permutation {A B} `{EqDecision B}
    (key : A → B) (k : B) (ks : list B) (l : list A) :
  k ∉ ks →
  filter (λ x, key x ∈ k :: ks) l
  ≡ₚ filter (λ x, key x = k) l ++ filter (λ x, key x ∈ ks) l.
Proof.
  intros Hk. induction l as [|x l IH]; [done|].
  rewrite !filter_cons.
  destruct (decide (key x = k)) as [Hx|Hx].
  - rewrite decide_True by (rewrite Hx; apply list_elem_of_here).
    rewrite decide_False by by rewrite Hx. simpl. by rewrite IH.
  - destruct (decide (key x ∈ ks)) as [Hin|Hnin].
    + rewrite decide_True by by apply list_elem_of_further.
      rewrite IH. apply Permutation_middle.
    + rewrite decide_False by (rewrite elem_of_cons; tauto). done.
Qed.

(** X23. The progress view groups without loss: it shows the tasks it was
    given, in their order; the group of a task is a rearrangement of the
    submissions of that task, oldest first; and when task ids are distinct
    the groups together are the submissions of the listed tasks, each
    once. *)
Theorem submissionsByTask_groups (tasks : list HomeworkTask)
    (submissions : list HomeworkSubmissionWithRelations) :
  fst <$> submissionsByTask tasks submissions = tasks
  ∧ (∀ t group, (t, group) ∈ submissionsByTask tasks submissions →
       group ≡ₚ filter (λ s, sub_taskId (sr_row s) = task_id t) submissions
       ∧ StronglySorted
           (λ a b, sub_submittedAt (sr_row a) ≤ sub_submittedAt (sr_row b))
           group)
  ∧ (NoDup (task_id <$> tasks) →
     mjoin (snd <$> submissionsByTask tasks submissions)
     ≡ₚ filter (λ s, sub_taskId (sr_row s) ∈ task_id <$> tasks) submissions).
Proof.
  unfold submissionsByTask. split_and!.
  - rewrite <- list_fmap_compose. simpl. by rewrite list_fmap_id.
  - intros t group (t' & [= <- ->] & _)%list_elem_of_fmap. split.
    + apply sort_Permutation.
    + eapply StronglySorted_impl;
        [|apply (sort_StronglySorted _ (λ s, - sub_submittedAt (sr_row s)))].
      * simpl. intros a b. lia.
      * intros a b. lia.
  - induction tasks as [|t tasks IH]; intros Hids.
    + simpl. by rewrite filter_elem_of_nil.
    + rewrite !fmap_cons in *. apply NoDup_cons in Hids as [Ht Hids].
      cbn [mjoin list_join snd]. rewrite sort_Permutation, IH by done.
      symmetry. by apply (filter_elem_of_cons_Permutation
                            (λ s, sub_taskId (sr_row s))).
Qed.

Lemma submissionsByTask_groups_witness :
  mjoin (snd <$> submissionsByTask [Demo.sitStay; Demo.looseLeash]
                   (getSubmissionsByPet Demo.db "p1"))
  ≡ₚ filter (λ s, sub_taskId (sr_row s)
                   ∈ task_id <$> [Demo.sitStay; Demo.looseLeash])
            (getSubmissionsByPet Demo.db "p1").
Proof.
  apply (submissionsByTask_groups [Demo.sitStay; Demo.looseLeash]).
  apply (bool_decide_unpack _). by vm_compute.
Defined.

(** ** The timeline grouped by week *)
Lemma filter_none {A} (P : A → Prop) `{!∀ x, Decision (P x)} (l : list A) :
  (∀ x, x ∈ l → ¬ P x) → filter P l = [].
Proof.
  induction l as [|x l IH]; intros Hl; [done|].
  rewrite filter_cons, decide_False by apply Hl, list_elem_of_here.
  apply IH. intros y Hy. by apply Hl, list_elem_of_further.
Qed.

Section grouping_facts.
Context `{WeekFns}.

Local Abbreviation groupOf tl :=
  (λ k, (k, filter (λ item, groupKey item = k) tl)).

Lemma filter_groupKey_snoc tl x k :
  filter (λ item, groupKey item = k) (tl ++ [x])
  = filter (λ item, groupKey item = k) tl
    ++ (if decide (groupKey x = k) then [x] else []).
Proof.
  rewrite filter_app, filter_cons, filter_nil. by case_decide.
Qed.

Lemma groupOf_snoc_other tl x (ks : list string) :
  groupKey x ∉ ks → groupOf (tl ++ [x]) <$> ks = groupOf tl <$> ks.
Proof.
  intros Hk. apply list_fmap_ext. intros i k Hi. simpl.
  rewrite filter_groupKey_snoc, decide_False, app_nil_r; [done|].
  intros <-. apply Hk. by eapply list_elem_of_lookup_2.
Qed.

Lemma pushGroup_groupOf tl x (ks : list string) :
  NoDup ks →
  pushGroup (groupKey x) x (groupOf tl <$> ks)
  = if decide (groupKey x ∈ ks) then groupOf (tl ++ [x]) <$> ks
    else (groupOf (tl ++ [x]) <$> ks)
         ++ [(groupKey x, JS.push [] x)].
Proof.
  induction 1 as [|k ks Hk Hks IH].
  - by rewrite decide_False by apply not_elem_of_nil.
  - rewrite !fmap_cons. cbn [pushGroup].
    destruct (decide (k = groupKey x)) as [->|Hne].
    + rewrite decide_True by apply list_elem_of_here.
      rewrite groupOf_snoc_other by done. f_equal. f_equal.
      rewrite filter_groupKey_snoc. by rewrite decide_True.
    + rewrite IH. rewrite filter_groupKey_snoc.
      rewrite (decide_False (P := groupKey x = k)) by congruence.
      rewrite app_nil_r.
      destruct (decide (groupKey x ∈ ks)) as [Hin|Hnin].
      * by rewrite decide_True by by apply list_elem_of_further.
      * rewrite decide_False; [done|]. rewrite elem_of_cons.
        intros [?|?]; congruence.
Qed.

(** The keys of the groups: the keys of the entries, each once, in the
    order of their first entry. *)
Lemma groupedTimeline_unfold tl :
  groupedTimeline tl
  = groupOf tl <$> reverse (remove_dups (reverse (groupKey <$> tl))).
Proof.
  induction tl as [|x tl IH] using rev_ind; [done|].
  unfold groupedTimeline in *. rewrite foldl_app. cbn [foldl]. rewrite IH.
  rewrite pushGroup_groupOf
    by (rewrite reverse_Permutation; apply NoDup_remove_dups).
  rewrite fmap_app, reverse_app.
  change (reverse (groupKey <$> [x])) with [groupKey x].
  cbn [app remove_dups].
  destruct (decide_rel elem_of (groupKey x) (reverse (groupKey <$> tl)))
    as [Hin|Hnin].
  - rewrite decide_True; [done|].
    by rewrite elem_of_reverse, elem_of_remove_dups.
  - rewrite decide_False
      by by rewrite elem_of_reverse, elem_of_remove_dups.
    rewrite reverse_cons, fmap_app. f_equal. simpl. f_equal. f_equal.
    rewrite filter_groupKey_snoc, decide_True by done.
    unfold JS.push. f_equal. symmetry. apply filter_none.
    intros item Hitem Hkey. apply Hnin. rewrite elem_of_reverse, <- Hkey.
    by apply list_elem_of_fmap_2.
Qed.
End grouping_facts.


(** X24. The timeline grouped under its headings loses and repeats
    nothing: no two groups have the same heading; a heading has a group
    exactly when it is the heading of some entry, and the group is then the
    entries with that heading, in the order of the timeline; so every entry
    is shown under its own heading. The heading of an entry is written from
    the first and the last day of its week as [format] gives them, month and
    day without the year, and from whether the week is the current one:
    entries for which these three agree are in one group, whether they are
    of one week or of two weeks that are written alike. *)
Theorem groupedTimeline_partition `{WeekFns} (tl : list TimelineItem) :
  NoDup (fst <$> groupedTimeline tl)
  ∧ (∀ k items,
       (k, items) ∈ groupedTimeline tl
       ↔ items = filter (λ item, groupKey item = k) tl ∧ items ≠ [])
  ∧ (∀ item, item ∈ tl →
       ∃ items, (groupKey item, items) ∈ groupedTimeline tl ∧ item ∈ items)
  ∧ (∀ x y items,
       y ∈ tl →
       format (startOfWeek (date x)) = format (startOfWeek (date y)) →
       format (endOfWeek (date x)) = format (endOfWeek (date y)) →
       isThisWeek (date x) = isThisWeek (date y) →
       (groupKey x, items) ∈ groupedTimeline tl → y ∈ items).
Proof.
  rewrite groupedTimeline_unfold.
  set (keys := reverse (remove_dups (reverse (groupKey <$> tl)))).
  assert (∀ k, k ∈ keys ↔ ∃ item, item ∈ tl ∧ groupKey item = k) as Hkeys.
  { intros k. unfold keys.
    rewrite elem_of_reverse, elem_of_remove_dups, elem_of_reverse.
    rewrite list_elem_of_fmap. split.
    - intros (item & -> & ?). by exists item.
    - intros (item & ? & <-). by exists item. }
  split_and!.
  - rewrite <- list_fmap_compose.
    rewrite (list_fmap_ext _ id keys) by done. rewrite list_fmap_id.
    unfold keys. rewrite reverse_Permutation. apply NoDup_remove_dups.
  - intros k items. rewrite list_elem_of_fmap. split.
    + intros (k' & [= <- ->] & (item & Hitem & Hkey)%Hkeys). split; [done|].
      intros Hnil.
      assert (item ∈ filter (λ item, groupKey item = k) tl) as Hin
        by by apply list_elem_of_filter.
      rewrite Hnil in Hin. by apply not_elem_of_nil in Hin.
    + intros [-> Hne]. exists k. split; [done|]. apply Hkeys.
      destruct (filter _ tl) as [|item rest] eqn:Hfilter; [done|].
      assert (item ∈ filter (λ item, groupKey item = k) tl) as Hin
        by (rewrite Hfilter; apply list_elem_of_here).
      apply list_elem_of_filter in Hin as [? ?]. by exists item.
  - intros item Hitem. eexists. split.
    + apply list_elem_of_fmap. exists (groupKey item). split; [done|].
      apply Hkeys. by exists item.
    + by apply list_elem_of_filter.
  - intros x y items Hy Hstart Hend Hthis.
    rewrite list_elem_of_fmap. intros (k & [= Hk ->] & _).
    apply list_elem_of_filter. split; [|done].
    rewrite <- Hk. unfold groupKey. by rewrite Hstart, Hend, Hthis.
Qed.

(** Two tasks set six years apart, on 3 January 2018 and on 2 January 2024:
    the weeks of both run from a Monday 1 January to a Sunday 7 January,
    and the page shows them in one group. *)
Example groupedTimeline_years_apart :
  let early := {| type := TypeTask; date := 1514973600000;
                  data := TaskData Demo.sitStay |} in
  let late := {| type := TypeTask; date := 1704189600000;
                 data := TaskData Demo.looseLeash |} in
  @groupedTimeline (utcWeeks 1750000000000) [late; early]
  = [("Week of Jan 1 - Jan 7", [late; early])].
Proof. by vm_compute. Qed.

(** ** The submissions the pet page reads off the timeline *)
Lemma submissionsOf_taskEntry (l : list HomeworkTask) :
  submissionsOf (taskEntry <$> l) = [].
Proof. by induction l. Qed.

Lemma submissionsOf_commentEntry (l : list TrainerComment) :
  submissionsOf (commentEntry <$> l) = [].
Proof. by induction l. Qed.

Lemma submissionsOf_entriesOf (l : list HomeworkSubmissionWithRelations) :
  submissionsOf (l ≫= entriesOf) = l.
Proof.
  induction l as [|s l IH]; [done|].
  rewrite bind_cons. unfold submissionsOf in *. rewrite omap_app, IH.
  unfold entriesOf. cbn [omap list_omap type data].
  fold (submissionsOf (commentEntry <$> default [] (sr_comments s))).
  by rewrite submissionsOf_commentEntry.
Qed.

Lemma submissionsOf_getTimeline db petId :
  submissionsOf (getTimeline db petId) ≡ₚ getSubmissionsByPet db petId.
Proof.
  rewrite getTimeline_unfold. unfold submissionsOf.
  rewrite sort_Permutation, omap_app.
  fold (submissionsOf (taskEntry <$> getTasksByPet db petId)).
  fold (submissionsOf (getSubmissionsByPet db petId ≫= entriesOf)).
  by rewrite submissionsOf_taskEntry, submissionsOf_entriesOf.
Qed.

Lemma StronglySorted_omap {A B} (R : A → A → Prop) (S : B → B → Prop)
    (f : A → option B) (l : list A) :
  (∀ x y a b, x ∈ l → y ∈ l → f x = Some a → f y = Some b → R x y → S a b) →
  StronglySorted R l → StronglySorted S (omap f l).
Proof.
  intros HRS Hl. induction Hl as [|x l Hl IH Hx]; [constructor|].
  cbn [omap list_omap].
  assert (StronglySorted S (omap f l)) as IH'.
  { apply IH. intros y z a b Hy Hz. apply HRS; by apply list_elem_of_further. }
  destruct (f x) as [a|] eqn:Hfx; [|done]. constructor; [done|].
  apply Forall_forall. intros b (y & Hy & Hfy)%list_elem_of_omap.
  rewrite Forall_forall in Hx.
  eapply (HRS x y); eauto using list_elem_of_here, list_elem_of_further.
Qed.

(** X25. The submissions the pet page takes out of the timeline are the
    submissions of the pet as the storage loads them, each once, and they
    come newest first. *)
Theorem timeline_submissions db petId :
  submissionsOf (getTimeline db petId) ≡ₚ getSubmissionsByPet db petId
  ∧ StronglySorted
      (λ a b, sub_submittedAt (sr_row b) ≤ sub_submittedAt (sr_row a))
      (submissionsOf (getTimeline db petId)).
Proof.
  split; [apply submissionsOf_getTimeline|].
  eapply StronglySorted_omap;
    [|rewrite getTimeline_unfold; by apply (sort_StronglySorted _ date)].
  assert (∀ x a, x ∈ getTimeline db petId →
                 match type x, data x with
                 | TypeSubmission, SubmissionData s => Some s
                 | _, _ => None
                 end = Some a →
                 date x = sub_submittedAt (sr_row a)) as Hdate.
  { intros x a. rewrite getTimeline_unfold, sort_Permutation, elem_of_app.
    intros [(t & -> & _)%list_elem_of_fmap|(s & Hx & _)%list_elem_of_bind];
      [done|].
    unfold entriesOf in Hx. apply elem_of_cons in Hx as [->|Hx].
    - by intros [= <-].
    - by apply list_elem_of_fmap in Hx as (c & -> & _). }
  intros x y a b Hx Hy Ha Hb. simpl.
  by rewrite <- (Hdate x a Hx Ha), <- (Hdate y b Hy Hb).
Qed.

(** ** The calendar of the pet page *)
Lemma statusOf_ext `{DateFns} tasks tasks' subs subs' read now day s :
  (∀ t, t ∈ tasks ↔ t ∈ tasks') →
  (∀ x, x ∈ subs ↔ x ∈ subs') →
  statusOf tasks subs read now day s → statusOf tasks' subs' read now day s.
Proof.
  intros Ht Hs.
  assert (someScheduled tasks read day ↔ someScheduled tasks' read day) as Hsome.
  { unfold someScheduled. by setoid_rewrite Ht. }
  assert (∀ t, submittedOn subs day t ↔ submittedOn subs' day t) as Hsub.
  { intros t. unfold submittedOn. by setoid_rewrite Hs. }
  destruct 1 as [Hno|Hsch Hf|Hsch Hp Hall|Hsch Hp Hone Hnot|Hsch Hp Hall].
  - apply status_none. by rewrite <- Hsome.
  - apply status_future; [by rewrite <- Hsome|done].
  - apply status_complete; [by rewrite <- Hsome|done|].
    intros t Htin Hon. apply Hsub, Hall; [by apply Ht|done].
  - apply status_partial; [by rewrite <- Hsome|done| |].
    + destruct Hone as (t & ? & ? & ?). exists t.
      split_and!; [by apply Ht|done|by apply Hsub].
    + destruct Hnot as (t & ? & ? & ?). exists t.
      split_and!; [by apply Ht|done|by rewrite <- Hsub].
  - apply status_missed; [by rewrite <- Hsome|done|].
    intros t Htin Hon. rewrite <- Hsub. apply Hall; [by apply Ht|done].
Qed.

(** X26. The calendar of the pet page, fed with the answers the server
    gives from one state of the database, shows a day by the rows of that
    database: the tasks that count are the open tasks of the pet, a task is
    done on a day when a submission against it was made that day, and the
    status is the one the rules give, whatever it is, with the frequency of
    a task read in lower case as the [toLowerCase] of the host gives it.
    Closed tasks never count. *)
Theorem petDetail_calendar `{DateFns} `{JS.CaseMapping} db petId now day s :
  getDayStatus (activeTasks (getTasksByPet db petId))
               (sr_row <$> submissionsOf (getTimeline db petId)) now day = s
  ↔ statusOf (filter (λ t, task_isActive t = true) (petTasks db petId))
             (petSubmissions db petId) JS.toLowerCase now day s.
Proof.
  assert (statusOf (filter (λ t, task_isActive t = true) (petTasks db petId))
             (petSubmissions db petId) JS.toLowerCase now day
             (getDayStatus (activeTasks (getTasksByPet db petId))
                (sr_row <$> submissionsOf (getTimeline db petId)) now day))
    as Hstatus.
  { eapply statusOf_ext; [| |apply getDayStatus_statusOf].
    - intros t. unfold activeTasks. rewrite !list_elem_of_filter.
      by rewrite getTasksByPet_Permutation.
    - intros x. rewrite submissionsOf_getTimeline.
      rewrite getSubmissionsByPet_Permutation, <- list_fmap_compose.
      rewrite (list_fmap_ext _ id (petSubmissions db petId)) by done.
      by rewrite list_fmap_id. }
  split.
  - by intros <-.
  - intros Hs. by eapply statusOf_unique.
Qed.


(** ** The workspaces a user is shown *)
Lemma foldl_push_getWorkspace db (ms : list WorkspaceMember)
    (acc : list WorkspaceWithRelations) :
  foldl (λ results m,
           match getWorkspace db (wm_workspaceId m) with
           | Some ws => JS.push results ws
           | None => results
           end) acc ms
  = acc ++ omap (λ m, getWorkspace db (wm_workspaceId m)) ms.
Proof.
  revert acc. induction ms as [|m ms IH]; intros acc.
  - simpl. by rewrite app_nil_r.
  - cbn [foldl omap list_omap]. rewrite IH.
    destruct (getWorkspace db (wm_workspaceId m)); [|done].
    unfold JS.push. by rewrite <- app_assoc.
Qed.

(** X27. After a join that succeeded, [GET /api/workspaces/my] shows the
    member the workspace of the invite: the answer is 200 and lists the
    workspace whose token the request carried, which is not the member's
    own. Workspace ids are unique (the primary key) and the member is a
    user. *)
Theorem joined_workspace_listed env (req : Request (option string))
    (req' : Request unit) db userId r db' :
  NoDup (ws_id <$> workspaces db) →
  getUserId req = Some userId →
  getUserId req' = Some userId →
  is_Some (getUser db userId) →
  joinWorkspace env req db = (r, db') →
  joined r →
  ∃ ws w,
    myWorkspaces req' db' = (reply 200 ws, db')
    ∧ w ∈ ws
    ∧ wr_row w ∈ workspaces db
    ∧ JS.orNull (req_body req) = Some (ws_inviteToken (wr_row w))
    ∧ ws_trainerUserId (wr_row w) ≠ userId.
Proof.
  intros Hids Hreq Hreq' [u Hu] Hrun Hjoined.
  destruct (joinWorkspace_joined env req db userId r db' Hreq Hrun Hjoined)
    as (token & w & Htoken & Hw & Hself & Hcases).
  apply findFirst_Some in Hw as [Hw <-].
  assert (workspaces db' = workspaces db
          ∧ getUser db' userId = Some (setUser ownerOnboarding (env_now env) u)
          ∧ ∃ m, m ∈ workspaceMembers db' ∧ wm_workspaceId m = ws_id w
                 ∧ wm_userId m = userId) as (Hws & Hu' & m & Hm & Hmw & Hmu).
  { destruct Hcases as [(Hcount & _ & ->)|(_ & _ & ->)].
    - rewrite getUser_updateUser, Hu. split_and!; [done..|].
      apply memberCount_pos, Exists_exists in Hcount as (m & Hm & Hmu).
      apply list_elem_of_filter in Hm as [Hmw Hm]. by exists m.
    - rewrite getUser_updateUser. unfold getUser in *. simpl. rewrite Hu.
      split_and!; [done..|].
      eexists (Build_WorkspaceMember _ _ _ _ _). split_and!; [|done..].
      simpl. apply elem_of_app. right. apply list_elem_of_here. }
  exists (omap (λ m, getWorkspace db' (wm_workspaceId m))
               (getUserWorkspaces db' userId)),
         (withWorkspaceRelations db' w).
  split_and!; [| |done..].
  - unfold myWorkspaces. rewrite Hreq', Hu'.
    rewrite decide_False by done.
    by rewrite foldl_push_getWorkspace.
  - apply list_elem_of_omap. exists m. split.
    + unfold getUserWorkspaces. by apply list_elem_of_filter.
    + unfold getWorkspace. rewrite Hmw, Hws.
      by rewrite (findFirst_unique ws_id).
Qed.

Lemma joined_workspace_listed_witness :
  ∃ ws w,
    myWorkspaces {| req_sub := Some "o2"; req_param := ""; req_body := () |}
                 Demo.afterJoin
    = (reply 200 ws, Demo.afterJoin)
    ∧ w ∈ ws
    ∧ wr_row w ∈ workspaces Demo.db
    ∧ JS.orNull (req_body Demo.joinRequest)
      = Some (ws_inviteToken (wr_row w))
    ∧ ws_trainerUserId (wr_row w) ≠ "o2".
Proof.
  apply (joined_workspace_listed Demo.env Demo.joinRequest
           {| req_sub := Some "o2"; req_param := ""; req_body := () |}
           Demo.db "o2" (fst (joinWorkspace Demo.env Demo.joinRequest Demo.db))).
  - apply (bool_decide_unpack _). by vm_compute.
  - reflexivity.
  - reflexivity.
  - by eexists.
  - reflexivity.
  - right. reflexivity.
Defined.


(** ** The media of a task *)
Lemma requireTrainer_inr {A B} (req : Request B) db user :
  getUserWithRole db req = Some user →
  user_role user = Some "TRAINER" ∨ user_role user = Some "ADMIN" →
  requireTrainer (A:=A) db req = inr user.
Proof. intros Huser Hrole. unfold requireTrainer. by rewrite Huser, decide_True. Qed.

Lemma getTaskMedia_deleteTaskMedia id st k :
  getTaskMedia (deleteTaskMedia id st) k
  = filter (λ m, tm_id m ≠ id) (getTaskMedia st k).
Proof.
  unfold getTaskMedia, deleteTaskMedia. simpl.
  induction (ms_taskMedia st) as [|m l IH]; [done|].
  rewrite !filter_cons. repeat (case_decide; rewrite ?filter_cons); by rewrite ?IH.
Qed.

(** The request of the same user that asks for the media of the same task. *)
Local Abbreviation bare req :=
  {| req_sub := req_sub req; req_param := req_param req; req_body := () |}.

(** X28. A file uploaded to a task is listed with the task and can be taken
    back. When the trainer of the pet of a task (or an admin) uploads a
    file that the upload lets through (its type is one of the seven
    allowed, its size below the limit of 50 MiB), the route answers 201
    with a media row of that task, VIDEO for a video type and IMAGE
    otherwise; the media of the task are then those it had followed by the
    new row, and the media of other tasks are as before; and deleting the
    new row, its id being new, gives back the table as it was before the
    upload. *)
Theorem uploadTaskMedia_listed_and_deleted `{Multer} env
    (req : Request (option UploadedFile)) st user task file :
  getUserWithRole (ms_db st) req = Some user →
  user_role user = Some "TRAINER" ∨ user_role user = Some "ADMIN" →
  getTask (ms_db st) (req_param req) = Some task →
  assignedTo (ms_db st) user task = true →
  req_body req = Some file →
  file_mimetype file ∈ allowedTypes →
  file_size file < fileSizeLimit →
  env_uuid env 0 ∉ tm_id <$> ms_taskMedia st →
  ∃ media st1,
    uploadTaskMedia env req st = Some (reply 201 media, st1)
    ∧ tm_taskId media = req_param req
    ∧ tm_mediaType media
      = (if startsWith "video/" (file_mimetype file) then "VIDEO" else "IMAGE")
    ∧ listTaskMedia (bare req) st1
      = (reply 200 (getTaskMedia st (req_param req) ++ [media]), st1)
    ∧ (∀ k, k ≠ req_param req → getTaskMedia st1 k = getTaskMedia st k)
    ∧ deleteTaskMediaHandler (tm_id media) (bare req) st1 = (reply 200 (), st).
Proof.
  intros Huser Hrole Htask Hassigned Hfile Htype Hsize Hfresh.
  pose proof (findFirst_Some _ _ _ Htask) as [_ Hid]. simpl in Hid.
  eexists _, _. split.
  { unfold uploadTaskMedia. rewrite (requireTrainer_inr req _ user) by done.
    rewrite single_passes by (rewrite Hfile; by intros ? [= <-]).
    simpl mbind. rewrite Htask, Hassigned, Hfile. reflexivity. }
  simpl. split_and!; [done|done| | |].
  - unfold listTaskMedia. simpl. rewrite Htask. f_equal. f_equal.
    unfold getTaskMedia. simpl.
    rewrite filter_app, filter_cons, filter_nil. by rewrite decide_True.
  - intros k Hk. unfold getTaskMedia. simpl.
    rewrite filter_app, filter_cons, filter_nil.
    rewrite decide_False by (simpl; congruence). by rewrite app_nil_r.
  - unfold deleteTaskMediaHandler. simpl.
    rewrite (requireTrainer_inr (bare req) _ user) by done.
    rewrite Htask, Hassigned. simpl. f_equal.
    unfold deleteTaskMedia. simpl.
    rewrite filter_app, filter_cons, filter_nil.
    rewrite decide_False by (intros Hne; by apply Hne).
    rewrite app_nil_r, filter_all; [by destruct st|].
    intros m Hm Heq. apply Hfresh. rewrite <- Heq. by apply list_elem_of_fmap_2.
Qed.

(** Sarah puts the video of 3 MB with the task and takes it back. *)
Lemma uploadTaskMedia_listed_and_deleted_witness :
  ∃ media st1,
    @uploadTaskMedia inclusive Demo.env
      {| req_sub := Some "t1"; req_param := "k1";
         req_body := Some UploadDemo.clip |}
      {| ms_db := Demo.db; ms_taskMedia := [] |}
    = Some (reply 201 media, st1)
    ∧ tm_mediaType media = "VIDEO"
    ∧ listTaskMedia {| req_sub := Some "t1"; req_param := "k1"; req_body := () |}
        st1
      = (reply 200 [media], st1)
    ∧ deleteTaskMediaHandler (tm_id media)
        {| req_sub := Some "t1"; req_param := "k1"; req_body := () |} st1
      = (reply 200 (), {| ms_db := Demo.db; ms_taskMedia := [] |}).
Proof.
  destruct (@uploadTaskMedia_listed_and_deleted inclusive Demo.env
              {| req_sub := Some "t1"; req_param := "k1";
                 req_body := Some UploadDemo.clip |}
              {| ms_db := Demo.db; ms_taskMedia := [] |}
              Demo.sarah Demo.sitStay UploadDemo.clip
              ltac:(by vm_compute) (or_introl eq_refl) eq_refl eq_refl eq_refl
              ltac:(apply (bool_decide_unpack _); by vm_compute)
              ltac:(by vm_compute) ltac:(apply not_elem_of_nil))
    as (media & st1 & Hrun & _ & Htype & Hlist & _ & Hdelete).
  by exists media, st1.
Defined.

(** A PDF is not let through, whatever multer does at the limit, and
    neither is a video of more than 50 MiB: the handler does not run. *)
Example uploadTaskMedia_refused `{Multer} :
  uploadTaskMedia Demo.env
    {| req_sub := Some "t1"; req_param := "k1";
       req_body := Some UploadDemo.leaflet |}
    {| ms_db := Demo.db; ms_taskMedia := [] |}
  = None
  ∧ uploadTaskMedia Demo.env
      {| req_sub := Some "t1"; req_param := "k1";
         req_body := Some UploadDemo.film |}
      {| ms_db := Demo.db; ms_taskMedia := [] |}
    = None.
Proof.
  split; [done|]. unfold uploadTaskMedia. cbn [ms_db].
  assert (requireTrainer (A:=TaskMedia) Demo.db
            {| req_sub := Some "t1"; req_param := "k1";
               req_body := Some UploadDemo.film |}
          = inr Demo.sarah) as -> by by vm_compute.
  cbn [req_body single].
  rewrite (withinLimit_above (file_size UploadDemo.film)) by (by vm_compute).
  by rewrite andb_false_r.
Qed.

(** X29. [DELETE /api/tasks/:taskId/media/:mediaId] looks at the task of
    the path to decide who may delete, and at the media id alone to decide
    what is deleted. A request it refuses (403, 404) writes nothing. For
    the trainer of the pet of the task of the path (or an admin) it answers
    200 and the rows with that media id are gone from the media of every
    task, whether or not it is the task of the path; no other row is
    touched, and the database is as it was. *)
Theorem deleteTaskMediaHandler_by_id mediaId (req : Request unit) st r st' :
  deleteTaskMediaHandler mediaId req st = (r, st') →
  (status r ≠ 200 → st' = st)
  ∧ (∀ user task,
       getUserWithRole (ms_db st) req = Some user →
       user_role user = Some "TRAINER" ∨ user_role user = Some "ADMIN" →
       getTask (ms_db st) (req_param req) = Some task →
       assignedTo (ms_db st) user task = true →
       status r = 200
       ∧ ms_db st' = ms_db st
       ∧ ∀ k, getTaskMedia st' k
              = filter (λ m, tm_id m ≠ mediaId) (getTaskMedia st k)).
Proof.
  intros Hrun. split.
  - revert Hrun. unfold deleteTaskMediaHandler, requireTrainer.
    destruct (getUserWithRole _ req) as [user|]; [|by intros [= <- <-]].
    case_decide; [|by intros [= <- <-]].
    destruct (getTask _ _) as [task|]; [|by intros [= <- <-]].
    destruct (assignedTo _ _ _); simpl; by intros [= <- <-].
  - intros user task Huser Hrole Htask Hassigned.
    unfold deleteTaskMediaHandler in Hrun.
    rewrite (requireTrainer_inr req _ user) in Hrun by done.
    rewrite Htask, Hassigned in Hrun. simpl in Hrun.
    injection Hrun as <- <-. split_and!; [done..|].
    intros k. apply getTaskMedia_deleteTaskMedia.
Qed.

Lemma deleteTaskMediaHandler_by_id_witness :
  getTaskMedia
    (snd (deleteTaskMediaHandler "m9"
            {| req_sub := Some "t1"; req_param := "k1"; req_body := () |}
            {| ms_db := Demo.db;
               ms_taskMedia :=
                 [{| tm_id := "m9"; tm_taskId := "k9"; tm_mediaType := "IMAGE";
                     tm_filePath := "/uploads/9f.png"; tm_fileName := None;
                     tm_createdAt := 0 |}] |}))
    "k9"
  = [].
Proof.
  set (st := {| ms_db := Demo.db;
                ms_taskMedia :=
                  [{| tm_id := "m9"; tm_taskId := "k9"; tm_mediaType := "IMAGE";
                      tm_filePath := "/uploads/9f.png"; tm_fileName := None;
                      tm_createdAt := 0 |}] |}).
  set (req := {| req_sub := Some "t1"; req_param := "k1"; req_body := () |}).
  destruct (deleteTaskMediaHandler "m9" req st) as [r st'] eqn:Hrun.
  destruct (deleteTaskMediaHandler_by_id "m9" req st r st' Hrun) as [_ Hdone].
  destruct (Hdone Demo.sarah Demo.sitStay ltac:(by vm_compute)
              (or_introl eq_refl) eq_refl eq_refl) as (_ & _ & Hgone).
  simpl. by rewrite Hgone.
Defined.




















